(** * The esbuild command-line front end ([pkg/cli/cli_impl.go])

    A shallow embedding of the option parser, the run driver and the serve
    option parser of [cli_impl.go], together with the mark phase of the
    tree shaker as the specification describes it.

    Conventions of the embedding:
    - a Go [string] is a [string] of the Standard Library (a sequence of
      bytes); [s[i:]], [s[:j]] and [s[i:j]] are [sliceFrom], [sliceTo] and
      [slice];
    - a Go [int] or [int64] is a [Z]; the bounds that [strconv] checks are
      written out;
    - a Go [map[string]T] is a [gmap string T]; a [nil] map that the code
      replaces by [make(...)] before its first insertion is the empty map;
    - a [[]T] is a [list T], [append] adds at the end;
    - a pointer that is either [nil] or owned ([*string], [*StdinOptions])
      is an [option];
    - a function returning [(T, *ErrorWithNote)] returns [T + ErrorWithNote].
*)

From Stdlib Require Import ZArith String Ascii List Bool Lia.
From stdpp Require Import gmap strings list fin_maps sorting.

Import ListNotations.
Local Open Scope string_scope.
Local Open Scope list_scope.

(** ** Go strings *)

Module strings.

(** [strings.HasPrefix(s, prefix)] *)
Fixpoint HasPrefix (s prefix : string) {struct prefix} : bool :=
  match prefix with
  | EmptyString => true
  | String c prefix' =>
      match s with
      | EmptyString => false
      | String d s' => Ascii.eqb d c && HasPrefix s' prefix'
      end
  end.

(** [strings.IndexByte(s, c)]: the index of the first [c] in [s];
    [None] stands for Go's [-1]. *)
Fixpoint IndexByte (s : string) (c : ascii) : option nat :=
  match s with
  | EmptyString => None
  | String d s' =>
      if Ascii.eqb d c then Some 0%nat
      else match IndexByte s' c with
           | Some i => Some (S i)
           | None => None
           end
  end.

(** [strings.ContainsRune(s, r)] for an ASCII rune [r]. *)
Definition ContainsRune (s : string) (r : ascii) : bool :=
  match IndexByte s r with Some _ => true | None => false end.

(** [strings.Join(elems, sep)] *)
Fixpoint Join (elems : list string) (sep : string) : string :=
  match elems with
  | [] => ""
  | [e] => e
  | e :: rest => e ++ sep ++ Join rest sep
  end.

(** The part of [s] before the first occurrence of the one-byte
    separator [sep], and the rest after it, if there is one. *)
Fixpoint cut (s : string) (sep : ascii) : string * option string :=
  match s with
  | EmptyString => (EmptyString, None)
  | String d s' =>
      if Ascii.eqb d sep then (EmptyString, Some s')
      else let '(h, t) := cut s' sep in (String d h, t)
  end.

(** [strings.Split(s, sep)] for a one-byte separator: the pieces of [s]
    between the occurrences of [sep]; always at least one piece. *)
Fixpoint SplitByte (fuel : nat) (s : string) (sep : ascii) : list string :=
  match fuel with
  | O => [s]
  | S fuel' =>
      match cut s sep with
      | (h, None) => [h]
      | (h, Some t) => h :: SplitByte fuel' t sep
      end
  end.

Definition Split (s : string) (sep : ascii) : list string :=
  SplitByte (String.length s) s sep.

End strings.

(** [s[i:]] *)
Fixpoint sliceFrom (i : nat) (s : string) : string :=
  match i, s with
  | O, _ => s
  | S i', String _ s' => sliceFrom i' s'
  | S _, EmptyString => EmptyString
  end.

(** [s[:j]] *)
Fixpoint sliceTo (j : nat) (s : string) : string :=
  match j, s with
  | O, _ => EmptyString
  | S j', String c s' => String c (sliceTo j' s')
  | S _, EmptyString => EmptyString
  end.

(** [s[i:j]] *)
Definition slice (i j : nat) (s : string) : string :=
  sliceFrom i (sliceTo j s).

(** ** [strconv]: decimal integers *)

Module strconv.

Inductive NumError : Type :=
| ErrSyntax
| ErrRange.

(** The value of a decimal digit, [None] for any other byte. *)
Definition digit (c : ascii) : option Z :=
  let n := Z.of_nat (nat_of_ascii c) in
  if (48 <=? n)%Z && (n <=? 57)%Z then Some (n - 48)%Z else None.

Definition maxUint64 : Z := (2 ^ 64 - 1)%Z.

(** The loop of [ParseUint(s, 10, bitSize)] over the bytes of [s], with
    [n] the value read so far: the first overflow or bad byte ends it. *)
Fixpoint ParseUintLoop (maxVal : Z) (s : string) (n : Z) : Z + NumError :=
  match s with
  | EmptyString => inl n
  | String c s' =>
      match digit c with
      | None => inr ErrSyntax
      | Some d =>
          if (n >=? maxUint64 / 10 + 1)%Z then inr ErrRange
          else
            let n10 := (n * 10)%Z in
            let n1 := ((n10 + d) mod 2 ^ 64)%Z in
            if (n1 <? n10)%Z || (n1 >? maxVal)%Z then inr ErrRange
            else ParseUintLoop maxVal s' n1
      end
  end.

(** [strconv.ParseUint(s, 10, bitSize)] *)
Definition ParseUint (s : string) (bitSize : Z) : Z + NumError :=
  match s with
  | EmptyString => inr ErrSyntax
  | _ => ParseUintLoop (2 ^ bitSize - 1)%Z s 0%Z
  end.

(** The second half of [ParseInt], "Convert unsigned and check range": the
    signed value of the result [unres] of [ParseUint] under the sign [neg].
    On a range error Go also returns the nearest bound, which no caller in
    this file reads. *)
Definition signedValue (neg : bool) (unres : Z + NumError) (bitSize : Z) : Z + NumError :=
  match unres with
  | inr ErrSyntax => inr ErrSyntax
  | inr ErrRange =>
      (* the unsigned value saturated at [2^bitSize - 1], beyond the cutoff *)
      inr ErrRange
  | inl un =>
      let cutoff := (2 ^ (bitSize - 1))%Z in
      if negb neg && (un >=? cutoff)%Z then inr ErrRange
      else if neg && (un >? cutoff)%Z then inr ErrRange
      else inl (if neg then (- un)%Z else un)
  end.

(** [strconv.ParseInt(s, 10, bitSize)], for [bitSize] 32 or 64: pick off
    the leading sign, then convert. *)
Definition ParseInt (s : string) (bitSize : Z) : Z + NumError :=
  match s with
  | EmptyString => inr ErrSyntax
  | String c s' =>
      let '(neg, digits) :=
        if Ascii.eqb c "+" then (false, s')
        else if Ascii.eqb c "-" then (true, s')
        else (false, s) in
      signedValue neg (ParseUint digits bitSize) bitSize
  end.

(** [strconv.Atoi(s)] is [ParseInt(s, 10, 0)], whose bit size 0 stands for
    the size [intSize] of an [int]: [strconv.IntSize], 32 or 64 with the
    platform. *)
Definition Atoi (intSize : Z) (s : string) : Z + NumError := ParseInt s intSize.

End strconv.

(** ** Package [api]: the declarations the CLI uses

    The package itself is not part of the sources at hand. Its enumerations
    are written with the constants that [cli_impl.go] names, after a first
    constant for the zero value, the value of a field that no flag has set;
    [Loader] and [EngineName], whose constants come out of
    [cli_helpers.ParseLoader] and of the table [validEngines], list the
    loaders and the engines of the package. *)

Module api.

Inductive StderrColor : Type := ColorIfTerminal | ColorNever | ColorAlways.

Inductive LogLevel : Type :=
| LogLevelSilent | LogLevelVerbose | LogLevelDebug
| LogLevelInfo | LogLevelWarning | LogLevelError.

Inductive SourceMap : Type :=
| SourceMapNone | SourceMapInline | SourceMapLinked
| SourceMapExternal | SourceMapInlineAndExternal.

Inductive SourcesContent : Type := SourcesContentInclude | SourcesContentExclude.

Inductive LegalComments : Type :=
| LegalCommentsDefault | LegalCommentsNone | LegalCommentsInline
| LegalCommentsEndOfFile | LegalCommentsLinked | LegalCommentsExternal.

Inductive JSX : Type := JSXTransform | JSXPreserve | JSXAutomatic.

Inductive Target : Type :=
| DefaultTarget | ESNext | ES5 | ES2015 | ES2016 | ES2017 | ES2018
| ES2019 | ES2020 | ES2021 | ES2022 | ES2023 | ES2024.

Inductive Loader : Type :=
| LoaderNone | LoaderBase64 | LoaderBinary | LoaderCopy | LoaderCSS
| LoaderDataURL | LoaderDefault | LoaderEmpty | LoaderFile
| LoaderGlobalCSS | LoaderJS | LoaderJSON | LoaderJSX | LoaderLocalCSS
| LoaderText | LoaderTS | LoaderTSX.

Inductive Platform : Type :=
| PlatformDefault | PlatformBrowser | PlatformNode | PlatformNeutral.

Inductive Format : Type :=
| FormatDefault | FormatIIFE | FormatCommonJS | FormatESModule.

Inductive Packages : Type := PackagesDefault | PackagesBundle | PackagesExternal.

Inductive Charset : Type := CharsetDefault | CharsetASCII | CharsetUTF8.

Inductive TreeShaking : Type :=
| TreeShakingDefault | TreeShakingFalse | TreeShakingTrue.

Inductive MangleQuoted : Type := MangleQuotedFalse | MangleQuotedTrue.

Inductive EngineName : Type :=
| EngineChrome | EngineDeno | EngineEdge | EngineFirefox | EngineHermes
| EngineIE | EngineIOS | EngineNode | EngineOpera | EngineRhino
| EngineSafari.

Record Engine : Type := { Name : EngineName; Version : string }.

Record EntryPoint : Type := { InputPath : string; OutputPath : string }.

(** [api.Drop] and [api.AbsPaths] are bit sets ([1 << iota]). *)
Definition DropConsole : Z := 1.
Definition DropDebugger : Z := 2.

Definition CodeAbsPath : Z := 1.
Definition LogAbsPath : Z := 2.
Definition MetafileAbsPath : Z := 4.

(** Equality of the constants of an enumeration is decidable ([==]). *)
#[global] Instance StderrColor_eq_dec : EqDecision StderrColor.
Proof. solve_decision. Defined.

#[global] Instance LogLevel_eq_dec : EqDecision LogLevel.
Proof. solve_decision. Defined.

#[global] Instance SourceMap_eq_dec : EqDecision SourceMap.
Proof. solve_decision. Defined.

#[global] Instance SourcesContent_eq_dec : EqDecision SourcesContent.
Proof. solve_decision. Defined.

#[global] Instance LegalComments_eq_dec : EqDecision LegalComments.
Proof. solve_decision. Defined.

#[global] Instance JSX_eq_dec : EqDecision JSX.
Proof. solve_decision. Defined.

#[global] Instance Target_eq_dec : EqDecision Target.
Proof. solve_decision. Defined.

#[global] Instance Loader_eq_dec : EqDecision Loader.
Proof. solve_decision. Defined.

#[global] Instance Platform_eq_dec : EqDecision Platform.
Proof. solve_decision. Defined.

#[global] Instance Format_eq_dec : EqDecision Format.
Proof. solve_decision. Defined.

#[global] Instance Packages_eq_dec : EqDecision Packages.
Proof. solve_decision. Defined.

#[global] Instance Charset_eq_dec : EqDecision Charset.
Proof. solve_decision. Defined.

#[global] Instance TreeShaking_eq_dec : EqDecision TreeShaking.
Proof. solve_decision. Defined.

#[global] Instance MangleQuoted_eq_dec : EqDecision MangleQuoted.
Proof. solve_decision. Defined.

#[global] Instance EngineName_eq_dec : EqDecision EngineName.
Proof. solve_decision. Defined.

End api.

(** A value of the mangle cache ([map[string]interface{}]): the new name
    of a property, or [false] for a property that must keep its name. *)
Inductive MangleValue : Type :=
| MangleTo (name : string)
| MangleKeep.

Abbreviation MangleCacheMap := (gmap string MangleValue).

(** ** The file system and the terminal, as the run driver uses them

    What a callback does to the outside world is the list of its calls,
    in order. *)
Inductive Effect : Type :=
| BeforeFileOpen
| AfterFileClose
| MkdirAll (dir : string)
| WriteFile (path : string) (data : string)
| PrintErrorToStderr (text : string)
| PrintAnalysis (metafile : string) (verbose : bool).

(** A callback either returns after some calls or panics. *)
Inductive Outcome : Type :=
| Returns (calls : list Effect)
| Panics (calls : list Effect) (text : string).

(** [api.BuildResult]: the fields that the CLI reads. [Errors] is their number. *)
Module BuildResult.
Record t : Type := mk {
  Errors : nat;
  Metafile : string;
  MangleCache : option MangleCacheMap;
}.
End BuildResult.

(** [api.Plugin], by what its [Setup] registers: the [OnEnd] callback. *)
Module Plugin.
Record t : Type := mk {
  Name : string;
  OnEnd : BuildResult.t -> Outcome;
}.
End Plugin.

(** [api.StdinOptions] *)
Module StdinOptions.

Record t : Type := mk {
  Contents : string;
  ResolveDir : string;
  Sourcefile : string;
  Loader : api.Loader;
}.

(** The zero value [api.StdinOptions{}]. *)
Definition zero : t :=
  {|
    Contents := "";
    ResolveDir := "";
    Sourcefile := "";
    Loader := api.LoaderNone;
  |}.

(** Every record is built from its own fields; the setters below
    replace one argument of this expansion. *)
Definition expand (o : t) : t :=
  mk (o.(Contents)) (o.(ResolveDir)) (o.(Sourcefile)) (o.(Loader)).

Ltac setter proj :=
  let v := fresh "v" in
  let o := fresh "o" in
  intros v o;
  let e := eval cbv beta delta [expand] in (expand o) in
  match eval pattern (proj o) in e with
  | ?f _ => let r := eval cbv beta in (f v) in exact r
  end.

(** Assignment to one field, [o.F = v]. *)
Definition set_Contents : string -> t -> t := ltac:(setter Contents).
Definition set_ResolveDir : string -> t -> t := ltac:(setter ResolveDir).
Definition set_Sourcefile : string -> t -> t := ltac:(setter Sourcefile).
Definition set_Loader : api.Loader -> t -> t := ltac:(setter Loader).

End StdinOptions.

(** [api.BuildOptions]: the fields that the CLI reads or writes. *)
Module BuildOptions.

Record t : Type := mk {
  Color : api.StderrColor;
  LogLevel : api.LogLevel;
  LogLimit : Z;
  LogOverride : gmap string api.LogLevel;
  AbsPaths : Z;
  Sourcemap : api.SourceMap;
  SourceRoot : string;
  SourcesContent : api.SourcesContent;
  Target : api.Target;
  Engines : list api.Engine;
  Supported : gmap string bool;
  MangleProps : string;
  ReserveProps : string;
  MangleQuoted : api.MangleQuoted;
  MangleCache : option MangleCacheMap;
  Drop : Z;
  DropLabels : list string;
  MinifyWhitespace : bool;
  MinifyIdentifiers : bool;
  MinifySyntax : bool;
  LineLimit : Z;
  Charset : api.Charset;
  TreeShaking : api.TreeShaking;
  IgnoreAnnotations : bool;
  LegalComments : api.LegalComments;
  JSX : api.JSX;
  JSXFactory : string;
  JSXFragment : string;
  JSXImportSource : string;
  JSXDev : bool;
  JSXSideEffects : bool;
  Define : gmap string string;
  Pure : list string;
  KeepNames : bool;
  GlobalName : string;
  Bundle : bool;
  PreserveSymlinks : bool;
  Splitting : bool;
  Outfile : string;
  Outdir : string;
  Outbase : string;
  Metafile : bool;
  AbsWorkingDir : string;
  Platform : api.Platform;
  Format : api.Format;
  Packages : api.Packages;
  External : list string;
  Alias : gmap string string;
  MainFields : list string;
  Conditions : list string;
  Loader : gmap string api.Loader;
  ResolveExtensions : list string;
  Tsconfig : string;
  TsconfigRaw : string;
  OutExtension : gmap string string;
  PublicPath : string;
  Inject : list string;
  Banner : gmap string string;
  Footer : gmap string string;
  NodePaths : list string;
  EntryNames : string;
  ChunkNames : string;
  AssetNames : string;
  EntryPoints : list string;
  EntryPointsAdvanced : list api.EntryPoint;
  Stdin : option StdinOptions.t;
  Write : bool;
  AllowOverwrite : bool;
  Plugins : list Plugin.t;
}.

(** The zero value [api.BuildOptions{}]. *)
Definition zero : t :=
  {|
    Color := api.ColorIfTerminal;
    LogLevel := api.LogLevelSilent;
    LogLimit := 0%Z;
    LogOverride := ∅;
    AbsPaths := 0%Z;
    Sourcemap := api.SourceMapNone;
    SourceRoot := "";
    SourcesContent := api.SourcesContentInclude;
    Target := api.DefaultTarget;
    Engines := [];
    Supported := ∅;
    MangleProps := "";
    ReserveProps := "";
    MangleQuoted := api.MangleQuotedFalse;
    MangleCache := None;
    Drop := 0%Z;
    DropLabels := [];
    MinifyWhitespace := false;
    MinifyIdentifiers := false;
    MinifySyntax := false;
    LineLimit := 0%Z;
    Charset := api.CharsetDefault;
    TreeShaking := api.TreeShakingDefault;
    IgnoreAnnotations := false;
    LegalComments := api.LegalCommentsDefault;
    JSX := api.JSXTransform;
    JSXFactory := "";
    JSXFragment := "";
    JSXImportSource := "";
    JSXDev := false;
    JSXSideEffects := false;
    Define := ∅;
    Pure := [];
    KeepNames := false;
    GlobalName := "";
    Bundle := false;
    PreserveSymlinks := false;
    Splitting := false;
    Outfile := "";
    Outdir := "";
    Outbase := "";
    Metafile := false;
    AbsWorkingDir := "";
    Platform := api.PlatformDefault;
    Format := api.FormatDefault;
    Packages := api.PackagesDefault;
    External := [];
    Alias := ∅;
    MainFields := [];
    Conditions := [];
    Loader := ∅;
    ResolveExtensions := [];
    Tsconfig := "";
    TsconfigRaw := "";
    OutExtension := ∅;
    PublicPath := "";
    Inject := [];
    Banner := ∅;
    Footer := ∅;
    NodePaths := [];
    EntryNames := "";
    ChunkNames := "";
    AssetNames := "";
    EntryPoints := [];
    EntryPointsAdvanced := [];
    Stdin := None;
    Write := false;
    AllowOverwrite := false;
    Plugins := [];
  |}.

(** Every record is built from its own fields; the setters below
    replace one argument of this expansion. *)
Definition expand (o : t) : t :=
  mk (o.(Color)) (o.(LogLevel)) (o.(LogLimit)) (o.(LogOverride))
  (o.(AbsPaths)) (o.(Sourcemap)) (o.(SourceRoot)) (o.(SourcesContent))
  (o.(Target)) (o.(Engines)) (o.(Supported)) (o.(MangleProps))
  (o.(ReserveProps)) (o.(MangleQuoted)) (o.(MangleCache)) (o.(Drop))
  (o.(DropLabels)) (o.(MinifyWhitespace)) (o.(MinifyIdentifiers))
  (o.(MinifySyntax)) (o.(LineLimit)) (o.(Charset)) (o.(TreeShaking))
  (o.(IgnoreAnnotations)) (o.(LegalComments)) (o.(JSX)) (o.(JSXFactory))
  (o.(JSXFragment)) (o.(JSXImportSource)) (o.(JSXDev))
  (o.(JSXSideEffects)) (o.(Define)) (o.(Pure)) (o.(KeepNames))
  (o.(GlobalName)) (o.(Bundle)) (o.(PreserveSymlinks)) (o.(Splitting))
  (o.(Outfile)) (o.(Outdir)) (o.(Outbase)) (o.(Metafile))
  (o.(AbsWorkingDir)) (o.(Platform)) (o.(Format)) (o.(Packages))
  (o.(External)) (o.(Alias)) (o.(MainFields)) (o.(Conditions))
  (o.(Loader)) (o.(ResolveExtensions)) (o.(Tsconfig)) (o.(TsconfigRaw))
  (o.(OutExtension)) (o.(PublicPath)) (o.(Inject)) (o.(Banner))
  (o.(Footer)) (o.(NodePaths)) (o.(EntryNames)) (o.(ChunkNames))
  (o.(AssetNames)) (o.(EntryPoints)) (o.(EntryPointsAdvanced))
  (o.(Stdin)) (o.(Write)) (o.(AllowOverwrite)) (o.(Plugins)).

Ltac setter proj :=
  let v := fresh "v" in
  let o := fresh "o" in
  intros v o;
  let e := eval cbv beta delta [expand] in (expand o) in
  match eval pattern (proj o) in e with
  | ?f _ => let r := eval cbv beta in (f v) in exact r
  end.

(** Assignment to one field, [o.F = v]. *)
Definition set_Color : api.StderrColor -> t -> t := ltac:(setter Color).
Definition set_LogLevel : api.LogLevel -> t -> t := ltac:(setter LogLevel).
Definition set_LogLimit : Z -> t -> t := ltac:(setter LogLimit).
Definition set_LogOverride : gmap string api.LogLevel -> t -> t := ltac:(setter LogOverride).
Definition set_AbsPaths : Z -> t -> t := ltac:(setter AbsPaths).
Definition set_Sourcemap : api.SourceMap -> t -> t := ltac:(setter Sourcemap).
Definition set_SourceRoot : string -> t -> t := ltac:(setter SourceRoot).
Definition set_SourcesContent : api.SourcesContent -> t -> t := ltac:(setter SourcesContent).
Definition set_Target : api.Target -> t -> t := ltac:(setter Target).
Definition set_Engines : list api.Engine -> t -> t := ltac:(setter Engines).
Definition set_Supported : gmap string bool -> t -> t := ltac:(setter Supported).
Definition set_MangleProps : string -> t -> t := ltac:(setter MangleProps).
Definition set_ReserveProps : string -> t -> t := ltac:(setter ReserveProps).
Definition set_MangleQuoted : api.MangleQuoted -> t -> t := ltac:(setter MangleQuoted).
Definition set_MangleCache : option MangleCacheMap -> t -> t := ltac:(setter MangleCache).
Definition set_Drop : Z -> t -> t := ltac:(setter Drop).
Definition set_DropLabels : list string -> t -> t := ltac:(setter DropLabels).
Definition set_MinifyWhitespace : bool -> t -> t := ltac:(setter MinifyWhitespace).
Definition set_MinifyIdentifiers : bool -> t -> t := ltac:(setter MinifyIdentifiers).
Definition set_MinifySyntax : bool -> t -> t := ltac:(setter MinifySyntax).
Definition set_LineLimit : Z -> t -> t := ltac:(setter LineLimit).
Definition set_Charset : api.Charset -> t -> t := ltac:(setter Charset).
Definition set_TreeShaking : api.TreeShaking -> t -> t := ltac:(setter TreeShaking).
Definition set_IgnoreAnnotations : bool -> t -> t := ltac:(setter IgnoreAnnotations).
Definition set_LegalComments : api.LegalComments -> t -> t := ltac:(setter LegalComments).
Definition set_JSX : api.JSX -> t -> t := ltac:(setter JSX).
Definition set_JSXFactory : string -> t -> t := ltac:(setter JSXFactory).
Definition set_JSXFragment : string -> t -> t := ltac:(setter JSXFragment).
Definition set_JSXImportSource : string -> t -> t := ltac:(setter JSXImportSource).
Definition set_JSXDev : bool -> t -> t := ltac:(setter JSXDev).
Definition set_JSXSideEffects : bool -> t -> t := ltac:(setter JSXSideEffects).
Definition set_Define : gmap string string -> t -> t := ltac:(setter Define).
Definition set_Pure : list string -> t -> t := ltac:(setter Pure).
Definition set_KeepNames : bool -> t -> t := ltac:(setter KeepNames).
Definition set_GlobalName : string -> t -> t := ltac:(setter GlobalName).
Definition set_Bundle : bool -> t -> t := ltac:(setter Bundle).
Definition set_PreserveSymlinks : bool -> t -> t := ltac:(setter PreserveSymlinks).
Definition set_Splitting : bool -> t -> t := ltac:(setter Splitting).
Definition set_Outfile : string -> t -> t := ltac:(setter Outfile).
Definition set_Outdir : string -> t -> t := ltac:(setter Outdir).
Definition set_Outbase : string -> t -> t := ltac:(setter Outbase).
Definition set_Metafile : bool -> t -> t := ltac:(setter Metafile).
Definition set_AbsWorkingDir : string -> t -> t := ltac:(setter AbsWorkingDir).
Definition set_Platform : api.Platform -> t -> t := ltac:(setter Platform).
Definition set_Format : api.Format -> t -> t := ltac:(setter Format).
Definition set_Packages : api.Packages -> t -> t := ltac:(setter Packages).
Definition set_External : list string -> t -> t := ltac:(setter External).
Definition set_Alias : gmap string string -> t -> t := ltac:(setter Alias).
Definition set_MainFields : list string -> t -> t := ltac:(setter MainFields).
Definition set_Conditions : list string -> t -> t := ltac:(setter Conditions).
Definition set_Loader : gmap string api.Loader -> t -> t := ltac:(setter Loader).
Definition set_ResolveExtensions : list string -> t -> t := ltac:(setter ResolveExtensions).
Definition set_Tsconfig : string -> t -> t := ltac:(setter Tsconfig).
Definition set_TsconfigRaw : string -> t -> t := ltac:(setter TsconfigRaw).
Definition set_OutExtension : gmap string string -> t -> t := ltac:(setter OutExtension).
Definition set_PublicPath : string -> t -> t := ltac:(setter PublicPath).
Definition set_Inject : list string -> t -> t := ltac:(setter Inject).
Definition set_Banner : gmap string string -> t -> t := ltac:(setter Banner).
Definition set_Footer : gmap string string -> t -> t := ltac:(setter Footer).
Definition set_NodePaths : list string -> t -> t := ltac:(setter NodePaths).
Definition set_EntryNames : string -> t -> t := ltac:(setter EntryNames).
Definition set_ChunkNames : string -> t -> t := ltac:(setter ChunkNames).
Definition set_AssetNames : string -> t -> t := ltac:(setter AssetNames).
Definition set_EntryPoints : list string -> t -> t := ltac:(setter EntryPoints).
Definition set_EntryPointsAdvanced : list api.EntryPoint -> t -> t := ltac:(setter EntryPointsAdvanced).
Definition set_Stdin : option StdinOptions.t -> t -> t := ltac:(setter Stdin).
Definition set_Write : bool -> t -> t := ltac:(setter Write).
Definition set_AllowOverwrite : bool -> t -> t := ltac:(setter AllowOverwrite).
Definition set_Plugins : list Plugin.t -> t -> t := ltac:(setter Plugins).

End BuildOptions.

(** [api.TransformOptions]: the fields that the CLI reads or writes. *)
Module TransformOptions.

Record t : Type := mk {
  Color : api.StderrColor;
  LogLevel : api.LogLevel;
  LogLimit : Z;
  LogOverride : gmap string api.LogLevel;
  AbsPaths : Z;
  Sourcemap : api.SourceMap;
  SourceRoot : string;
  SourcesContent : api.SourcesContent;
  Target : api.Target;
  Engines : list api.Engine;
  Supported : gmap string bool;
  Platform : api.Platform;
  Format : api.Format;
  GlobalName : string;
  MangleProps : string;
  ReserveProps : string;
  MangleQuoted : api.MangleQuoted;
  Drop : Z;
  DropLabels : list string;
  MinifyWhitespace : bool;
  MinifyIdentifiers : bool;
  MinifySyntax : bool;
  LineLimit : Z;
  Charset : api.Charset;
  TreeShaking : api.TreeShaking;
  IgnoreAnnotations : bool;
  LegalComments : api.LegalComments;
  JSX : api.JSX;
  JSXFactory : string;
  JSXFragment : string;
  JSXImportSource : string;
  JSXDev : bool;
  JSXSideEffects : bool;
  TsconfigRaw : string;
  Banner : string;
  Footer : string;
  Define : gmap string string;
  Pure : list string;
  KeepNames : bool;
  Sourcefile : string;
  Loader : api.Loader;
}.

(** The zero value [api.TransformOptions{}]. *)
Definition zero : t :=
  {|
    Color := api.ColorIfTerminal;
    LogLevel := api.LogLevelSilent;
    LogLimit := 0%Z;
    LogOverride := ∅;
    AbsPaths := 0%Z;
    Sourcemap := api.SourceMapNone;
    SourceRoot := "";
    SourcesContent := api.SourcesContentInclude;
    Target := api.DefaultTarget;
    Engines := [];
    Supported := ∅;
    Platform := api.PlatformDefault;
    Format := api.FormatDefault;
    GlobalName := "";
    MangleProps := "";
    ReserveProps := "";
    MangleQuoted := api.MangleQuotedFalse;
    Drop := 0%Z;
    DropLabels := [];
    MinifyWhitespace := false;
    MinifyIdentifiers := false;
    MinifySyntax := false;
    LineLimit := 0%Z;
    Charset := api.CharsetDefault;
    TreeShaking := api.TreeShakingDefault;
    IgnoreAnnotations := false;
    LegalComments := api.LegalCommentsDefault;
    JSX := api.JSXTransform;
    JSXFactory := "";
    JSXFragment := "";
    JSXImportSource := "";
    JSXDev := false;
    JSXSideEffects := false;
    TsconfigRaw := "";
    Banner := "";
    Footer := "";
    Define := ∅;
    Pure := [];
    KeepNames := false;
    Sourcefile := "";
    Loader := api.LoaderNone;
  |}.

(** Every record is built from its own fields; the setters below
    replace one argument of this expansion. *)
Definition expand (o : t) : t :=
  mk (o.(Color)) (o.(LogLevel)) (o.(LogLimit)) (o.(LogOverride))
  (o.(AbsPaths)) (o.(Sourcemap)) (o.(SourceRoot)) (o.(SourcesContent))
  (o.(Target)) (o.(Engines)) (o.(Supported)) (o.(Platform)) (o.(Format))
  (o.(GlobalName)) (o.(MangleProps)) (o.(ReserveProps))
  (o.(MangleQuoted)) (o.(Drop)) (o.(DropLabels)) (o.(MinifyWhitespace))
  (o.(MinifyIdentifiers)) (o.(MinifySyntax)) (o.(LineLimit))
  (o.(Charset)) (o.(TreeShaking)) (o.(IgnoreAnnotations))
  (o.(LegalComments)) (o.(JSX)) (o.(JSXFactory)) (o.(JSXFragment))
  (o.(JSXImportSource)) (o.(JSXDev)) (o.(JSXSideEffects))
  (o.(TsconfigRaw)) (o.(Banner)) (o.(Footer)) (o.(Define)) (o.(Pure))
  (o.(KeepNames)) (o.(Sourcefile)) (o.(Loader)).

Ltac setter proj :=
  let v := fresh "v" in
  let o := fresh "o" in
  intros v o;
  let e := eval cbv beta delta [expand] in (expand o) in
  match eval pattern (proj o) in e with
  | ?f _ => let r := eval cbv beta in (f v) in exact r
  end.

(** Assignment to one field, [o.F = v]. *)
Definition set_Color : api.StderrColor -> t -> t := ltac:(setter Color).
Definition set_LogLevel : api.LogLevel -> t -> t := ltac:(setter LogLevel).
Definition set_LogLimit : Z -> t -> t := ltac:(setter LogLimit).
Definition set_LogOverride : gmap string api.LogLevel -> t -> t := ltac:(setter LogOverride).
Definition set_AbsPaths : Z -> t -> t := ltac:(setter AbsPaths).
Definition set_Sourcemap : api.SourceMap -> t -> t := ltac:(setter Sourcemap).
Definition set_SourceRoot : string -> t -> t := ltac:(setter SourceRoot).
Definition set_SourcesContent : api.SourcesContent -> t -> t := ltac:(setter SourcesContent).
Definition set_Target : api.Target -> t -> t := ltac:(setter Target).
Definition set_Engines : list api.Engine -> t -> t := ltac:(setter Engines).
Definition set_Supported : gmap string bool -> t -> t := ltac:(setter Supported).
Definition set_Platform : api.Platform -> t -> t := ltac:(setter Platform).
Definition set_Format : api.Format -> t -> t := ltac:(setter Format).
Definition set_GlobalName : string -> t -> t := ltac:(setter GlobalName).
Definition set_MangleProps : string -> t -> t := ltac:(setter MangleProps).
Definition set_ReserveProps : string -> t -> t := ltac:(setter ReserveProps).
Definition set_MangleQuoted : api.MangleQuoted -> t -> t := ltac:(setter MangleQuoted).
Definition set_Drop : Z -> t -> t := ltac:(setter Drop).
Definition set_DropLabels : list string -> t -> t := ltac:(setter DropLabels).
Definition set_MinifyWhitespace : bool -> t -> t := ltac:(setter MinifyWhitespace).
Definition set_MinifyIdentifiers : bool -> t -> t := ltac:(setter MinifyIdentifiers).
Definition set_MinifySyntax : bool -> t -> t := ltac:(setter MinifySyntax).
Definition set_LineLimit : Z -> t -> t := ltac:(setter LineLimit).
Definition set_Charset : api.Charset -> t -> t := ltac:(setter Charset).
Definition set_TreeShaking : api.TreeShaking -> t -> t := ltac:(setter TreeShaking).
Definition set_IgnoreAnnotations : bool -> t -> t := ltac:(setter IgnoreAnnotations).
Definition set_LegalComments : api.LegalComments -> t -> t := ltac:(setter LegalComments).
Definition set_JSX : api.JSX -> t -> t := ltac:(setter JSX).
Definition set_JSXFactory : string -> t -> t := ltac:(setter JSXFactory).
Definition set_JSXFragment : string -> t -> t := ltac:(setter JSXFragment).
Definition set_JSXImportSource : string -> t -> t := ltac:(setter JSXImportSource).
Definition set_JSXDev : bool -> t -> t := ltac:(setter JSXDev).
Definition set_JSXSideEffects : bool -> t -> t := ltac:(setter JSXSideEffects).
Definition set_TsconfigRaw : string -> t -> t := ltac:(setter TsconfigRaw).
Definition set_Banner : string -> t -> t := ltac:(setter Banner).
Definition set_Footer : string -> t -> t := ltac:(setter Footer).
Definition set_Define : gmap string string -> t -> t := ltac:(setter Define).
Definition set_Pure : list string -> t -> t := ltac:(setter Pure).
Definition set_KeepNames : bool -> t -> t := ltac:(setter KeepNames).
Definition set_Sourcefile : string -> t -> t := ltac:(setter Sourcefile).
Definition set_Loader : api.Loader -> t -> t := ltac:(setter Loader).

End TransformOptions.

(** ** Package [cli_helpers]: errors with a note *)

Module cli_helpers.

(** [cli_helpers.ErrorWithNote], built by [cli_helpers.MakeErrorWithNote]. *)
Record ErrorWithNote : Type := MakeErrorWithNote {
  Text : string;
  Note : string;
}.

End cli_helpers.

Import cli_helpers.

(** The double quote character, and a word between double quotes as the
    messages of the CLI spell it. *)
Definition dquote : string := String (ascii_of_nat 34) EmptyString.

Definition quoted (s : string) : string := dquote ++ s ++ dquote.

(** ** The option parser *)

Inductive parseOptionsKind : Type :=
| kindInternal  (* parsing for the CLI's own use *)
| kindExternal. (* the result is returned through a public API *)

Definition isInternal (kind : parseOptionsKind) : bool :=
  match kind with kindInternal => true | kindExternal => false end.

Definition isExternal (kind : parseOptionsKind) : bool :=
  match kind with kindInternal => false | kindExternal => true end.

Record parseOptionsExtras : Type := mkExtras {
  watch : bool;
  watchDelay : Z;
  metafile : option string;
  mangleCache : option string;
}.

(** The zero value [parseOptionsExtras{}]. *)
Definition noExtras : parseOptionsExtras := mkExtras false 0 None None.

(** [parseOptionsImpl] receives two pointers, [buildOpts] and
    [transformOpts], and every caller passes exactly one of them and [nil]
    for the other: the pair is one value saying which options are parsed.
    [buildOpts != nil] is [isBuild], [transformOpts != nil] its negation. *)
Inductive Options : Type :=
| BuildOpts (buildOpts : BuildOptions.t)
| TransformOpts (transformOpts : TransformOptions.t).

Definition isBuild (o : Options) : bool :=
  match o with BuildOpts _ => true | TransformOpts _ => false end.

Definition isTransform (o : Options) : bool := negb (isBuild o).

(** [if buildOpts != nil { buildOpts.F = v } else { transformOpts.F = v }] *)
Definition assign (fb : BuildOptions.t -> BuildOptions.t)
    (ft : TransformOptions.t -> TransformOptions.t) (o : Options) : Options :=
  match o with
  | BuildOpts b => BuildOpts (fb b)
  | TransformOpts t => TransformOpts (ft t)
  end.

(** [buildOpts.F = v] in a case guarded by [buildOpts != nil]. *)
Definition assignBuild (fb : BuildOptions.t -> BuildOptions.t) (o : Options) : Options :=
  match o with
  | BuildOpts b => BuildOpts (fb b)
  | TransformOpts t => TransformOpts t
  end.

(** [transformOpts.F = v] in a case guarded by [transformOpts != nil]. *)
Definition assignTransform (ft : TransformOptions.t -> TransformOptions.t)
    (o : Options) : Options :=
  match o with
  | BuildOpts b => BuildOpts b
  | TransformOpts t => TransformOpts (ft t)
  end.

(** The variables of the loop of [parseOptionsImpl]: the options behind the
    pointer, the named result [extras], the local [hasBareSourceMapFlag],
    and how many [range] loops over [validEngines] have run so far. *)
Record ParseState : Type := mkState {
  options : Options;
  extras : parseOptionsExtras;
  hasBareSourceMapFlag : bool;
  ranges : nat;
}.

Definition setOptions (f : Options -> Options) (st : ParseState) : ParseState :=
  mkState (f st.(options)) st.(extras) st.(hasBareSourceMapFlag) st.(ranges).

Definition setExtras (f : parseOptionsExtras -> parseOptionsExtras)
    (st : ParseState) : ParseState :=
  mkState st.(options) (f st.(extras)) st.(hasBareSourceMapFlag) st.(ranges).

Definition setBare (v : bool) (st : ParseState) : ParseState :=
  mkState st.(options) st.(extras) v st.(ranges).

Definition setRanges (n : nat) (st : ParseState) : ParseState :=
  mkState st.(options) st.(extras) st.(hasBareSourceMapFlag) n.

Definition set_watch (v : bool) (x : parseOptionsExtras) : parseOptionsExtras :=
  mkExtras v x.(watchDelay) x.(metafile) x.(mangleCache).

Definition set_watchDelay (v : Z) (x : parseOptionsExtras) : parseOptionsExtras :=
  mkExtras x.(watch) v x.(metafile) x.(mangleCache).

Definition set_metafile (v : option string) (x : parseOptionsExtras) : parseOptionsExtras :=
  mkExtras x.(watch) x.(watchDelay) v x.(mangleCache).

Definition set_mangleCache (v : option string) (x : parseOptionsExtras) : parseOptionsExtras :=
  mkExtras x.(watch) x.(watchDelay) x.(metafile) v.

(** Lookup in a map literal. *)
Fixpoint assoc {A : Type} (table : list (string * A)) (key : string) : option A :=
  match table with
  | [] => None
  | (k, v) :: rest => if String.eqb key k then Some v else assoc rest key
  end.

(** Membership in a [map[string]bool] literal whose values are all [true]. *)
Definition member (keys : list string) (key : string) : bool :=
  existsb (String.eqb key) keys.

(** [sort.Strings]: ascending in the byte-wise order of Go strings. *)
Definition string_le (a b : string) : Prop := String.leb a b = true.

#[global] Instance string_le_dec : RelDecision string_le.
Proof. intros a b. unfold string_le. apply _. Defined.

Definition sortStrings (l : list string) : list string := merge_sort string_le l.

(** [splitWithEmptyCheck(s, sep)] for a one-byte separator *)
Definition splitWithEmptyCheck (s : string) (sep : ascii) : list string :=
  (* Special-case the empty string to return [] instead of [""] *)
  if String.eqb s "" then [] else strings.Split s sep.

Definition isBoolFlag (arg flag : string) : bool :=
  if strings.HasPrefix arg flag then
    let remainder := sliceFrom (String.length flag) arg in
    match remainder with
    | EmptyString => true             (* len(remainder) == 0 *)
    | String c _ => Ascii.eqb c "="   (* remainder[0] == '=' *)
    end
  else false.

Definition isArgForBuild (arg : string) : bool :=
  negb (strings.HasPrefix arg "-") || String.eqb arg "--bundle".

Definition validTargets : list (string * api.Target) :=
  [ ("esnext", api.ESNext); ("es5", api.ES5); ("es6", api.ES2015);
    ("es2015", api.ES2015); ("es2016", api.ES2016); ("es2017", api.ES2017);
    ("es2018", api.ES2018); ("es2019", api.ES2019); ("es2020", api.ES2020);
    ("es2021", api.ES2021); ("es2022", api.ES2022); ("es2023", api.ES2023);
    ("es2024", api.ES2024) ].

(** The body of [for engine, name := range ...] in [parseTargets], over the
    entries in the order the loop visits them: the first engine whose name
    starts [value] ends the loop. *)
Fixpoint findEngine (entries : list (string * api.EngineName)) (value : string)
    : option (string * api.EngineName) :=
  match entries with
  | [] => None
  | (engine, name) :: rest =>
      if strings.HasPrefix value engine then Some (engine, name)
      else findEngine rest value
  end.

Section CLI.

(** What the CLI takes from outside this file:
    - [Quote], the verb [%q] of [fmt.Sprintf] on a string;
    - [ToLower], [strings.ToLower];
    - [ParseLoader], [cli_helpers.ParseLoader];
    - [rangeOrder n], the entries of the Go map [validEngines] of package
      [cli] (engine names such as [chrome] or [node], with their
      [api.EngineName]) in the order in which the [n]-th [range] loop
      over the map visits them: Go leaves that order unspecified and
      changes it from one loop to the next;
    - [intSize], the size [strconv.IntSize] of an [int], 32 or 64 with
      the platform that the CLI is built for. *)
Variable Quote : string -> string.
Variable ToLower : string -> string.
Variable ParseLoader : string -> api.Loader + ErrorWithNote.
Variable rangeOrder : nat -> list (string * api.EngineName).
Variable intSize : Z.

(** [fmt.Sprintf("Invalid value %q in %q", value, arg)] with its note. *)
Definition invalidValue (value arg note : string) : ErrorWithNote :=
  MakeErrorWithNote ("Invalid value " +:+ Quote value +:+ " in " +:+ Quote arg) note.

(** [fmt.Sprintf("Missing \"=\" in %q", arg)] with its note. *)
Definition missingEquals (arg note : string) : ErrorWithNote :=
  MakeErrorWithNote ("Missing " +:+ quoted "=" +:+ " in " +:+ Quote arg) note.

Definition parseBoolFlag (arg : string) (defaultValue : bool) : bool + ErrorWithNote :=
  match strings.IndexByte arg "=" with
  | None => inl defaultValue
  | Some equals =>
      let value := sliceFrom (equals + 1) arg in
      if String.eqb value "false" then inl false
      else if String.eqb value "true" then inl true
      else inr (invalidValue value arg
             ("Valid values are " +:+ quoted "true" +:+ " or " +:+ quoted "false" +:+ "."))
  end.

Definition parseLogLevel (value arg : string) : api.LogLevel + ErrorWithNote :=
  if String.eqb value "verbose" then inl api.LogLevelVerbose
  else if String.eqb value "debug" then inl api.LogLevelDebug
  else if String.eqb value "info" then inl api.LogLevelInfo
  else if String.eqb value "warning" then inl api.LogLevelWarning
  else if String.eqb value "error" then inl api.LogLevelError
  else if String.eqb value "silent" then inl api.LogLevelSilent
  else inr (invalidValue value arg
         ("Valid values are " +:+ quoted "verbose" +:+ ", " +:+ quoted "debug" +:+ ", "
          +:+ quoted "info" +:+ ", " +:+ quoted "warning" +:+ ", " +:+ quoted "error"
          +:+ ", or " +:+ quoted "silent" +:+ ".")).

(** The note of [parseTargets] for a target that is neither a language
    version nor an engine: the names, quoted and sorted. [order] is the
    order in which its [range] loop visits [validEngines]. *)
Definition invalidTargetNote (order : list (string * api.EngineName)) : string :=
  let engines := [quoted "esN"] ++ map (fun e => Quote (fst e +:+ "N")) order in
  let engines := sortStrings engines in
  "Valid values are " +:+ strings.Join (removelast engines) ", " +:+ ", or "
    +:+ List.last engines "" +:+ " where N is a version number.".

(** The loop of [parseTargets] over [targets], with the named results
    [target] and [engines] and the count [n] of [range] loops run. *)
Fixpoint parseTargetsLoop (targets : list string) (arg : string)
    (target : api.Target) (engines : list api.Engine) (n : nat)
    : (api.Target * list api.Engine * nat) + ErrorWithNote :=
  match targets with
  | [] => inl (target, engines, n)
  | value :: rest =>
      match assoc validTargets (ToLower value) with
      | Some valid => parseTargetsLoop rest arg valid engines n
      | None =>
          match findEngine (rangeOrder n) value with
          | Some (engine, name) =>
              let version := sliceFrom (String.length engine) value in
              if String.eqb version "" then
                inr (MakeErrorWithNote
                       ("Target " +:+ Quote value +:+ " is missing a version number in "
                        +:+ Quote arg) "")
              else
                parseTargetsLoop rest arg target
                  (engines ++ [{| api.Name := name; api.Version := version |}]) (S n)
          | None =>
              inr (MakeErrorWithNote
                     ("Invalid target " +:+ Quote value +:+ " in " +:+ Quote arg)
                     (invalidTargetNote (rangeOrder (S n))))
          end
      end
  end.

Definition parseTargets (targets : list string) (arg : string) (n : nat)
    : (api.Target * list api.Engine * nat) + ErrorWithNote :=
  parseTargetsLoop targets arg api.DefaultTarget [] n.

(** The loop over the values of [--abs-paths=]. *)
Fixpoint parseAbsPaths (values : list string) (arg : string) (absPaths : Z)
    : Z + ErrorWithNote :=
  match values with
  | [] => inl absPaths
  | value :: rest =>
      if String.eqb value "code" then
        parseAbsPaths rest arg (Z.lor absPaths api.CodeAbsPath)
      else if String.eqb value "log" then
        parseAbsPaths rest arg (Z.lor absPaths api.LogAbsPath)
      else if String.eqb value "metafile" then
        parseAbsPaths rest arg (Z.lor absPaths api.MetafileAbsPath)
      else
        inr (invalidValue value arg
               ("Valid values are " +:+ quoted "code" +:+ ", " +:+ quoted "log"
                +:+ ", or " +:+ quoted "metafile" +:+ "."))
  end.

(** [buildOpts.Stdin], allocated when it is still [nil]. *)
Definition stdinOrNew (b : BuildOptions.t) : StdinOptions.t :=
  match b.(BuildOptions.Stdin) with
  | Some stdin => stdin
  | None => StdinOptions.zero
  end.

(** The three tables of the [default] case. *)
Definition bare : list string :=
  [ "allow-overwrite"; "bundle"; "ignore-annotations"; "jsx-dev";
    "jsx-side-effects"; "keep-names"; "minify-identifiers"; "minify-syntax";
    "minify-whitespace"; "minify"; "preserve-symlinks"; "sourcemap";
    "splitting"; "watch" ].

Definition equals : list string :=
  [ "abs-paths"; "allow-overwrite"; "asset-names"; "banner"; "bundle";
    "certfile"; "charset"; "chunk-names"; "color"; "conditions";
    "cors-origin"; "drop-labels"; "entry-names"; "footer"; "format";
    "global-name"; "ignore-annotations"; "jsx-factory"; "jsx-fragment";
    "jsx-import-source"; "jsx"; "keep-names"; "keyfile"; "legal-comments";
    "loader"; "log-level"; "log-limit"; "main-fields"; "mangle-cache";
    "mangle-props"; "mangle-quoted"; "metafile"; "minify-identifiers";
    "minify-syntax"; "minify-whitespace"; "minify"; "outbase"; "outdir";
    "outfile"; "packages"; "platform"; "preserve-symlinks"; "public-path";
    "reserve-props"; "resolve-extensions"; "serve-fallback"; "serve";
    "servedir"; "source-root"; "sourcefile"; "sourcemap"; "sources-content";
    "splitting"; "target"; "tree-shaking"; "tsconfig-raw"; "tsconfig";
    "watch"; "watch-delay" ].

Definition colon : list string :=
  [ "alias"; "banner"; "define"; "drop"; "external"; "footer"; "inject";
    "loader"; "log-override"; "out-extension"; "pure"; "supported" ].

(** [i != -1 && table[arg[from:i]]] *)
Definition names (table : list string) (from : nat) (i : option nat) (arg : string) : bool :=
  match i with
  | Some i => member table (slice from i arg)
  | None => false
  end.

(** [arg[:i] + sep + arg[i+1:]] for the [i] of a successful [names]. *)
Definition respell (i : option nat) (sep arg : string) : string :=
  match i with
  | Some i => sliceTo i arg +:+ sep +:+ sliceFrom (i + 1) arg
  | None => arg
  end.

(** The [note] that the [default] case computes for an unknown flag. *)
Definition invalidFlagNote (arg : string) : string :=
  if String.eqb arg "-o" then
    "Use " +:+ quoted "--outfile=" +:+ " to configure the output file instead of "
      +:+ quoted "-o" +:+ "."
  else if String.eqb arg "-v" then
    "Use " +:+ quoted "--log-level=verbose" +:+ " to generate verbose logs instead of "
      +:+ quoted "-v" +:+ "."
  else if strings.HasPrefix arg "--" then
    let note1 :=
      let i := strings.IndexByte arg "=" in
      if names colon 2 i arg then
        "Use " +:+ Quote (respell i ":" arg) +:+ " instead of " +:+ Quote arg
          +:+ ". Flags that can be re-specified multiple times use " +:+ quoted ":"
          +:+ " instead of " +:+ quoted "=" +:+ "."
      else "" in
    let i := strings.IndexByte arg ":" in
    if names equals 2 i arg then
      "Use " +:+ Quote (respell i "=" arg) +:+ " instead of " +:+ Quote arg
        +:+ ". Flags that can only be specified once use " +:+ quoted "="
        +:+ " instead of " +:+ quoted ":" +:+ "."
    else note1
  else if strings.HasPrefix arg "-" then
    let isValid := member bare (sliceFrom 1 arg) in
    let fix_ := "-" +:+ arg in
    let i := strings.IndexByte arg "=" in
    let '(isValid, fix_) :=
      if names equals 1 i arg then (true, fix_)
      else if names colon 1 i arg then (true, "-" +:+ respell i ":" arg)
      else
        let i := strings.IndexByte arg ":" in
        if names colon 1 i arg then (true, fix_)
        else if names equals 1 i arg then (true, "-" +:+ respell i "=" arg)
        else (isValid, fix_) in
    if isValid then
      "Use " +:+ Quote fix_ +:+ " instead of " +:+ Quote arg
        +:+ ". Flags are always specified with two dashes instead of one dash."
    else ""
  else "".

(** The [default] case of the [switch]: an unknown flag is an error. *)
Definition invalidFlag (arg : string) (o : Options) : ErrorWithNote :=
  let note := invalidFlagNote arg in
  if isBuild o then MakeErrorWithNote ("Invalid build flag: " +:+ Quote arg) note
  else MakeErrorWithNote ("Invalid transform flag: " +:+ Quote arg) note.

(** [if value, err := parseBoolFlag(arg, true); err != nil { return ..., err }
    else { ... value ... }] *)
Definition withBool (arg : string) (k : bool -> ParseState) : ParseState + ErrorWithNote :=
  match parseBoolFlag arg true with
  | inr err => inr err
  | inl value => inl (k value)
  end.

(** [value := arg[len(flag):]] under [strings.HasPrefix(arg, flag)] *)
Definition after (flag arg : string) : string :=
  sliceFrom (String.length flag) arg.

(** A flag [--name:key=value]: [equals := strings.IndexByte(value, '=')],
    the error when it is [-1], otherwise [value[:equals]] and
    [value[equals+1:]]. *)
Definition withKeyValue (value arg note : string)
    (k : string -> string -> ParseState + ErrorWithNote) : ParseState + ErrorWithNote :=
  match strings.IndexByte value "=" with
  | None => inr (missingEquals arg note)
  | Some equals => k (sliceTo equals value) (sliceFrom (equals + 1) value)
  end.

(** One iteration of [for _, arg := range osArgs] in [parseOptionsImpl]:
    the [switch], its cases in the order of the source. An error is the
    [return parseOptionsExtras{}, err] of the case. *)
Definition parseArg (kind : parseOptionsKind) (arg : string) (st : ParseState)
    : ParseState + ErrorWithNote :=
  let o := st.(options) in
  if isBoolFlag arg "--bundle" && isBuild o then
    withBool arg (fun value =>
      setOptions (assignBuild (BuildOptions.set_Bundle value)) st)

  else if isBoolFlag arg "--preserve-symlinks" && isBuild o then
    withBool arg (fun value =>
      setOptions (assignBuild (BuildOptions.set_PreserveSymlinks value)) st)

  else if isBoolFlag arg "--splitting" && isBuild o then
    withBool arg (fun value =>
      setOptions (assignBuild (BuildOptions.set_Splitting value)) st)

  else if isBoolFlag arg "--allow-overwrite" && isBuild o then
    withBool arg (fun value =>
      setOptions (assignBuild (BuildOptions.set_AllowOverwrite value)) st)

  else if isBoolFlag arg "--watch" && isBuild o then
    withBool arg (fun value => setExtras (set_watch value) st)

  else if strings.HasPrefix arg "--watch-delay=" && isBuild o then
    let value := after "--watch-delay=" arg in
    match strconv.Atoi intSize value with
    | inr _ => inr (invalidValue value arg "The watch delay must be an integer.")
    | inl delay => inl (setExtras (set_watchDelay delay) st)
    end

  else if isBoolFlag arg "--minify" then
    withBool arg (fun value =>
      setOptions (assign
        (fun b => BuildOptions.set_MinifyIdentifiers value
                    (BuildOptions.set_MinifyWhitespace value
                       (BuildOptions.set_MinifySyntax value b)))
        (fun t => TransformOptions.set_MinifyIdentifiers value
                    (TransformOptions.set_MinifyWhitespace value
                       (TransformOptions.set_MinifySyntax value t)))) st)

  else if isBoolFlag arg "--minify-syntax" then
    withBool arg (fun value =>
      setOptions (assign (BuildOptions.set_MinifySyntax value)
                         (TransformOptions.set_MinifySyntax value)) st)

  else if isBoolFlag arg "--minify-whitespace" then
    withBool arg (fun value =>
      setOptions (assign (BuildOptions.set_MinifyWhitespace value)
                         (TransformOptions.set_MinifyWhitespace value)) st)

  else if isBoolFlag arg "--minify-identifiers" then
    withBool arg (fun value =>
      setOptions (assign (BuildOptions.set_MinifyIdentifiers value)
                         (TransformOptions.set_MinifyIdentifiers value)) st)

  else if isBoolFlag arg "--mangle-quoted" then
    withBool arg (fun value =>
      let mangleQuoted := if value then api.MangleQuotedTrue else api.MangleQuotedFalse in
      setOptions (assign (BuildOptions.set_MangleQuoted mangleQuoted)
                         (TransformOptions.set_MangleQuoted mangleQuoted)) st)

  else if strings.HasPrefix arg "--mangle-props=" then
    let value := after "--mangle-props=" arg in
    inl (setOptions (assign (BuildOptions.set_MangleProps value)
                            (TransformOptions.set_MangleProps value)) st)

  else if strings.HasPrefix arg "--reserve-props=" then
    let value := after "--reserve-props=" arg in
    inl (setOptions (assign (BuildOptions.set_ReserveProps value)
                            (TransformOptions.set_ReserveProps value)) st)

  else if strings.HasPrefix arg "--mangle-cache=" && isBuild o && isInternal kind then
    let value := after "--mangle-cache=" arg in
    inl (setExtras (set_mangleCache (Some value)) st)

  else if strings.HasPrefix arg "--drop:" then
    let value := after "--drop:" arg in
    if String.eqb value "console" then
      inl (setOptions (assign
        (fun b => BuildOptions.set_Drop (Z.lor b.(BuildOptions.Drop) api.DropConsole) b)
        (fun t => TransformOptions.set_Drop
                    (Z.lor t.(TransformOptions.Drop) api.DropConsole) t)) st)
    else if String.eqb value "debugger" then
      inl (setOptions (assign
        (fun b => BuildOptions.set_Drop (Z.lor b.(BuildOptions.Drop) api.DropDebugger) b)
        (fun t => TransformOptions.set_Drop
                    (Z.lor t.(TransformOptions.Drop) api.DropDebugger) t)) st)
    else
      inr (invalidValue value arg
             ("Valid values are " +:+ quoted "console" +:+ " or "
              +:+ quoted "debugger" +:+ "."))

  else if strings.HasPrefix arg "--drop-labels=" then
    let labels := splitWithEmptyCheck (after "--drop-labels=" arg) "," in
    inl (setOptions (assign (BuildOptions.set_DropLabels labels)
                            (TransformOptions.set_DropLabels labels)) st)

  else if strings.HasPrefix arg "--legal-comments=" then
    let value := after "--legal-comments=" arg in
    let set legalComments :=
      inl (setOptions (assign (BuildOptions.set_LegalComments legalComments)
                              (TransformOptions.set_LegalComments legalComments)) st) in
    if String.eqb value "none" then set api.LegalCommentsNone
    else if String.eqb value "inline" then set api.LegalCommentsInline
    else if String.eqb value "eof" then set api.LegalCommentsEndOfFile
    else if String.eqb value "linked" then set api.LegalCommentsLinked
    else if String.eqb value "external" then set api.LegalCommentsExternal
    else
      inr (invalidValue value arg
             ("Valid values are " +:+ quoted "none" +:+ ", " +:+ quoted "inline"
              +:+ ", " +:+ quoted "eof" +:+ ", " +:+ quoted "linked" +:+ ", or "
              +:+ quoted "external" +:+ "."))

  else if strings.HasPrefix arg "--charset=" then
    let name := after "--charset=" arg in
    let set value :=
      inl (setOptions (assign (BuildOptions.set_Charset value)
                              (TransformOptions.set_Charset value)) st) in
    if String.eqb name "ascii" then set api.CharsetASCII
    else if String.eqb name "utf8" then set api.CharsetUTF8
    else
      inr (invalidValue name arg
             ("Valid values are " +:+ quoted "ascii" +:+ " or " +:+ quoted "utf8" +:+ "."))

  else if isBoolFlag arg "--tree-shaking" then
    withBool arg (fun value =>
      let treeShaking := if value then api.TreeShakingTrue else api.TreeShakingFalse in
      setOptions (assign (BuildOptions.set_TreeShaking treeShaking)
                         (TransformOptions.set_TreeShaking treeShaking)) st)

  else if isBoolFlag arg "--ignore-annotations" then
    withBool arg (fun value =>
      setOptions (assign (BuildOptions.set_IgnoreAnnotations value)
                         (TransformOptions.set_IgnoreAnnotations value)) st)

  else if isBoolFlag arg "--keep-names" then
    withBool arg (fun value =>
      setOptions (assign (BuildOptions.set_KeepNames value)
                         (TransformOptions.set_KeepNames value)) st)

  else if String.eqb arg "--sourcemap" then
    inl (setBare true
           (setOptions (assign (BuildOptions.set_Sourcemap api.SourceMapLinked)
                               (TransformOptions.set_Sourcemap api.SourceMapInline)) st))

  else if strings.HasPrefix arg "--sourcemap=" then
    let value := after "--sourcemap=" arg in
    let set sourcemap :=
      inl (setBare false
             (setOptions (assign (BuildOptions.set_Sourcemap sourcemap)
                                 (TransformOptions.set_Sourcemap sourcemap)) st)) in
    if String.eqb value "linked" then set api.SourceMapLinked
    else if String.eqb value "inline" then set api.SourceMapInline
    else if String.eqb value "external" then set api.SourceMapExternal
    else if String.eqb value "both" then set api.SourceMapInlineAndExternal
    else
      inr (invalidValue value arg
             ("Valid values are " +:+ quoted "linked" +:+ ", " +:+ quoted "inline"
              +:+ ", " +:+ quoted "external" +:+ ", or " +:+ quoted "both" +:+ "."))

  else if strings.HasPrefix arg "--source-root=" then
    let sourceRoot := after "--source-root=" arg in
    inl (setOptions (assign (BuildOptions.set_SourceRoot sourceRoot)
                            (TransformOptions.set_SourceRoot sourceRoot)) st)

  else if isBoolFlag arg "--sources-content" then
    withBool arg (fun value =>
      let sourcesContent :=
        if value then api.SourcesContentInclude else api.SourcesContentExclude in
      setOptions (assign (BuildOptions.set_SourcesContent sourcesContent)
                         (TransformOptions.set_SourcesContent sourcesContent)) st)

  else if strings.HasPrefix arg "--sourcefile=" then
    let value := after "--sourcefile=" arg in
    inl (setOptions (assign
      (fun b => BuildOptions.set_Stdin
                  (Some (StdinOptions.set_Sourcefile value (stdinOrNew b))) b)
      (TransformOptions.set_Sourcefile value)) st)

  else if strings.HasPrefix arg "--resolve-extensions=" && isBuild o then
    inl (setOptions (assignBuild (BuildOptions.set_ResolveExtensions
           (splitWithEmptyCheck (after "--resolve-extensions=" arg) ","))) st)

  else if strings.HasPrefix arg "--main-fields=" && isBuild o then
    inl (setOptions (assignBuild (BuildOptions.set_MainFields
           (splitWithEmptyCheck (after "--main-fields=" arg) ","))) st)

  else if strings.HasPrefix arg "--conditions=" && isBuild o then
    inl (setOptions (assignBuild (BuildOptions.set_Conditions
           (splitWithEmptyCheck (after "--conditions=" arg) ","))) st)

  else if strings.HasPrefix arg "--public-path=" && isBuild o then
    inl (setOptions (assignBuild (BuildOptions.set_PublicPath
           (after "--public-path=" arg))) st)

  else if strings.HasPrefix arg "--global-name=" then
    let value := after "--global-name=" arg in
    inl (setOptions (assign (BuildOptions.set_GlobalName value)
                            (TransformOptions.set_GlobalName value)) st)

  else if String.eqb arg "--metafile" && isBuild o && isExternal kind then
    inl (setOptions (assignBuild (BuildOptions.set_Metafile true)) st)

  else if strings.HasPrefix arg "--metafile=" && isBuild o && isInternal kind then
    let value := after "--metafile=" arg in
    inl (setExtras (set_metafile (Some value))
           (setOptions (assignBuild (BuildOptions.set_Metafile true)) st))

  else if strings.HasPrefix arg "--outfile=" && isBuild o then
    inl (setOptions (assignBuild (BuildOptions.set_Outfile (after "--outfile=" arg))) st)

  else if strings.HasPrefix arg "--outdir=" && isBuild o then
    inl (setOptions (assignBuild (BuildOptions.set_Outdir (after "--outdir=" arg))) st)

  else if strings.HasPrefix arg "--outbase=" && isBuild o then
    inl (setOptions (assignBuild (BuildOptions.set_Outbase (after "--outbase=" arg))) st)

  else if strings.HasPrefix arg "--tsconfig=" && isBuild o then
    inl (setOptions (assignBuild (BuildOptions.set_Tsconfig (after "--tsconfig=" arg))) st)

  else if strings.HasPrefix arg "--tsconfig-raw=" then
    let value := after "--tsconfig-raw=" arg in
    inl (setOptions (assign (BuildOptions.set_TsconfigRaw value)
                            (TransformOptions.set_TsconfigRaw value)) st)

  else if strings.HasPrefix arg "--entry-names=" && isBuild o then
    inl (setOptions (assignBuild (BuildOptions.set_EntryNames
           (after "--entry-names=" arg))) st)

  else if strings.HasPrefix arg "--chunk-names=" && isBuild o then
    inl (setOptions (assignBuild (BuildOptions.set_ChunkNames
           (after "--chunk-names=" arg))) st)

  else if strings.HasPrefix arg "--asset-names=" && isBuild o then
    inl (setOptions (assignBuild (BuildOptions.set_AssetNames
           (after "--asset-names=" arg))) st)

  else if strings.HasPrefix arg "--define:" then
    withKeyValue (after "--define:" arg) arg
      ("You need to use " +:+ quoted "=" +:+ " to specify both the original value and the replacement value. "
       +:+ "For example, " +:+ quoted "--define:DEBUG=true" +:+ " replaces "
       +:+ quoted "DEBUG" +:+ " with " +:+ quoted "true" +:+ ".")
      (fun key value =>
         inl (setOptions (assign
           (fun b => BuildOptions.set_Define (<[key := value]> b.(BuildOptions.Define)) b)
           (fun t => TransformOptions.set_Define
                       (<[key := value]> t.(TransformOptions.Define)) t)) st))

  else if strings.HasPrefix arg "--log-override:" then
    withKeyValue (after "--log-override:" arg) arg
      ("You need to use " +:+ quoted "=" +:+ " to specify both the message name and the log level. "
       +:+ "For example, " +:+ quoted "--log-override:css-syntax-error=error"
       +:+ " turns all " +:+ quoted "css-syntax-error" +:+ " log messages into errors.")
      (fun key value =>
         match parseLogLevel value arg with
         | inr err => inr err
         | inl logLevel =>
             inl (setOptions (assign
               (fun b => BuildOptions.set_LogOverride
                           (<[key := logLevel]> b.(BuildOptions.LogOverride)) b)
               (fun t => TransformOptions.set_LogOverride
                           (<[key := logLevel]> t.(TransformOptions.LogOverride)) t)) st)
         end)

  else if strings.HasPrefix arg "--abs-paths=" then
    let values := splitWithEmptyCheck (after "--abs-paths=" arg) "," in
    match parseAbsPaths values arg 0 with
    | inr err => inr err
    | inl absPaths =>
        inl (setOptions (assign (BuildOptions.set_AbsPaths absPaths)
                                (TransformOptions.set_AbsPaths absPaths)) st)
    end

  else if strings.HasPrefix arg "--supported:" then
    withKeyValue (after "--supported:" arg) arg
      ("You need to use " +:+ quoted "=" +:+ " to specify both the name of the feature and whether it is supported or not. "
       +:+ "For example, " +:+ quoted "--supported:arrow=false"
       +:+ " marks arrow functions as unsupported.")
      (fun key _ =>
         withBool arg (fun isSupported =>
           setOptions (assign
             (fun b => BuildOptions.set_Supported
                         (<[key := isSupported]> b.(BuildOptions.Supported)) b)
             (fun t => TransformOptions.set_Supported
                         (<[key := isSupported]> t.(TransformOptions.Supported)) t)) st))

  else if strings.HasPrefix arg "--pure:" then
    let value := after "--pure:" arg in
    inl (setOptions (assign
      (fun b => BuildOptions.set_Pure (b.(BuildOptions.Pure) ++ [value]) b)
      (fun t => TransformOptions.set_Pure (t.(TransformOptions.Pure) ++ [value]) t)) st)

  else if strings.HasPrefix arg "--loader:" && isBuild o then
    withKeyValue (after "--loader:" arg) arg
      ("You need to specify the file extension that the loader applies to. "
       +:+ "For example, " +:+ quoted "--loader:.js=jsx" +:+ " applies the "
       +:+ quoted "jsx" +:+ " loader to files with the " +:+ quoted ".js"
       +:+ " extension.")
      (fun ext text =>
         match ParseLoader text with
         | inr err => inr err
         | inl loader =>
             inl (setOptions (assignBuild
               (fun b => BuildOptions.set_Loader
                           (<[ext := loader]> b.(BuildOptions.Loader)) b)) st)
         end)

  else if strings.HasPrefix arg "--loader=" then
    let value := after "--loader=" arg in
    match ParseLoader value with
    | inr err => inr err
    | inl loader =>
        if bool_decide (loader = api.LoaderFile) || bool_decide (loader = api.LoaderCopy) then
          inr (MakeErrorWithNote
                 (Quote arg +:+ " is not supported when transforming stdin")
                 ("Using esbuild to transform stdin only generates one output file, so you cannot use the "
                  +:+ Quote value +:+ " loader "
                  +:+ "since that needs to generate two output files."))
        else
          inl (setOptions (assign
            (fun b => BuildOptions.set_Stdin
                        (Some (StdinOptions.set_Loader loader (stdinOrNew b))) b)
            (TransformOptions.set_Loader loader)) st)
    end

  else if strings.HasPrefix arg "--target=" then
    match parseTargets (splitWithEmptyCheck (after "--target=" arg) ",") arg
            st.(ranges) with
    | inr err => inr err
    | inl (target, engines, n) =>
        inl (setRanges n
               (setOptions (assign
                  (fun b => BuildOptions.set_Engines engines
                              (BuildOptions.set_Target target b))
                  (fun t => TransformOptions.set_Engines engines
                              (TransformOptions.set_Target target t))) st))
    end

  else if strings.HasPrefix arg "--out-extension:" && isBuild o then
    withKeyValue (after "--out-extension:" arg) arg
      ("You need to use either " +:+ quoted "--out-extension:.js=..." +:+ " or "
       +:+ quoted "--out-extension:.css=..." +:+ " "
       +:+ "to specify the file type that the output extension applies to .")
      (fun key value =>
         inl (setOptions (assignBuild
           (fun b => BuildOptions.set_OutExtension
                       (<[key := value]> b.(BuildOptions.OutExtension)) b)) st))

  else if strings.HasPrefix arg "--platform=" then
    let value := after "--platform=" arg in
    let set platform :=
      inl (setOptions (assign (BuildOptions.set_Platform platform)
                              (TransformOptions.set_Platform platform)) st) in
    if String.eqb value "browser" then set api.PlatformBrowser
    else if String.eqb value "node" then set api.PlatformNode
    else if String.eqb value "neutral" then set api.PlatformNeutral
    else
      inr (invalidValue value arg
             ("Valid values are " +:+ quoted "browser" +:+ ", " +:+ quoted "node"
              +:+ ", or " +:+ quoted "neutral" +:+ "."))

  else if strings.HasPrefix arg "--format=" then
    let value := after "--format=" arg in
    let set format :=
      inl (setOptions (assign (BuildOptions.set_Format format)
                              (TransformOptions.set_Format format)) st) in
    if String.eqb value "iife" then set api.FormatIIFE
    else if String.eqb value "cjs" then set api.FormatCommonJS
    else if String.eqb value "esm" then set api.FormatESModule
    else
      inr (invalidValue value arg
             ("Valid values are " +:+ quoted "iife" +:+ ", " +:+ quoted "cjs"
              +:+ ", or " +:+ quoted "esm" +:+ "."))

  else if strings.HasPrefix arg "--packages=" && isBuild o then
    let value := after "--packages=" arg in
    let set packages :=
      inl (setOptions (assignBuild (BuildOptions.set_Packages packages)) st) in
    if String.eqb value "bundle" then set api.PackagesBundle
    else if String.eqb value "external" then set api.PackagesExternal
    else
      inr (invalidValue value arg
             ("Valid values are " +:+ quoted "bundle" +:+ " or "
              +:+ quoted "external" +:+ "."))

  else if strings.HasPrefix arg "--external:" && isBuild o then
    inl (setOptions (assignBuild
      (fun b => BuildOptions.set_External
                  (b.(BuildOptions.External) ++ [after "--external:" arg]) b)) st)

  else if strings.HasPrefix arg "--inject:" && isBuild o then
    inl (setOptions (assignBuild
      (fun b => BuildOptions.set_Inject
                  (b.(BuildOptions.Inject) ++ [after "--inject:" arg]) b)) st)

  else if strings.HasPrefix arg "--alias:" && isBuild o then
    withKeyValue (after "--alias:" arg) arg
      ("You need to use " +:+ quoted "=" +:+ " to specify both the original package name and the replacement package name. "
       +:+ "For example, " +:+ quoted "--alias:old=new" +:+ " replaces package "
       +:+ quoted "old" +:+ " with package " +:+ quoted "new" +:+ ".")
      (fun key value =>
         inl (setOptions (assignBuild
           (fun b => BuildOptions.set_Alias
                       (<[key := value]> b.(BuildOptions.Alias)) b)) st))

  else if strings.HasPrefix arg "--jsx=" then
    let value := after "--jsx=" arg in
    let set mode :=
      inl (setOptions (assign (BuildOptions.set_JSX mode)
                              (TransformOptions.set_JSX mode)) st) in
    if String.eqb value "transform" then set api.JSXTransform
    else if String.eqb value "preserve" then set api.JSXPreserve
    else if String.eqb value "automatic" then set api.JSXAutomatic
    else
      inr (invalidValue value arg
             ("Valid values are " +:+ quoted "transform" +:+ ", "
              +:+ quoted "automatic" +:+ ", or " +:+ quoted "preserve" +:+ "."))

  else if strings.HasPrefix arg "--jsx-factory=" then
    let value := after "--jsx-factory=" arg in
    inl (setOptions (assign (BuildOptions.set_JSXFactory value)
                            (TransformOptions.set_JSXFactory value)) st)

  else if strings.HasPrefix arg "--jsx-fragment=" then
    let value := after "--jsx-fragment=" arg in
    inl (setOptions (assign (BuildOptions.set_JSXFragment value)
                            (TransformOptions.set_JSXFragment value)) st)

  else if strings.HasPrefix arg "--jsx-import-source=" then
    let value := after "--jsx-import-source=" arg in
    inl (setOptions (assign (BuildOptions.set_JSXImportSource value)
                            (TransformOptions.set_JSXImportSource value)) st)

  else if isBoolFlag arg "--jsx-dev" then
    withBool arg (fun value =>
      setOptions (assign (BuildOptions.set_JSXDev value)
                         (TransformOptions.set_JSXDev value)) st)

  else if isBoolFlag arg "--jsx-side-effects" then
    withBool arg (fun value =>
      setOptions (assign (BuildOptions.set_JSXSideEffects value)
                         (TransformOptions.set_JSXSideEffects value)) st)

  else if strings.HasPrefix arg "--banner=" && isTransform o then
    inl (setOptions (assignTransform
           (TransformOptions.set_Banner (after "--banner=" arg))) st)

  else if strings.HasPrefix arg "--footer=" && isTransform o then
    inl (setOptions (assignTransform
           (TransformOptions.set_Footer (after "--footer=" arg))) st)

  else if strings.HasPrefix arg "--banner:" && isBuild o then
    withKeyValue (after "--banner:" arg) arg
      ("You need to use either " +:+ quoted "--banner:js=..." +:+ " or "
       +:+ quoted "--banner:css=..."
       +:+ " to specify the language that the banner applies to.")
      (fun key value =>
         inl (setOptions (assignBuild
           (fun b => BuildOptions.set_Banner
                       (<[key := value]> b.(BuildOptions.Banner)) b)) st))

  else if strings.HasPrefix arg "--footer:" && isBuild o then
    withKeyValue (after "--footer:" arg) arg
      ("You need to use either " +:+ quoted "--footer:js=..." +:+ " or "
       +:+ quoted "--footer:css=..."
       +:+ " to specify the language that the footer applies to.")
      (fun key value =>
         inl (setOptions (assignBuild
           (fun b => BuildOptions.set_Footer
                       (<[key := value]> b.(BuildOptions.Footer)) b)) st))

  else if strings.HasPrefix arg "--log-limit=" then
    let value := after "--log-limit=" arg in
    match strconv.Atoi intSize value with
    | inl limit =>
        if (limit <? 0)%Z then
          inr (invalidValue value arg "The log limit must be a non-negative integer.")
        else
          inl (setOptions (assign (BuildOptions.set_LogLimit limit)
                                  (TransformOptions.set_LogLimit limit)) st)
    | inr _ =>
        inr (invalidValue value arg "The log limit must be a non-negative integer.")
    end

  else if strings.HasPrefix arg "--line-limit=" then
    let value := after "--line-limit=" arg in
    match strconv.Atoi intSize value with
    | inl limit =>
        if (limit <? 0)%Z then
          inr (invalidValue value arg "The line limit must be a non-negative integer.")
        else
          inl (setOptions (assign (BuildOptions.set_LineLimit limit)
                                  (TransformOptions.set_LineLimit limit)) st)
    | inr _ =>
        inr (invalidValue value arg "The line limit must be a non-negative integer.")
    end

  else if isBoolFlag arg "--color" then
    withBool arg (fun value =>
      let color := if value then api.ColorAlways else api.ColorNever in
      setOptions (assign (BuildOptions.set_Color color)
                         (TransformOptions.set_Color color)) st)

  else if strings.HasPrefix arg "--log-level=" then
    let value := after "--log-level=" arg in
    match parseLogLevel value arg with
    | inr err => inr err
    | inl logLevel =>
        inl (setOptions (assign (BuildOptions.set_LogLevel logLevel)
                                (TransformOptions.set_LogLevel logLevel)) st)
    end

  else if strings.HasPrefix arg "'--" then
    inr (MakeErrorWithNote
           ("Unexpected single quote character before flag: " +:+ arg)
           ("This typically happens when attempting to use single quotes to quote arguments with a shell that doesn't recognize single quotes. "
            +:+ "Try using double quote characters to quote arguments instead."))

  else if negb (strings.HasPrefix arg "-") && isBuild o then
    match strings.IndexByte arg "=" with
    | Some equals =>
        inl (setOptions (assignBuild
          (fun b => BuildOptions.set_EntryPointsAdvanced
                      (b.(BuildOptions.EntryPointsAdvanced)
                         ++ [{| api.OutputPath := sliceTo equals arg;
                                api.InputPath := sliceFrom (equals + 1) arg |}]) b)) st)
    | None =>
        inl (setOptions (assignBuild
          (fun b => BuildOptions.set_EntryPoints
                      (b.(BuildOptions.EntryPoints) ++ [arg]) b)) st)
    end

  else inr (invalidFlag arg o).

(** [for _, arg := range osArgs { switch ... }]: the state after the last
    argument, or the state before the argument whose case returned an
    error, with that error. *)
Fixpoint parseArgs (kind : parseOptionsKind) (osArgs : list string) (st : ParseState)
    : ParseState * option ErrorWithNote :=
  match osArgs with
  | [] => (st, None)
  | arg :: rest =>
      match parseArg kind arg st with
      | inl st' => parseArgs kind rest st'
      | inr err => (st, Some err)
      end
  end.

(** The statement after the loop: if we are building, the last source map
    flag is [--sourcemap], and there is no output path, the source map
    option becomes [inline]. *)
Definition bareSourceMapFallback (st : ParseState) : Options :=
  match st.(options) with
  | BuildOpts b =>
      if st.(hasBareSourceMapFlag)
         && String.eqb b.(BuildOptions.Outfile) ""
         && String.eqb b.(BuildOptions.Outdir) ""
      then BuildOpts (BuildOptions.set_Sourcemap api.SourceMapInline b)
      else BuildOpts b
  | TransformOpts t => TransformOpts t
  end.

(** [parseOptionsImpl(osArgs, buildOpts, transformOpts, kind)]: the
    options behind the pointer when the function returns, and its two
    results. *)
Definition parseOptionsImpl (osArgs : list string) (o : Options) (kind : parseOptionsKind)
    : Options * parseOptionsExtras * option ErrorWithNote :=
  match parseArgs kind osArgs (mkState o noExtras false 0) with
  | (st, Some err) => (st.(options), noExtras, Some err)
  | (st, None) => (bareSourceMapFallback st, st.(extras), None)
  end.

(** [newBuildOptions()] and [newTransformOptions()]: the zero values with
    their maps allocated, that is, empty. *)
Definition newBuildOptions : BuildOptions.t := BuildOptions.zero.

Definition newTransformOptions : TransformOptions.t := TransformOptions.zero.

(** The results of [parseOptionsForRun]: [*api.BuildOptions],
    [*api.TransformOptions], the extras and the error. *)
Definition RunOptions : Type :=
  option BuildOptions.t * option TransformOptions.t * parseOptionsExtras
  * option ErrorWithNote.

(** [parseOptionsForRun(osArgs)]. The first loop returns from its first
    iteration whose argument is for a build, with a result that does not
    depend on that argument. *)
Definition parseOptionsForRun (osArgs : list string) : RunOptions :=
  if existsb isArgForBuild osArgs then
    (* If there's an entry point or we're bundling, then we're building *)
    let options :=
      BuildOptions.set_Write true
        (BuildOptions.set_LogLevel api.LogLevelInfo
           (BuildOptions.set_LogLimit 6 newBuildOptions)) in
    match parseOptionsImpl osArgs (BuildOpts options) kindInternal with
    | (_, _, Some err) => (None, None, noExtras, Some err)
    | (BuildOpts options, extras, None) => (Some options, None, extras, None)
    | (TransformOpts _, _, None) => (None, None, noExtras, None)
    end
  else
    (* Otherwise, we're transforming *)
    let options :=
      TransformOptions.set_LogLevel api.LogLevelInfo
        (TransformOptions.set_LogLimit 6 newTransformOptions) in
    match parseOptionsImpl osArgs (TransformOpts options) kindInternal with
    | (_, _, Some err) => (None, None, noExtras, Some err)
    | (TransformOpts options, _, None) =>
        let tooManyFiles sourceMapMode :=
          (None, None, noExtras,
           Some (MakeErrorWithNote
             ("Use " +:+ quoted "--sourcemap" +:+ " instead of " +:+ dquote
              +:+ "--sourcemap=" +:+ sourceMapMode +:+ dquote
              +:+ " when transforming stdin")
             ("Using esbuild to transform stdin only generates one output file. You cannot use the "
              +:+ Quote sourceMapMode +:+ " source map mode "
              +:+ "since that needs to generate two output files."))) in
        match options.(TransformOptions.Sourcemap) with
        | api.SourceMapNone | api.SourceMapInline => (None, Some options, noExtras, None)
        | api.SourceMapExternal => tooManyFiles "external"
        | api.SourceMapInlineAndExternal => tooManyFiles "both"
        | api.SourceMapLinked => tooManyFiles "linked"
        end
    | (BuildOpts _, _, None) => (None, None, noExtras, None)
    end.

Inductive analyzeMode : Type :=
| analyzeDisabled
| analyzeEnabled
| analyzeVerbose.

(** The inner loop of [filterAnalyzeFlags]: the arguments kept, in order
    (the source writes them over the start of [osArgs]), and the mode. *)
Fixpoint filterAnalyzeLoop (osArgs : list string) (analyze : analyzeMode)
    : list string * analyzeMode :=
  match osArgs with
  | [] => ([], analyze)
  | arg :: rest =>
      if String.eqb arg "--analyze" then filterAnalyzeLoop rest analyzeEnabled
      else if String.eqb arg "--analyze=verbose" then filterAnalyzeLoop rest analyzeVerbose
      else let '(kept, analyze') := filterAnalyzeLoop rest analyze in
           (arg :: kept, analyze')
  end.

Definition filterAnalyzeFlags (osArgs : list string) : list string * analyzeMode :=
  if existsb isArgForBuild osArgs then filterAnalyzeLoop osArgs analyzeDisabled
  else (osArgs, analyzeDisabled).

(** ** The run driver *)

(** [fs.FS], by the two methods the driver calls. *)
Record FS : Type := {
  Abs : string -> option string;   (* [(string, bool)]: [None] is [!ok] *)
  Dir : string -> string;
}.

(** What the driver asks the operating system and the rest of esbuild;
    an error is its text ([err.Error()]):
    - [LookupEnv], [os.LookupEnv("NODE_PATH")];
    - [CheckIfWindows], [fs.CheckIfWindows()];
    - [ReadStdin], [ioutil.ReadAll(os.Stdin)];
    - [Getwd], [os.Getwd()];
    - [RealFS], [fs.RealFS] of a working directory;
    - [fsMkdirAll] and [ioWriteFile], [fs.MkdirAll] and [ioutil.WriteFile],
      [None] when they succeed;
    - [parseMangleCache] and [printMangleCache] of package [cli];
    - [ContextFails], whether [api.Context] rejects the options. *)
Variable LookupEnv : option string.
Variable CheckIfWindows : bool.
Variable ReadStdin : string + string.
Variable Getwd : string.
Variable RealFS : string -> FS + string.
Variable fsMkdirAll : FS -> string -> option string.
Variable ioWriteFile : string -> string -> option string.
Variable parseMangleCache : list string -> FS -> string -> option MangleCacheMap * list string.
Variable printMangleCache : MangleCacheMap -> list string -> bool -> string.
Variable ContextFails : BuildOptions.t -> bool.

(** One callback after another; a panic ends the sequence. *)
Definition andThen (first second : Outcome) : Outcome :=
  match first with
  | Panics calls text => Panics calls text
  | Returns calls =>
      match second with
      | Returns calls' => Returns (calls ++ calls')
      | Panics calls' text => Panics (calls ++ calls') text
      end
  end.

(** The part shared by the two writers after their guards: create the
    directory, then write the file, reporting what fails. *)
Definition writeOutput (realFS : FS) (absDir absPath data : string) : list Effect :=
  match fsMkdirAll realFS absDir with
  | Some e =>
      [ BeforeFileOpen; MkdirAll absDir;
        PrintErrorToStderr ("Failed to create output directory: " +:+ e);
        AfterFileClose ]
  | None =>
      match ioWriteFile absPath data with
      | Some e =>
          [ BeforeFileOpen; MkdirAll absDir; WriteFile absPath data;
            PrintErrorToStderr ("Failed to write to output file: " +:+ e);
            AfterFileClose ]
      | None =>
          [ BeforeFileOpen; MkdirAll absDir; WriteFile absPath data; AfterFileClose ]
      end
  end.

(** The closure [writeMetafile] of [runImpl], with the variables it
    captures: [err] of [parseOptionsForRun], [realFS] and [realFSErr] as
    one value, and the two paths. *)
Definition writeMetafile (err : option ErrorWithNote) (realFS : FS + string)
    (metafileAbsPath metafileAbsDir : string) (json : string) : Outcome :=
  match realFS with
  | inr _ => Returns []
  | inl realFS =>
      if String.eqb json "" then
        Returns [] (* Don't write out the metafile on build errors *)
      else
        match err with
        | Some err => Panics [] err.(Text) (* This should already have been checked above *)
        | None => Returns (writeOutput realFS metafileAbsDir metafileAbsPath json)
        end
  end.

(** The closure [writeMangleCache] of [runImpl], with the variables it
    captures; [asciiOnly] is [buildOptions.Charset == api.CharsetASCII]. *)
Definition writeMangleCache (err : option ErrorWithNote) (realFS : FS + string)
    (mangleCacheAbsPath mangleCacheAbsDir : string) (mangleCacheOrder : list string)
    (asciiOnly : bool) (mangleCache : option MangleCacheMap) : Outcome :=
  match realFS, mangleCache with
  | inl realFS, Some mangleCache =>
      match err with
      | Some err => Panics [] err.(Text) (* This should already have been checked above *)
      | None =>
          let bytes := printMangleCache mangleCache mangleCacheOrder asciiOnly in
          Returns (writeOutput realFS mangleCacheAbsDir mangleCacheAbsPath bytes)
      end
  | _, _ => Returns []
  end.

(** A closure variable that is [nil] is not called. *)
Definition callIfSet {A : Type} (f : option (A -> Outcome)) (x : A) : Outcome :=
  match f with
  | Some f => f x
  | None => Returns []
  end.

(** The plugin [PostBuildActions]: write the metafile, then the mangle
    cache. *)
Definition postBuildActions (writeMetafile : option (string -> Outcome))
    (writeMangleCache : option (option MangleCacheMap -> Outcome)) : Plugin.t :=
  Plugin.mk "PostBuildActions" (fun result =>
    andThen (callIfSet writeMetafile result.(BuildResult.Metafile))
            (callIfSet writeMangleCache result.(BuildResult.MangleCache))).

(** [addAnalyzePlugin]: the plugin prints the analysis of a metafile that
    is not empty; the options always ask for a metafile. *)
Definition addAnalyzePlugin (buildOptions : BuildOptions.t) (analyze : analyzeMode)
    : BuildOptions.t :=
  let plugin :=
    Plugin.mk "PrintAnalysis" (fun result =>
      if negb (String.eqb result.(BuildResult.Metafile) "") then
        Returns [PrintAnalysis result.(BuildResult.Metafile)
                   (match analyze with analyzeVerbose => true | _ => false end)]
      else Returns []) in
  BuildOptions.set_Metafile true
    (BuildOptions.set_Plugins (buildOptions.(BuildOptions.Plugins) ++ [plugin])
       buildOptions).

(** [logger.PrintErrorToStderr(osArgs, text)] prints an error without a
    note. *)
Definition errorText (text : string) : ErrorWithNote := MakeErrorWithNote text "".

(** How [runImpl] ends. *)
Inductive Run : Type :=
| Served
    (* [serveImpl(osArgs)] came back: exit code 1 *)
| Exits (code : Z) (stderr : list ErrorWithNote)
    (* an exit code, after these messages on stderr *)
| Watches (buildOptions : BuildOptions.t) (delay : Z)
    (* [ctx.Watch] with these options; the process does not exit *)
| Builds (buildOptions : BuildOptions.t)
    (* [api.Build] on these options; exit code 1 if the result has errors *)
| Transforms (input : string) (transformOptions : TransformOptions.t).
    (* [api.Transform]; exit code 1 if the result has errors *)

Definition isServeFlag (arg : string) : bool :=
  String.eqb arg "--serve"
  || strings.HasPrefix arg "--serve="
  || strings.HasPrefix arg "--servedir="
  || strings.HasPrefix arg "--serve-fallback=".

(** [runImpl], the block [if extras.metafile != nil]: validate the
    metafile path ahead of time and build the closure [writeMetafile],
    or return an exit code. [err] is the error of [parseOptionsForRun]. *)
Definition metafileWriter (buildOptions : BuildOptions.t) (extras : parseOptionsExtras)
    (err : option ErrorWithNote) : option (string -> Outcome) + Run :=
  match extras.(metafile) with
  | None => inl None
  | Some path =>
      if String.eqb buildOptions.(BuildOptions.Outfile) ""
         && String.eqb buildOptions.(BuildOptions.Outdir) ""
      then
        (* Cannot use "metafile" when writing to stdout *)
        inr (Exits 1 [errorText ("Cannot use " +:+ quoted "metafile" +:+ " without an output path")])
      else
        let realFS := RealFS buildOptions.(BuildOptions.AbsWorkingDir) in
        match realFS with
        | inl fs =>
            match fs.(Abs) path with
            | None => inr (Exits 1 [errorText ("Invalid metafile path: " +:+ path)])
            | Some absPath =>
                inl (Some (writeMetafile err realFS absPath (fs.(Dir) absPath)))
            end
        | inr _ =>
            (* Don't fail in this case since the error will be reported by "api.Build" *)
            inl (Some (writeMetafile err realFS "" ""))
        end
  end.

(** [runImpl], the block [if extras.mangleCache != nil]: the same for the
    mangle cache, which is also read into the options. *)
Definition mangleCacheWriter (osArgs : list string) (buildOptions : BuildOptions.t)
    (extras : parseOptionsExtras) (err : option ErrorWithNote)
    : BuildOptions.t * option (option MangleCacheMap -> Outcome) + Run :=
  let asciiOnly (buildOptions : BuildOptions.t) :=
    bool_decide (buildOptions.(BuildOptions.Charset) = api.CharsetASCII) in
  match extras.(mangleCache) with
  | None => inl (buildOptions, None)
  | Some path =>
      let realFS := RealFS buildOptions.(BuildOptions.AbsWorkingDir) in
      match realFS with
      | inl fs =>
          match fs.(Abs) path with
          | None => inr (Exits 1 [errorText ("Invalid mangle cache path: " +:+ path)])
          | Some absPath =>
              match parseMangleCache osArgs fs path with
              | (None, _) => inr (Exits 1 []) (* Stop now if parsing failed *)
              | (Some cache, mangleCacheOrder) =>
                  let buildOptions :=
                    BuildOptions.set_MangleCache (Some cache) buildOptions in
                  inl (buildOptions,
                       Some (writeMangleCache err realFS absPath (fs.(Dir) absPath)
                               mangleCacheOrder (asciiOnly buildOptions)))
              end
          end
      | inr _ =>
          (* Don't fail in this case since the error will be reported by "api.Build" *)
          inl (buildOptions,
               Some (writeMangleCache err realFS "" "" [] (asciiOnly buildOptions)))
      end
  end.

(** [runImpl], the [case buildOptions != nil] once the input is known:
    the two writers, the plugin that calls them, then watch or build. *)
Definition runBuild (osArgs : list string) (buildOptions : BuildOptions.t)
    (extras : parseOptionsExtras) (err : option ErrorWithNote) : Run :=
  match metafileWriter buildOptions extras err with
  | inr exit => exit
  | inl writeMetafile =>
      match mangleCacheWriter osArgs buildOptions extras err with
      | inr exit => exit
      | inl (buildOptions, writeMangleCache) =>
          (* Handle post-build actions with a plugin so they also work in watch mode *)
          let buildOptions :=
            BuildOptions.set_Plugins
              (buildOptions.(BuildOptions.Plugins)
                 ++ [postBuildActions writeMetafile writeMangleCache])
              buildOptions in
          if extras.(watch) then
            (* Only start watching if the build options passed validation *)
            if ContextFails buildOptions then Exits 1 []
            else Watches buildOptions extras.(watchDelay)
          else Builds buildOptions
      end
  end.

(** [runImpl(osArgs, plugins)] *)
Definition runImpl (osArgs : list string) (plugins : list Plugin.t) : Run :=
  (* Special-case running a server *)
  if existsb isServeFlag osArgs then Served
  else
    let '(osArgs, analyze) := filterAnalyzeFlags osArgs in
    let '(buildOptions, transformOptions, extras, err) := parseOptionsForRun osArgs in
    match buildOptions, transformOptions, err with
    | Some buildOptions, _, _ =>
        (* Add any plugins from the caller after parsing the build options *)
        let buildOptions :=
          BuildOptions.set_Plugins (buildOptions.(BuildOptions.Plugins) ++ plugins)
            buildOptions in
        (* The "--analyze" flag is implemented as a plugin *)
        let buildOptions :=
          match analyze with
          | analyzeDisabled => buildOptions
          | _ => addAnalyzePlugin buildOptions analyze
          end in
        (* Read the "NODE_PATH" from the environment *)
        let buildOptions :=
          match LookupEnv with
          | Some value =>
              let separator := if CheckIfWindows then ";"%char else ":"%char in
              BuildOptions.set_NodePaths (splitWithEmptyCheck value separator) buildOptions
          | None => buildOptions
          end in
        (* Read from stdin when there are no entry points *)
        if (length buildOptions.(BuildOptions.EntryPoints)
            + length buildOptions.(BuildOptions.EntryPointsAdvanced) =? 0)%nat
        then
          match ReadStdin with
          | inr e => Exits 1 [errorText ("Could not read from stdin: " +:+ e)]
          | inl bytes =>
              let stdin :=
                StdinOptions.set_ResolveDir Getwd
                  (StdinOptions.set_Contents bytes (stdinOrNew buildOptions)) in
              runBuild osArgs (BuildOptions.set_Stdin (Some stdin) buildOptions) extras err
          end
        else
          match buildOptions.(BuildOptions.Stdin) with
          | Some stdin =>
              if negb (String.eqb stdin.(StdinOptions.Sourcefile) "") then
                Exits 1 [errorText (quoted "sourcefile" +:+ " only applies when reading from stdin")]
              else
                Exits 1 [errorText (quoted "loader"
                         +:+ " without extension only applies when reading from stdin")]
          | None => runBuild osArgs buildOptions extras err
          end
    | None, Some transformOptions, _ =>
        (* Read the input from stdin *)
        match ReadStdin with
        | inr e => Exits 1 [errorText ("Could not read from stdin: " +:+ e)]
        | inl bytes => Transforms bytes transformOptions
        end
    | None, None, Some err => Exits 1 [err]
    | None, None, None => Exits 0 []
    end.

(** ** The options of the development server *)

(** [net.SplitHostPort], the host and the port of [host:port], or the
    text of its error. *)
Variable SplitHostPort : string -> string * string + string.

(** [api.ServeOptions]: the fields that [parseServeOptionsImpl] sets;
    [Origin] is [CORS.Origin]. *)
Record ServeOptions : Type := {
  Port : Z;
  Host : string;
  Servedir : string;
  Keyfile : string;
  Certfile : string;
  Fallback : string;
  Origin : list string;
}.

(** The errors of [parseServeOptionsImpl]: the one of [net.SplitHostPort],
    the one of [strconv.ParseInt], and its own. *)
Inductive ServeError : Type :=
| AddrError (text : string)
| NumError (num : string) (err : strconv.NumError)
| InvalidPortNumber (portText : string).

(** The local variables that the first loop of [parseServeOptionsImpl]
    assigns. *)
Record ServeFlags : Type := mkServeFlags {
  portText : string;
  servedir : string;
  keyfile : string;
  certfile : string;
  fallback : string;
  corsOrigin : list string;
  filteredArgs : list string;
}.

(** One iteration of the loop that filters out the server-specific
    flags. *)
Definition serveFlag (arg : string) (f : ServeFlags) : ServeFlags :=
  if String.eqb arg "--serve" then
    f (* Just ignore this flag *)
  else if strings.HasPrefix arg "--serve=" then
    mkServeFlags (after "--serve=" arg) f.(servedir) f.(keyfile) f.(certfile)
      f.(fallback) f.(corsOrigin) f.(filteredArgs)
  else if strings.HasPrefix arg "--servedir=" then
    mkServeFlags f.(portText) (after "--servedir=" arg) f.(keyfile) f.(certfile)
      f.(fallback) f.(corsOrigin) f.(filteredArgs)
  else if strings.HasPrefix arg "--keyfile=" then
    mkServeFlags f.(portText) f.(servedir) (after "--keyfile=" arg) f.(certfile)
      f.(fallback) f.(corsOrigin) f.(filteredArgs)
  else if strings.HasPrefix arg "--certfile=" then
    mkServeFlags f.(portText) f.(servedir) f.(keyfile) (after "--certfile=" arg)
      f.(fallback) f.(corsOrigin) f.(filteredArgs)
  else if strings.HasPrefix arg "--serve-fallback=" then
    mkServeFlags f.(portText) f.(servedir) f.(keyfile) f.(certfile)
      (after "--serve-fallback=" arg) f.(corsOrigin) f.(filteredArgs)
  else if strings.HasPrefix arg "--cors-origin=" then
    mkServeFlags f.(portText) f.(servedir) f.(keyfile) f.(certfile)
      f.(fallback) (strings.Split (after "--cors-origin=" arg) ",") f.(filteredArgs)
  else
    mkServeFlags f.(portText) f.(servedir) f.(keyfile) f.(certfile)
      f.(fallback) f.(corsOrigin) (f.(filteredArgs) ++ [arg]).

Definition serveFlags (osArgs : list string) : ServeFlags :=
  fold_left (fun f arg => serveFlag arg f) osArgs (mkServeFlags "" "" "" "" "" [] []).

(** The second half of [parseServeOptionsImpl], "Parse the port": the
    value of [port] for a port text. *)
Definition parsePort (portText : string) : Z + ServeError :=
  if negb (String.eqb portText "") then
    match strconv.ParseInt portText 32 with
    | inr err => inr (NumError portText err)
    | inl port =>
        if (port <? 0)%Z || (port >? 65535)%Z then inr (InvalidPortNumber portText)
        else if (port =? 0)%Z then
          (* 0 is the default value in Go, which we interpret as "try to
             pick port 8000". So Go uses -1 as the sentinel value instead. *)
          inl (-1)%Z
        else inl port
    end
  else inl 0%Z.

(** [parseServeOptionsImpl(osArgs)]: the options and the arguments left
    for the option parser, or the error. *)
Definition parseServeOptionsImpl (osArgs : list string)
    : ServeOptions * list string + ServeError :=
  let f := serveFlags osArgs in
  (* Specifying the host is optional *)
  let hostPort :=
    if strings.ContainsRune f.(portText) ":" then
      match SplitHostPort f.(portText) with
      | inl (host, portText) => inl (host, portText)
      | inr e => inr (AddrError e)
      end
    else inl ("", f.(portText)) in
  match hostPort with
  | inr err => inr err
  | inl (host, portText) =>
      (* Parse the port *)
      match parsePort portText with
      | inr err => inr err
      | inl port =>
          inl ({| Port := port; Host := host; Servedir := f.(servedir);
                  Keyfile := f.(keyfile); Certfile := f.(certfile);
                  Fallback := f.(fallback); Origin := f.(corsOrigin) |},
               f.(filteredArgs))
      end
  end.

End CLI.

(** ** Tree shaking: the mark phase *)

Module TreeShaking.

(** Modelled from the spec: the linker of the repository is not among the
    sources at hand. A Part is the unit of tree shaking of the data model
    (section 3): the symbols it declares, the symbols it references, its
    [can-be-removed-if-unused] flag, and the parts of the same unit it
    depends on. Parts are numbered by their position in the graph, symbols
    and Source Units by natural numbers. *)
Record Part : Type := {
  unit : nat;
  declares : list nat;
  references : list nat;
  canBeRemovedIfUnused : bool;
  dependsOn : list nat;
}.

(** Modelled from the spec: what the mark phase reads of the Module Graph
    (sections 3 and 4.3): all parts, the units that are Entry Points, and
    the units for which side-effect-free mode is asserted. *)
Record Graph : Type := {
  parts : list Part;
  entryPoints : list nat;
  sideEffectFree : list nat;
}.

Definition memb (x : nat) (l : list nat) : bool := existsb (Nat.eqb x) l.

(** The numbers of the parts of a graph. *)
Definition partIds (g : Graph) : list nat := seq 0 (length g.(parts)).

(** Modelled from the spec: part [q] declares a symbol that part [p]
    references (propagation rule a of section 4.3). *)
Definition resolves (p q : Part) : bool :=
  existsb (fun s => memb s q.(declares)) p.(references).

(** Modelled from the spec: the parts that part number [i] refers to (the
    propagation rules a and b of section 4.3): every part it references for
    symbol resolution, and every part of the same unit it depends on. *)
Definition referencedParts (g : Graph) (i : nat) : list nat :=
  match g.(parts) !! i with
  | None => []
  | Some p =>
      List.filter (fun j => match g.(parts) !! j with
                            | Some q => resolves p q
                            | None => false
                            end) (partIds g)
      ++ List.filter (fun j => j <? length g.(parts))%nat p.(dependsOn)
  end.

(** Modelled from the spec: the parts flagged as having a side effect, that
    is, not [can-be-removed-if-unused], in a unit for which side-effect-free
    mode is not asserted (rule c). *)
Definition sideEffectParts (g : Graph) : list nat :=
  List.filter (fun j => match g.(parts) !! j with
                        | Some q =>
                            negb q.(canBeRemovedIfUnused)
                            && negb (memb q.(unit) g.(sideEffectFree))
                        | None => false
                        end) (partIds g).

(** Modelled from the spec: "marking a part also marks" the parts it refers
    to (a, b) and, conservatively, the parts with a side effect (c). *)
Definition marksAlso (g : Graph) (i : nat) : list nat :=
  referencedParts g i ++ sideEffectParts g.

(** Modelled from the spec: the seed of the mark set (section 4.3): the
    parts of the Entry Point units that are not [can-be-removed-if-unused].
    The parts that declare an imported symbol enter by rule (a). *)
Definition seeds (g : Graph) : gset nat :=
  list_to_set
    (List.filter (fun i => match g.(parts) !! i with
                           | Some p =>
                               negb p.(canBeRemovedIfUnused)
                               && memb p.(unit) g.(entryPoints)
                           | None => false
                           end) (partIds g)).

(** One round of propagation over the marked set. *)
Definition propagate (g : Graph) (marked : gset nat) : gset nat :=
  marked ∪ list_to_set (concat (map (marksAlso g) (elements marked))).

(** Modelled from the spec: "repeat propagation until no new parts are
    marked"; [rounds] bounds the number of rounds. *)
Fixpoint markLoop (g : Graph) (rounds : nat) (marked : gset nat) : gset nat :=
  match rounds with
  | O => marked
  | S rounds' =>
      let marked' := propagate g marked in
      if decide (marked' = marked) then marked
      else markLoop g rounds' marked'
  end.

(** Modelled from the spec: the retained parts; every round but the last
    marks a new part, so one round more than there are parts is enough. *)
Definition retained (g : Graph) : gset nat :=
  markLoop g (S (length g.(parts))) (seeds g).

(** The numbers of all parts, as a set. *)
Definition allParts (g : Graph) : gset nat := list_to_set (partIds g).

(** Modelled from the spec: the parts marked for removal are the
    unmarked ones, "dropped from output entirely". *)
Definition removed (g : Graph) : gset nat := allParts g ∖ retained g.

(** Part [i] refers to part [j], directly. *)
Definition refersTo (g : Graph) (i j : nat) : Prop := j ∈ referencedParts g i.

End TreeShaking.

(** ** Notions used to state the properties *)

(** The text before the first [=] of an argument and the text after it. *)
Definition splitAtEquals (arg : string) : option (string * string) :=
  match strings.cut arg "=" with
  | (before, Some rest) => Some (before, rest)
  | (_, None) => None
  end.

(** An argument that does not start with [-]. *)
Definition noDash (arg : string) : bool := negb (strings.HasPrefix arg "-").

(** The arguments without a dash and without [=], in command-line order. *)
Definition plainEntryPoints (osArgs : list string) : list string :=
  List.filter (fun arg => noDash arg && negb (strings.ContainsRune arg "=")) osArgs.

(** The arguments without a dash of the form [out=in], in command-line
    order, as entry points. *)
Definition advancedEntryPoints (osArgs : list string) : list api.EntryPoint :=
  omap (fun arg =>
          if noDash arg then
            match splitAtEquals arg with
            | Some (before, rest) =>
                Some {| api.InputPath := rest; api.OutputPath := before |}
            | None => None
            end
          else None) osArgs.

(** Whether the last source map flag of an argument list, if any, is the
    bare [--sourcemap] rather than [--sourcemap=...]. *)
Definition lastSourceMapFlagIsBare (osArgs : list string) : bool :=
  fold_left (fun isBare arg =>
               if String.eqb arg "--sourcemap" then true
               else if strings.HasPrefix arg "--sourcemap=" then false
               else isBare) osArgs false.

(** The number that a non-empty sequence of decimal digits denotes, after
    the digits of [acc]. *)
Fixpoint digitsValue (s : string) (acc : Z) : option Z :=
  match s with
  | EmptyString => Some acc
  | String c s' =>
      match strconv.digit c with
      | Some d => digitsValue s' (acc * 10 + d)%Z
      | None => None
      end
  end.

(** The integer that a text denotes in decimal notation: an optional sign
    and at least one digit. *)
Definition decimalInteger (s : string) : option Z :=
  let unsigned (s : string) : option Z :=
    match s with
    | EmptyString => None
    | _ => digitsValue s 0
    end in
  match s with
  | EmptyString => None
  | String c s' =>
      if Ascii.eqb c "+" then unsigned s'
      else if Ascii.eqb c "-" then Z.opp <$> unsigned s'
      else unsigned s
  end.

(** No engine name of the table starts another entry's name: at most one
    entry matches the start of a target. *)
Definition prefixFree (table : list (string * api.EngineName)) : bool :=
  forallb (fun e1 =>
    forallb (fun e2 =>
      implb (strings.HasPrefix (fst e2) (fst e1)) (bool_decide (e1 = e2))) table) table.

(** ** Inputs of the examples *)

(** The engine table of the released CLI. *)
Definition esbuildEngines : list (string * api.EngineName) :=
  [ ("chrome", api.EngineChrome); ("deno", api.EngineDeno); ("edge", api.EngineEdge);
    ("firefox", api.EngineFirefox); ("hermes", api.EngineHermes); ("ie", api.EngineIE);
    ("ios", api.EngineIOS); ("node", api.EngineNode); ("opera", api.EngineOpera);
    ("rhino", api.EngineRhino); ("safari", api.EngineSafari) ].

(** [%q] on the texts of the examples, which need no escape. *)
Definition plainQuote (s : string) : string := quoted s.

(** [strings.ToLower] on ASCII text. *)
Definition asciiToLower (s : string) : string :=
  string_of_list_ascii
    (map (fun c => let n := nat_of_ascii c in
                   if (65 <=? n)%nat && (n <=? 90)%nat then ascii_of_nat (n + 32) else c)
         (list_ascii_of_string s)).

(** A loader parser that knows two loaders. *)
Definition twoLoaders (text : string) : api.Loader + ErrorWithNote :=
  if String.eqb text "js" then inl api.LoaderJS
  else if String.eqb text "file" then inl api.LoaderFile
  else inr (MakeErrorWithNote ("Invalid loader value: " +:+ plainQuote text) "").

(** The assignments that the statements name, in whichever options are
    parsed. *)
Definition setFormat (format : api.Format) : ParseState -> ParseState :=
  setOptions (assign (BuildOptions.set_Format format) (TransformOptions.set_Format format)).

Definition setTreeShaking (treeShaking : api.TreeShaking) : ParseState -> ParseState :=
  setOptions (assign (BuildOptions.set_TreeShaking treeShaking)
                     (TransformOptions.set_TreeShaking treeShaking)).

Definition setSplitting (value : bool) : ParseState -> ParseState :=
  setOptions (assignBuild (BuildOptions.set_Splitting value)).

(** What the statements read in the options: the entry points and the
    source map option of the build options. *)
Definition entryPointsOf (o : Options) : list string :=
  match o with
  | BuildOpts b => b.(BuildOptions.EntryPoints)
  | TransformOpts _ => []
  end.

Definition entryPointsAdvancedOf (o : Options) : list api.EntryPoint :=
  match o with
  | BuildOpts b => b.(BuildOptions.EntryPointsAdvanced)
  | TransformOpts _ => []
  end.

Definition sourcemapOf (o : Options) : api.SourceMap :=
  match o with
  | BuildOpts b => b.(BuildOptions.Sourcemap)
  | TransformOpts t => t.(TransformOptions.Sourcemap)
  end.

(** A run launches the build API on [buildOptions]: it builds once or
    starts watching. *)
Definition launches (r : Run) (buildOptions : BuildOptions.t) : Prop :=
  r = Builds buildOptions \/ exists delay, r = Watches buildOptions delay.

(** A callback returns normally. *)
Definition returns (o : Outcome) : Prop := exists calls, o = Returns calls.

(** The closures that a run hands to the plugin [PostBuildActions] are the
    two writers of the driver, capturing the error [err] of the parse. *)
Definition metafileClosure (fsMkdirAll : FS -> string -> option string)
    (ioWriteFile : string -> string -> option string) (err : option ErrorWithNote)
    (w : option (string -> Outcome)) : Prop :=
  w = None
  \/ exists realFS absPath absDir,
       w = Some (writeMetafile fsMkdirAll ioWriteFile err realFS absPath absDir).

Definition mangleCacheClosure (fsMkdirAll : FS -> string -> option string)
    (ioWriteFile : string -> string -> option string)
    (printMangleCache : MangleCacheMap -> list string -> bool -> string)
    (err : option ErrorWithNote) (w : option (option MangleCacheMap -> Outcome)) : Prop :=
  w = None
  \/ exists realFS absPath absDir order asciiOnly,
       w = Some (writeMangleCache fsMkdirAll ioWriteFile printMangleCache err realFS
                   absPath absDir order asciiOnly).

(** A file system for the examples: every path is relative to [/work], and
    nothing fails. *)
Definition exampleFS : FS :=
  {| Abs := fun path => Some ("/work/" +:+ path); Dir := fun _ => "/work" |}.

(** [runImpl] in the world of the examples: an [int] of 64 bits, no
    [NODE_PATH], an empty standard input, the file system above, no mangle
    cache on disk. *)
Abbreviation exampleRun :=
  (runImpl plainQuote asciiToLower twoLoaders (fun _ => esbuildEngines) 64
     None false (inl "") "/work" (fun _ => inl exampleFS)
     (fun _ _ => None) (fun _ _ => None) (fun _ _ _ => (None, [])) (fun _ _ _ => "")
     (fun _ => false)).

(** A graph of three parts: the statement of an entry unit that uses a
    symbol of a second unit, and the two declarations of that unit, one of
    them never imported. *)
Definition exampleGraph : TreeShaking.Graph :=
  {| TreeShaking.parts :=
       [ {| TreeShaking.unit := 0; TreeShaking.declares := [];
            TreeShaking.references := [1]; TreeShaking.canBeRemovedIfUnused := false;
            TreeShaking.dependsOn := [] |};
         {| TreeShaking.unit := 1; TreeShaking.declares := [1];
            TreeShaking.references := []; TreeShaking.canBeRemovedIfUnused := true;
            TreeShaking.dependsOn := [] |};
         {| TreeShaking.unit := 1; TreeShaking.declares := [2];
            TreeShaking.references := []; TreeShaking.canBeRemovedIfUnused := true;
            TreeShaking.dependsOn := [] |} ];
     TreeShaking.entryPoints := [0];
     TreeShaking.sideEffectFree := [1] |}.

(** What the statements read in whichever options are parsed: the format,
    the tree shaking option and, in build options, the splitting option. *)
Definition formatOf (o : Options) : api.Format :=
  match o with
  | BuildOpts b => b.(BuildOptions.Format)
  | TransformOpts t => t.(TransformOptions.Format)
  end.

Definition treeShakingOf (o : Options) : api.TreeShaking :=
  match o with
  | BuildOpts b => b.(BuildOptions.TreeShaking)
  | TransformOpts t => t.(TransformOptions.TreeShaking)
  end.

Definition splittingOf (o : Options) : bool :=
  match o with
  | BuildOpts b => b.(BuildOptions.Splitting)
  | TransformOpts _ => false
  end.

(** The format that a value of [--format=] names. *)
Definition formatNamed (v : string) : option api.Format :=
  if String.eqb v "iife" then Some api.FormatIIFE
  else if String.eqb v "cjs" then Some api.FormatCommonJS
  else if String.eqb v "esm" then Some api.FormatESModule
  else None.

(** The format that the last [--format=] flag of an argument list names,
    [format] when there is none. *)
Definition lastFormat (osArgs : list string) (format : api.Format) : api.Format :=
  fold_left (fun format arg =>
               if strings.HasPrefix arg "--format=" then
                 match formatNamed (after "--format=" arg) with
                 | Some named => named
                 | None => format
                 end
               else format) osArgs format.

(** The value that an argument gives to the boolean flag [flag]: the bare
    flag and [flag=true] say true, [flag=false] says false. *)
Definition boolFlagValue (flag arg : string) : option bool :=
  if String.eqb arg flag then Some true
  else if String.eqb arg (flag +:+ "=true") then Some true
  else if String.eqb arg (flag +:+ "=false") then Some false
  else None.

(** The tree shaking option that the last [--tree-shaking] flag of an
    argument list asks for, and the splitting option that the last
    [--splitting] flag asks for; the given one when there is no such flag. *)
Definition lastTreeShaking (osArgs : list string) (treeShaking : api.TreeShaking)
    : api.TreeShaking :=
  fold_left (fun treeShaking arg =>
               match boolFlagValue "--tree-shaking" arg with
               | Some true => api.TreeShakingTrue
               | Some false => api.TreeShakingFalse
               | None => treeShaking
               end) osArgs treeShaking.

Definition lastSplitting (osArgs : list string) (splitting : bool) : bool :=
  fold_left (fun splitting arg =>
               match boolFlagValue "--splitting" arg with
               | Some value => value
               | None => splitting
               end) osArgs splitting.

(** ** The development server *)

(** [logger.Colors]: the escape sequences that the request log uses. *)
Module logger.
Record Colors : Type := {
  Reset : string;
  Dim : string;
  Red : string;
  Green : string;
  Yellow : string;
}.
End logger.

(** [api.ServeOnRequestArgs] *)
Module ServeOnRequestArgs.
Record t : Type := mk {
  RemoteAddress : string;
  Method : string;
  Path : string;
  Status : Z;
  TimeInMS : Z;
}.
End ServeOnRequestArgs.

(** What [serveImpl] prints on stderr before it returns: the error of
    [parseServeOptionsImpl] ([err.Error()], without a note), the error of
    the option parser with its note, or the text of an error of the build
    API. *)
Inductive ServeMessage : Type :=
| ServeOptionsError (err : ServeError)
| ParseError (err : ErrorWithNote)
| ApiError (text : string).

(** How [serveImpl] ends: it returns after these messages, or it serves
    and does not return. *)
Inductive Serving : Type :=
| ServeReturns (stderr : list ServeMessage)
| Serves (options : BuildOptions.t) (serveOptions : ServeOptions) (watch : bool).

Section Server.

(** What the server takes from outside this file, besides what the option
    parser takes:
    - [Itoa], the verb [%d] of [fmt.Sprintf];
    - [ContextFails], whether [api.Context] rejects the options;
    - [ServeFails] and [WatchFails], the text of the error of [ctx.Serve]
      and of [ctx.Watch], [None] when they succeed. *)
Variable Quote : string -> string.
Variable ToLower : string -> string.
Variable ParseLoader : string -> api.Loader + ErrorWithNote.
Variable rangeOrder : nat -> list (string * api.EngineName).
Variable intSize : Z.
Variable SplitHostPort : string -> string * string + string.
Variable Itoa : Z -> string.
Variable ContextFails : BuildOptions.t -> bool.
Variable ServeFails : BuildOptions.t -> ServeOptions -> option string.
Variable WatchFails : BuildOptions.t -> option string.

(** The closure [serveOptions.OnRequest] of [serveImpl]: the line that it
    logs for a request. *)
Definition onRequest (colors : logger.Colors) (args : ServeOnRequestArgs.t) : string :=
  let status := args.(ServeOnRequestArgs.Status) in
  let statusColor :=
    if (200 <=? status)%Z && (status <=? 299)%Z then colors.(logger.Green)
    else if (300 <=? status)%Z && (status <=? 399)%Z then colors.(logger.Yellow)
    else colors.(logger.Red) in
  colors.(logger.Dim) +:+ args.(ServeOnRequestArgs.RemoteAddress) +:+ " - "
    +:+ Quote (args.(ServeOnRequestArgs.Method) +:+ " " +:+ args.(ServeOnRequestArgs.Path))
    +:+ " " +:+ statusColor +:+ Itoa status +:+ colors.(logger.Dim)
    +:+ " [" +:+ Itoa args.(ServeOnRequestArgs.TimeInMS) +:+ "ms]"
    +:+ colors.(logger.Reset) +:+ String (ascii_of_nat 10) EmptyString.

(** [serveImpl(osArgs)] *)
Definition serveImpl (osArgs : list string) : Serving :=
  match parseServeOptionsImpl SplitHostPort osArgs with
  | inr err => ServeReturns [ServeOptionsError err]
  | inl (serveOptions, filteredArgs) =>
      (* Apply defaults appropriate for the CLI *)
      let options :=
        BuildOptions.set_LogLevel api.LogLevelInfo
          (BuildOptions.set_LogLimit 5 newBuildOptions) in
      let '(filteredArgs, analyze) := filterAnalyzeFlags filteredArgs in
      match parseOptionsImpl Quote ToLower ParseLoader rangeOrder intSize
              filteredArgs (BuildOpts options) kindInternal with
      | (_, _, Some errWithNote) => ServeReturns [ParseError errWithNote]
      | (TransformOpts _, _, None) => ServeReturns []
      | (BuildOpts options, extras, None) =>
          let options :=
            match analyze with
            | analyzeDisabled => options
            | _ => addAnalyzePlugin options analyze
            end in
          (* Validate build options *)
          if ContextFails options then ServeReturns []
          else
            (* Try to enable serve mode *)
            match ServeFails options serveOptions with
            | Some e => ServeReturns [ApiError e]
            | None =>
                (* Also enable watch mode if it was requested *)
                if extras.(watch) then
                  match WatchFails options with
                  | Some e => ServeReturns [ApiError e]
                  | None => Serves options serveOptions true
                  end
                else Serves options serveOptions false
            end
      end
  end.

End Server.

(** ** More notions used to state the properties *)

(** The values of the flags that start with [prefix], in command-line
    order. *)
Definition flagValues (prefix : string) (osArgs : list string) : list string :=
  map (after prefix) (List.filter (fun arg => strings.HasPrefix arg prefix) osArgs).

(** The language versions that the targets of a list name. *)
Definition languageTargets (ToLower : string -> string) (targets : list string)
    : list api.Target :=
  omap (fun value => assoc validTargets (ToLower value)) targets.

(** An engine read in one of the targets of a list: the name of an entry
    of the engine table followed by a version that is not empty. *)
Definition engineOf (rangeOrder : nat -> list (string * api.EngineName))
    (targets : list string) (e : api.Engine) : Prop :=
  e.(api.Version) <> ""
  /\ exists engine k,
       In (engine, e.(api.Name)) (rangeOrder k)
       /\ In (engine +:+ e.(api.Version)) targets.

(** The fields of the build options that no flag assigns: the driver sets
    them. *)
Definition driverFields (o : Options)
    : option (list Plugin.t * list string * bool * string * option MangleCacheMap) :=
  match o with
  | BuildOpts b =>
      Some (b.(BuildOptions.Plugins), b.(BuildOptions.NodePaths), b.(BuildOptions.Write),
            b.(BuildOptions.AbsWorkingDir), b.(BuildOptions.MangleCache))
  | TransformOpts _ => None
  end.

(** What the statements read in whichever options are parsed. *)
Definition logLimitOf (o : Options) : Z :=
  match o with
  | BuildOpts b => b.(BuildOptions.LogLimit)
  | TransformOpts t => t.(TransformOptions.LogLimit)
  end.

Definition lineLimitOf (o : Options) : Z :=
  match o with
  | BuildOpts b => b.(BuildOptions.LineLimit)
  | TransformOpts t => t.(TransformOptions.LineLimit)
  end.

Definition pureOf (o : Options) : list string :=
  match o with
  | BuildOpts b => b.(BuildOptions.Pure)
  | TransformOpts t => t.(TransformOptions.Pure)
  end.

Definition defineOf (o : Options) : gmap string string :=
  match o with
  | BuildOpts b => b.(BuildOptions.Define)
  | TransformOpts t => t.(TransformOptions.Define)
  end.

Definition externalOf (o : Options) : list string :=
  match o with
  | BuildOpts b => b.(BuildOptions.External)
  | TransformOpts _ => []
  end.

Definition injectOf (o : Options) : list string :=
  match o with
  | BuildOpts b => b.(BuildOptions.Inject)
  | TransformOpts _ => []
  end.

Definition outfileOf (o : Options) : string :=
  match o with
  | BuildOpts b => b.(BuildOptions.Outfile)
  | TransformOpts _ => ""
  end.

Definition outdirOf (o : Options) : string :=
  match o with
  | BuildOpts b => b.(BuildOptions.Outdir)
  | TransformOpts _ => ""
  end.

Definition metafileOf (o : Options) : bool :=
  match o with
  | BuildOpts b => b.(BuildOptions.Metafile)
  | TransformOpts _ => false
  end.

(** The two flags that [filterAnalyzeFlags] takes out, and the mode that
    the last of them asks for. *)
Definition isAnalyzeFlag (arg : string) : bool :=
  String.eqb arg "--analyze" || String.eqb arg "--analyze=verbose".

Definition lastAnalyzeMode (osArgs : list string) : analyzeMode :=
  fold_left (fun analyze arg =>
               if String.eqb arg "--analyze" then analyzeEnabled
               else if String.eqb arg "--analyze=verbose" then analyzeVerbose
               else analyze) osArgs analyzeDisabled.

(** The flags that [parseServeOptionsImpl] keeps for itself. *)
Definition isServerFlag (arg : string) : bool :=
  String.eqb arg "--serve"
  || strings.HasPrefix arg "--serve="
  || strings.HasPrefix arg "--servedir="
  || strings.HasPrefix arg "--keyfile="
  || strings.HasPrefix arg "--certfile="
  || strings.HasPrefix arg "--serve-fallback="
  || strings.HasPrefix arg "--cors-origin=".

(** One of the two source map flags. *)
Definition isSourceMapFlag (arg : string) : bool :=
  String.eqb arg "--sourcemap" || strings.HasPrefix arg "--sourcemap=".

(** The flags of a build: the cases of the switch that [buildOpts != nil]
    guards and that no later case takes over. *)
Definition buildOnlyPrefixes : list string :=
  [ "--watch-delay="; "--mangle-cache="; "--resolve-extensions="; "--main-fields=";
    "--conditions="; "--public-path="; "--metafile="; "--outfile="; "--outdir=";
    "--outbase="; "--tsconfig="; "--entry-names="; "--chunk-names="; "--asset-names=";
    "--loader:"; "--out-extension:"; "--packages="; "--external:"; "--inject:";
    "--alias:"; "--banner:"; "--footer:" ].

Definition buildOnlyBoolFlags : list string :=
  [ "--bundle"; "--preserve-symlinks"; "--splitting"; "--allow-overwrite"; "--watch" ].

(** ** The embedding on a few command lines *)

Example build_command_line :
  match parseOptionsForRun plainQuote asciiToLower twoLoaders (fun _ => esbuildEngines) 64
          ["--minify"; "--target=ES2020,node12.3"; "--log-limit=3"; "a.ts";
           "--drop:console"; "--drop:debugger"; "out=b.ts"] with
  | (Some b, None, _, None) =>
      b.(BuildOptions.MinifySyntax) = true
      /\ b.(BuildOptions.Target) = api.ES2020
      /\ b.(BuildOptions.Engines)
         = [{| api.Name := api.EngineNode; api.Version := "12.3" |}]
      /\ b.(BuildOptions.LogLimit) = 3%Z
      /\ b.(BuildOptions.Drop) = 3%Z
      /\ b.(BuildOptions.EntryPoints) = ["a.ts"]
      /\ b.(BuildOptions.EntryPointsAdvanced)
         = [{| api.InputPath := "b.ts"; api.OutputPath := "out" |}]
      /\ b.(BuildOptions.Write) = true
  | _ => False
  end.
Proof. vm_compute. repeat split. Qed.

Example single_dash_flag :
  parseOptionsForRun plainQuote asciiToLower twoLoaders (fun _ => esbuildEngines) 64
    ["-outfile:x"; "a.js"]
  = (None, None, noExtras,
     Some (MakeErrorWithNote
             ("Invalid build flag: " +:+ quoted "-outfile:x")
             ("Use " +:+ quoted "--outfile=x" +:+ " instead of " +:+ quoted "-outfile:x"
              +:+ ". Flags are always specified with two dashes instead of one dash."))).
Proof. vm_compute. reflexivity. Qed.

Example transform_rejects_two_files :
  exists note,
    parseOptionsForRun plainQuote asciiToLower twoLoaders (fun _ => esbuildEngines) 64
      ["--sourcemap=external"]
    = (None, None, noExtras,
       Some (MakeErrorWithNote
               ("Use " +:+ quoted "--sourcemap" +:+ " instead of "
                +:+ quoted "--sourcemap=external" +:+ " when transforming stdin") note)).
Proof. eexists. vm_compute. reflexivity. Qed.

Example unknown_target :
  exists text,
    parseOptionsForRun plainQuote asciiToLower twoLoaders (fun _ => reverse esbuildEngines) 64
      ["--target=es2020,foo1"; "a.js"]
    = (None, None, noExtras,
       Some (MakeErrorWithNote text
               ("Valid values are " +:+ quoted "chromeN" +:+ ", " +:+ quoted "denoN"
                +:+ ", " +:+ quoted "edgeN" +:+ ", " +:+ quoted "esN" +:+ ", "
                +:+ quoted "firefoxN" +:+ ", " +:+ quoted "hermesN" +:+ ", "
                +:+ quoted "ieN" +:+ ", " +:+ quoted "iosN" +:+ ", " +:+ quoted "nodeN"
                +:+ ", " +:+ quoted "operaN" +:+ ", " +:+ quoted "rhinoN" +:+ ", or "
                +:+ quoted "safariN" +:+ " where N is a version number."))).
Proof. eexists. vm_compute. reflexivity. Qed.

Example parse_int_bounds :
  strconv.ParseInt "-2147483648" 32 = inl (-2147483648)%Z
  /\ strconv.ParseInt "2147483648" 32 = inr strconv.ErrRange
  /\ strconv.ParseInt "+12" 32 = inl 12%Z
  /\ strconv.ParseInt "-" 32 = inr strconv.ErrSyntax
  /\ strconv.ParseInt "1_0" 32 = inr strconv.ErrSyntax
  /\ strconv.Atoi 64 "9223372036854775807" = inl 9223372036854775807%Z
  /\ strconv.Atoi 64 "9223372036854775808" = inr strconv.ErrRange.
Proof. vm_compute. repeat split. Qed.

Example serve_command_line :
  parseServeOptionsImpl (fun _ => inr "missing port in address")
    ["--serve=8000"; "--servedir=www"; "x.js"; "--cors-origin=a,b"]
  = inl ({| Port := 8000; Host := ""; Servedir := "www"; Keyfile := ""; Certfile := "";
            Fallback := ""; Origin := ["a"; "b"] |}, ["x.js"]).
Proof. vm_compute. reflexivity. Qed.

Example analyze_flags_are_filtered :
  filterAnalyzeFlags ["--analyze"; "a.js"; "--analyze=verbose"; "--x"]
  = (["a.js"; "--x"], analyzeVerbose)
  /\ filterAnalyzeFlags ["--analyze"; "--x"] = (["--analyze"; "--x"], analyzeDisabled).
Proof. vm_compute. split; reflexivity. Qed.
(** ** Properties of the option parser *)

(** A literal in front of a text, one character at a time. *)
Lemma append_cons c s v : String c s +:+ v = String c (s +:+ v).
Proof. reflexivity. Qed.

Lemma append_empty v : "" +:+ v = v.
Proof. reflexivity. Qed.

Ltac spell := rewrite ?append_cons, ?append_empty.

(** The switch of the parser, case by case: [first_case tac] splits on the
    guard of the first case and closes the case with [tac]; [assigned]
    reads the new state off the equation of a case that succeeds, with the
    guard of the case split into its conditions. *)
Ltac first_case tac :=
  lazymatch goal with
  | |- (if ?c then _ else _) = _ -> _ =>
      let E := fresh "Hcase" in destruct c eqn:E; [ solve [tac] | clear E ]
  end.

Ltac assigned :=
  unfold withBool, withKeyValue;
  repeat case_match; try discriminate;
  let H := fresh in intros H; injection H as <-;
  repeat match goal with
         | H : _ && _ = true |- _ => apply andb_true_iff in H as [? ?]
         end.

Section Parser.

Variable Quote : string -> string.
Variable ToLower : string -> string.
Variable ParseLoader : string -> api.Loader + ErrorWithNote.
Variable rangeOrder : nat -> list (string * api.EngineName).
Variable intSize : Z.

Local Abbreviation parseArg' := (parseArg Quote ToLower ParseLoader rangeOrder intSize).
Local Abbreviation parseArgs' := (parseArgs Quote ToLower ParseLoader rangeOrder intSize).
Local Abbreviation parseOptionsImpl' :=
  (parseOptionsImpl Quote ToLower ParseLoader rangeOrder intSize).
Local Abbreviation parseOptionsForRun' :=
  (parseOptionsForRun Quote ToLower ParseLoader rangeOrder intSize).

(** An argument whose case returns an error makes the whole parse fail,
    wherever it stands in the list. *)
Lemma parseArgs_failing kind arg osArgs :
  In arg osArgs ->
  (forall st, exists err, parseArg' kind arg st = inr err) ->
  forall st, exists st' err, parseArgs' kind osArgs st = (st', Some err).
Proof.
  intros Hin Hfail. induction osArgs as [|a rest IH]; [destruct Hin|].
  intros st. simpl.
  destruct (parseArg' kind a st) as [st'|err] eqn:Ha.
  - destruct Hin as [->|Hin].
    + destruct (Hfail st) as [err Herr]. congruence.
    + apply IH, Hin.
  - eauto.
Qed.

Lemma parseOptionsImpl_failing kind arg osArgs o :
  In arg osArgs ->
  (forall st, exists err, parseArg' kind arg st = inr err) ->
  exists o' err, parseOptionsImpl' osArgs o kind = (o', noExtras, Some err).
Proof.
  intros Hin Hfail. unfold parseOptionsImpl.
  destruct (parseArgs_failing kind arg osArgs Hin Hfail (mkState o noExtras false 0))
    as (st' & err & ->).
  eauto.
Qed.

Lemma parseOptionsForRun_failing arg osArgs :
  In arg osArgs ->
  (forall st, exists err, parseArg' kindInternal arg st = inr err) ->
  exists err, parseOptionsForRun' osArgs = (None, None, noExtras, Some err).
Proof.
  intros Hin Hfail. unfold parseOptionsForRun.
  pose proof (fun o => parseOptionsImpl_failing kindInternal arg osArgs o Hin Hfail) as H.
  destruct (existsb isArgForBuild osArgs);
    match goal with
    | |- context [parseOptionsImpl _ _ _ _ _ _ ?o _] => destruct (H o) as (o' & err & ->)
    end; destruct o'; eauto.
Qed.

(** What the case [--format=] does, for every value. *)
Lemma parseArg_format kind v st :
  parseArg' kind ("--format=" +:+ v) st =
    if String.eqb v "iife" then inl (setFormat api.FormatIIFE st)
    else if String.eqb v "cjs" then inl (setFormat api.FormatCommonJS st)
    else if String.eqb v "esm" then inl (setFormat api.FormatESModule st)
    else inr (invalidValue Quote v ("--format=" +:+ v)
                ("Valid values are " +:+ quoted "iife" +:+ ", " +:+ quoted "cjs"
                 +:+ ", or " +:+ quoted "esm" +:+ ".")).
Proof. spell. unfold parseArg, after. simpl. reflexivity. Qed.

(** The grammar of a boolean flag: the bare flag is the default, [=true]
    and [=false] are the two values, anything else is an error. *)
Lemma parseBoolFlag_bare flag defaultValue :
  strings.IndexByte flag "=" = None ->
  parseBoolFlag Quote flag defaultValue = inl defaultValue.
Proof. intros H. unfold parseBoolFlag. rewrite H. reflexivity. Qed.

Lemma IndexByte_app flag c rest :
  strings.IndexByte flag c = None ->
  strings.IndexByte (flag +:+ String c rest) c = Some (String.length flag).
Proof.
  induction flag as [|d flag IH]; intros H.
  - simpl. rewrite Ascii.eqb_refl. reflexivity.
  - simpl in H. rewrite append_cons. simpl.
    destruct (Ascii.eqb d c); [discriminate|].
    destruct (strings.IndexByte flag c); [discriminate|].
    rewrite IH by reflexivity. reflexivity.
Qed.

Lemma sliceFrom_S_app flag c rest :
  sliceFrom (String.length flag + 1) (flag +:+ String c rest) = rest.
Proof.
  induction flag as [|d flag IH]; [reflexivity|].
  rewrite append_cons. simpl. exact IH.
Qed.

Lemma parseBoolFlag_value flag v defaultValue :
  strings.IndexByte flag "=" = None ->
  parseBoolFlag Quote (flag +:+ "=" +:+ v) defaultValue =
    if String.eqb v "false" then inl false
    else if String.eqb v "true" then inl true
    else inr (invalidValue Quote v (flag +:+ "=" +:+ v)
                ("Valid values are " +:+ quoted "true" +:+ " or "
                 +:+ quoted "false" +:+ ".")).
Proof.
  intros H. unfold parseBoolFlag. spell.
  rewrite (IndexByte_app flag "=" v H), sliceFrom_S_app. reflexivity.
Qed.

(** What the cases [--tree-shaking] and [--splitting] do with a value. *)
Lemma parseArg_tree_shaking_value kind v st :
  parseArg' kind ("--tree-shaking=" +:+ v) st =
    match parseBoolFlag Quote ("--tree-shaking=" +:+ v) true with
    | inl value =>
        inl (setTreeShaking
               (if value then api.TreeShakingTrue else api.TreeShakingFalse) st)
    | inr err => inr err
    end.
Proof. spell. unfold parseArg, after. simpl. reflexivity. Qed.

Lemma parseArg_splitting_value kind v st :
  parseArg' kind ("--splitting=" +:+ v) st =
    if isBuild st.(options) then
      match parseBoolFlag Quote ("--splitting=" +:+ v) true with
      | inl value => inl (setSplitting value st)
      | inr err => inr err
      end
    else inr (invalidFlag Quote ("--splitting=" +:+ v) st.(options)).
Proof.
  spell. unfold parseArg, after. simpl.
  destruct (isBuild (options st)); reflexivity.
Qed.

Lemma parseBoolFlag_other flag v defaultValue :
  strings.IndexByte flag "=" = None ->
  v <> "true" -> v <> "false" ->
  exists err, parseBoolFlag Quote (flag +:+ "=" +:+ v) defaultValue = inr err.
Proof.
  intros H Ht Hf. rewrite parseBoolFlag_value by assumption.
  destruct (String.eqb_spec v "false"); [contradiction|].
  destruct (String.eqb_spec v "true"); [contradiction|]. eauto.
Qed.

(** The switch, case by case: [switch_case tac] splits on the guard of the
    first case and closes the case with [tac]. *)
Ltac switch_case tac :=
  lazymatch goal with
  | |- (if ?c then _ else _) = _ -> _ =>
      let E := fresh "Hcase" in destruct c eqn:E; [ solve [tac] | ]
  end.

(** A case that succeeds assigns to the state: read the new state off the
    equation, in each branch of the case. *)
Ltac case_result :=
  unfold withBool, withKeyValue;
  repeat case_match; try discriminate;
  let H := fresh in intros H; injection H as <-.

(** A flag, that is an argument that starts with a dash, changes neither
    the kind of options nor the entry points; a flag other than the two
    source map flags changes neither [hasBareSourceMapFlag] nor the
    source map option. *)
Lemma parseArg_flag_frame kind arg st st' :
  parseArg' kind arg st = inl st' ->
  strings.HasPrefix arg "-" = true ->
  isBuild st'.(options) = isBuild st.(options)
  /\ entryPointsOf st'.(options) = entryPointsOf st.(options)
  /\ entryPointsAdvancedOf st'.(options) = entryPointsAdvancedOf st.(options)
  /\ (String.eqb arg "--sourcemap" = false ->
      strings.HasPrefix arg "--sourcemap=" = false ->
      st'.(hasBareSourceMapFlag) = st.(hasBareSourceMapFlag)
      /\ sourcemapOf st'.(options) = sourcemapOf st.(options)).
Proof.
  intros Hparse Hdash. revert Hparse.
  destruct st as [o x isBare n].
  unfold parseArg. cbv zeta. cbn [options].
  repeat switch_case ltac:(
    case_result; destruct o; cbn;
    repeat split; try reflexivity; intros; congruence).
  rewrite Hdash. cbn. discriminate.
Qed.

(** An argument without a dash is an entry point when building, unless it
    starts with a single quote and two dashes; it is an unknown flag when
    transforming. *)
Lemma parseArg_noDash kind arg st :
  strings.HasPrefix arg "-" = false ->
  parseArg' kind arg st =
    if strings.HasPrefix arg "'--" then
      inr (MakeErrorWithNote
             ("Unexpected single quote character before flag: " +:+ arg)
             ("This typically happens when attempting to use single quotes to quote arguments with a shell that doesn't recognize single quotes. "
              +:+ "Try using double quote characters to quote arguments instead."))
    else if isBuild st.(options) then
      match strings.IndexByte arg "=" with
      | Some equals =>
          inl (setOptions (assignBuild
            (fun b => BuildOptions.set_EntryPointsAdvanced
                        (b.(BuildOptions.EntryPointsAdvanced)
                           ++ [{| api.OutputPath := sliceTo equals arg;
                                  api.InputPath := sliceFrom (equals + 1) arg |}]) b)) st)
      | None =>
          inl (setOptions (assignBuild
            (fun b => BuildOptions.set_EntryPoints
                        (b.(BuildOptions.EntryPoints) ++ [arg]) b)) st)
      end
    else inr (invalidFlag Quote arg st.(options)).
Proof.
  intros Hdash. destruct arg as [|c s].
  - unfold parseArg, isBoolFlag. simpl. reflexivity.
  - simpl in Hdash. rewrite andb_true_r in Hdash.
    unfold parseArg, isBoolFlag. simpl. rewrite Hdash. simpl. reflexivity.
Qed.

Lemma HasPrefix_app s p :
  strings.HasPrefix s p = true -> s = p +:+ sliceFrom (String.length p) s.
Proof.
  revert s. induction p as [|c p IH]; intros s H; [reflexivity|].
  destruct s as [|d s]; [discriminate|]. simpl in H.
  apply andb_true_iff in H as [Hd Hp]. apply Ascii.eqb_eq in Hd as ->.
  rewrite append_cons. simpl. f_equal. apply IH, Hp.
Qed.

Lemma cut_IndexByte s c :
  strings.cut s c =
    match strings.IndexByte s c with
    | Some i => (sliceTo i s, Some (sliceFrom (i + 1) s))
    | None => (s, None)
    end.
Proof.
  induction s as [|d s IH]; [reflexivity|]. simpl.
  destruct (Ascii.eqb d c); [reflexivity|].
  rewrite IH. destruct (strings.IndexByte s c); reflexivity.
Qed.

(** What the two source map flags do. *)
Lemma parseArg_sourcemap_bare kind st :
  parseArg' kind "--sourcemap" st =
    inl (setBare true
           (setOptions (assign (BuildOptions.set_Sourcemap api.SourceMapLinked)
                               (TransformOptions.set_Sourcemap api.SourceMapInline)) st)).
Proof. reflexivity. Qed.

Lemma parseArg_sourcemap_value kind v st st' :
  parseArg' kind ("--sourcemap=" +:+ v) st = inl st' ->
  exists sourcemap,
    st' = setBare false
            (setOptions (assign (BuildOptions.set_Sourcemap sourcemap)
                                (TransformOptions.set_Sourcemap sourcemap)) st).
Proof.
  spell. unfold parseArg, after. simpl.
  repeat case_match; try discriminate; intros [= <-]; eauto.
Qed.

Lemma plainEntryPoints_cons arg rest :
  plainEntryPoints (arg :: rest) =
    (if noDash arg && negb (strings.ContainsRune arg "=") then [arg] else [])
    ++ plainEntryPoints rest.
Proof.
  unfold plainEntryPoints. cbn [List.filter].
  destruct (noDash arg && negb (strings.ContainsRune arg "=")); reflexivity.
Qed.

Lemma advancedEntryPoints_cons arg rest :
  advancedEntryPoints (arg :: rest) =
    (if noDash arg then
       match splitAtEquals arg with
       | Some (before, rest) => [{| api.InputPath := rest; api.OutputPath := before |}]
       | None => []
       end
     else [])
    ++ advancedEntryPoints rest.
Proof.
  unfold advancedEntryPoints. cbn [omap list_omap].
  destruct (noDash arg); [|reflexivity].
  destruct (splitAtEquals arg) as [[before after]|]; reflexivity.
Qed.

(** The effect of one argument on what the statements below read: the
    kind of options, the entry points, the flag [hasBareSourceMapFlag],
    and the fact that the flag is only set when the build's source map
    option is [linked]. *)
Lemma parseArg_step kind arg st st' :
  parseArg' kind arg st = inl st' ->
  isBuild st'.(options) = isBuild st.(options)
  /\ entryPointsOf st'.(options)
      = entryPointsOf st.(options)
          ++ (if isBuild st.(options) then plainEntryPoints [arg] else [])
  /\ entryPointsAdvancedOf st'.(options)
      = entryPointsAdvancedOf st.(options)
          ++ (if isBuild st.(options) then advancedEntryPoints [arg] else [])
  /\ st'.(hasBareSourceMapFlag)
      = (if String.eqb arg "--sourcemap" then true
         else if strings.HasPrefix arg "--sourcemap=" then false
         else st.(hasBareSourceMapFlag))
  /\ (isBuild st.(options) = true ->
      (st.(hasBareSourceMapFlag) = true ->
       sourcemapOf st.(options) = api.SourceMapLinked) ->
      st'.(hasBareSourceMapFlag) = true ->
      sourcemapOf st'.(options) = api.SourceMapLinked).
Proof.
  intros Hparse.
  destruct (strings.HasPrefix arg "-") eqn:Hdash.
  - (* a flag *)
    assert (Hplain : plainEntryPoints [arg] = []).
    { rewrite plainEntryPoints_cons. unfold noDash. rewrite Hdash. reflexivity. }
    assert (Hadv : advancedEntryPoints [arg] = []).
    { rewrite advancedEntryPoints_cons. unfold noDash. rewrite Hdash. reflexivity. }
    rewrite Hplain, Hadv.
    assert (Hnil : forall A (l : list A) (b : bool), l ++ (if b then [] else []) = l).
    { intros A l []; apply app_nil_r. }
    rewrite !Hnil.
    destruct (String.eqb_spec arg "--sourcemap") as [->|Hne].
    { rewrite parseArg_sourcemap_bare in Hparse. injection Hparse as <-.
      destruct st as [[b|t] x isBare n]; cbn; repeat split; congruence. }
    destruct (strings.HasPrefix arg "--sourcemap=") eqn:Hvalue.
    { rewrite (HasPrefix_app _ _ Hvalue) in Hparse.
      apply parseArg_sourcemap_value in Hparse as [sourcemap ->].
      destruct st as [[b|t] x isBare n]; cbn; repeat split; congruence. }
    destruct (parseArg_flag_frame kind arg st st' Hparse Hdash)
      as (Hkind & Hentry & Hadvanced & Hsm).
    destruct Hsm as [HisBare Hsourcemap];
      [ apply String.eqb_neq; assumption | assumption | ].
    rewrite HisBare, Hsourcemap. repeat split; auto.
  - (* not a flag *)
    assert (Heqb : String.eqb arg "--sourcemap" = false).
    { apply String.eqb_neq. intros ->. discriminate. }
    assert (Hvalue : strings.HasPrefix arg "--sourcemap=" = false).
    { destruct arg as [|c s]; [reflexivity|]. simpl in Hdash |- *.
      rewrite andb_true_r in Hdash. rewrite Hdash. reflexivity. }
    rewrite Heqb, Hvalue.
    rewrite parseArg_noDash in Hparse by assumption.
    rewrite plainEntryPoints_cons, advancedEntryPoints_cons.
    unfold noDash, splitAtEquals, strings.ContainsRune.
    rewrite Hdash, cut_IndexByte. cbn [negb andb].
    change (plainEntryPoints []) with (@nil string).
    change (advancedEntryPoints []) with (@nil api.EntryPoint).
    rewrite !app_nil_r.
    destruct (strings.HasPrefix arg "'--"); [discriminate|].
    destruct st as [[b|t] x isBare n]; cbn in Hparse |- *; [|discriminate].
    destruct (strings.IndexByte arg "=") as [equals|];
      injection Hparse as <-; cbn; rewrite ?app_nil_r; repeat split; auto.
Qed.

(** The same over a whole argument list that parses. *)
Lemma parseArgs_steps kind osArgs st st' :
  parseArgs' kind osArgs st = (st', None) ->
  isBuild st'.(options) = isBuild st.(options)
  /\ entryPointsOf st'.(options)
      = entryPointsOf st.(options)
          ++ (if isBuild st.(options) then plainEntryPoints osArgs else [])
  /\ entryPointsAdvancedOf st'.(options)
      = entryPointsAdvancedOf st.(options)
          ++ (if isBuild st.(options) then advancedEntryPoints osArgs else [])
  /\ st'.(hasBareSourceMapFlag)
      = fold_left (fun isBare arg =>
                     if String.eqb arg "--sourcemap" then true
                     else if strings.HasPrefix arg "--sourcemap=" then false
                     else isBare) osArgs st.(hasBareSourceMapFlag)
  /\ (isBuild st.(options) = true ->
      (st.(hasBareSourceMapFlag) = true ->
       sourcemapOf st.(options) = api.SourceMapLinked) ->
      st'.(hasBareSourceMapFlag) = true ->
      sourcemapOf st'.(options) = api.SourceMapLinked).
Proof.
  revert st. induction osArgs as [|arg rest IH]; intros st Hparse.
  - injection Hparse as <-. cbn [fold_left].
    destruct (isBuild (options st)); rewrite !app_nil_r; auto.
  - cbn [parseArgs] in Hparse.
    destruct (parseArg' kind arg st) as [st1|err] eqn:Harg; [|discriminate].
    apply parseArg_step in Harg as (Hkind1 & Hentry1 & Hadv1 & Hbare1 & Hsm1).
    apply IH in Hparse as (Hkind & Hentry & Hadv & Hbare & Hsm).
    rewrite Hkind1 in *.
    assert (Hlinked : isBuild (options st) = true ->
              (hasBareSourceMapFlag st = true ->
               sourcemapOf (options st) = api.SourceMapLinked) ->
              hasBareSourceMapFlag st' = true ->
              sourcemapOf (options st') = api.SourceMapLinked) by auto.
    revert Hlinked.
    rewrite Hentry, Hentry1, Hadv, Hadv1, Hbare, Hbare1. intros Hlinked.
    rewrite (plainEntryPoints_cons arg rest), (advancedEntryPoints_cons arg rest).
    rewrite (plainEntryPoints_cons arg []), (advancedEntryPoints_cons arg []).
    change (plainEntryPoints []) with (@nil string).
    change (advancedEntryPoints []) with (@nil api.EntryPoint).
    rewrite !app_nil_r. cbn [fold_left].
    repeat split; auto.
    + destruct (isBuild (options st)); rewrite ?app_nil_r, <- ?app_assoc; reflexivity.
    + destruct (isBuild (options st)); rewrite ?app_nil_r, <- ?app_assoc; reflexivity.
Qed.

Lemma parseOptionsImpl_ok kind osArgs o o' x :
  parseOptionsImpl' osArgs o kind = (o', x, None) ->
  exists st,
    parseArgs' kind osArgs (mkState o noExtras false 0) = (st, None)
    /\ o' = bareSourceMapFallback st
    /\ x = st.(extras).
Proof.
  unfold parseOptionsImpl.
  destruct (parseArgs' kind osArgs _) as [st [err|]]; [discriminate|].
  intros [= <- <-]. eauto.
Qed.

Lemma bareSourceMapFallback_frame st :
  isBuild (bareSourceMapFallback st) = isBuild st.(options)
  /\ entryPointsOf (bareSourceMapFallback st) = entryPointsOf st.(options)
  /\ entryPointsAdvancedOf (bareSourceMapFallback st)
      = entryPointsAdvancedOf st.(options).
Proof.
  unfold bareSourceMapFallback. destruct (options st) as [b|t]; [|auto].
  destruct (_ && _); auto.
Qed.

(** Parsing keeps the kind of options it was given. *)
Lemma parseOptionsImpl_isBuild kind osArgs o o' extras :
  parseOptionsImpl' osArgs o kind = (o', extras, None) ->
  isBuild o' = isBuild o.
Proof.
  intros (st & Hargs & -> & _)%parseOptionsImpl_ok.
  apply parseArgs_steps in Hargs as (Hkind & _).
  destruct (bareSourceMapFallback_frame st) as (-> & _). exact Hkind.
Qed.

(** C4, as amended. When building, an argument that starts neither with a
    dash nor with a single quote and two dashes is always accepted as an
    entry point; an argument that starts with a single quote and two
    dashes makes the parse fail; and after a parse that succeeds the two
    lists of entry points are the ones parsing started with followed by
    the arguments without a dash in command-line order: those without [=]
    unchanged in [EntryPoints], those with [=] in [EntryPointsAdvanced],
    with the text before the first [=] as [OutputPath] and the text after
    it as [InputPath]. *)
Theorem entry_points_in_order kind :
  (forall arg st,
     noDash arg = true -> strings.HasPrefix arg "'--" = false ->
     isBuild st.(options) = true ->
     exists st',
       parseArg' kind arg st = inl st'
       /\ entryPointsOf st'.(options)
           = entryPointsOf st.(options) ++ plainEntryPoints [arg]
       /\ entryPointsAdvancedOf st'.(options)
           = entryPointsAdvancedOf st.(options) ++ advancedEntryPoints [arg])
  /\ (forall arg osArgs o,
        strings.HasPrefix arg "'--" = true -> In arg osArgs ->
        exists o' err, parseOptionsImpl' osArgs o kind = (o', noExtras, Some err))
  /\ (forall osArgs b0 o extras,
        parseOptionsImpl' osArgs (BuildOpts b0) kind = (o, extras, None) ->
        exists b,
          o = BuildOpts b
          /\ b.(BuildOptions.EntryPoints)
              = b0.(BuildOptions.EntryPoints) ++ plainEntryPoints osArgs
          /\ b.(BuildOptions.EntryPointsAdvanced)
              = b0.(BuildOptions.EntryPointsAdvanced) ++ advancedEntryPoints osArgs).
Proof.
  split; [|split].
  - intros arg st Hdash Hquote Hbuild.
    unfold noDash in Hdash. apply negb_true_iff in Hdash.
    assert (exists st', parseArg' kind arg st = inl st') as [st' Hst'].
    { rewrite parseArg_noDash, Hquote, Hbuild by assumption.
      destruct (strings.IndexByte arg "="); eauto. }
    exists st'. split; [assumption|].
    apply parseArg_step in Hst' as (_ & Hentry & Hadv & _).
    rewrite Hbuild in Hentry, Hadv. auto.
  - intros arg osArgs o Hquote Hin.
    apply parseOptionsImpl_failing with (arg := arg); [assumption|].
    intros st. rewrite parseArg_noDash, Hquote; [eauto|].
    destruct arg as [|c s]; [discriminate|]. simpl in Hquote |- *.
    apply andb_true_iff in Hquote as [Hc _]. apply Ascii.eqb_eq in Hc as ->.
    reflexivity.
  - intros osArgs b0 o extras (st & Hargs & -> & _)%parseOptionsImpl_ok.
    apply parseArgs_steps in Hargs as (Hkind & Hentry & Hadv & _).
    destruct (bareSourceMapFallback_frame st) as (Hkind' & Hentry' & Hadv').
    cbn in Hkind, Hentry, Hadv.
    destruct (bareSourceMapFallback st) as [b|t] eqn:Hfinal.
    + exists b. cbn in Hentry', Hadv'. rewrite Hentry', Hadv'. auto.
    + cbn in Hkind'. congruence.
Qed.

(** C9. When building, if the last source map flag of the arguments is
    the bare [--sourcemap] and the parse succeeds, the final source map
    option is [inline] when neither [Outfile] nor [Outdir] is set, and
    stays [linked] when one of them is. *)
Theorem bare_sourcemap_fallback kind osArgs b0 b extras :
  parseOptionsImpl' osArgs (BuildOpts b0) kind = (BuildOpts b, extras, None) ->
  lastSourceMapFlagIsBare osArgs = true ->
  b.(BuildOptions.Sourcemap)
  = if String.eqb b.(BuildOptions.Outfile) "" && String.eqb b.(BuildOptions.Outdir) ""
    then api.SourceMapInline else api.SourceMapLinked.
Proof.
  intros (st & Hargs & Hfinal & _)%parseOptionsImpl_ok Hlast.
  apply parseArgs_steps in Hargs as (Hkind & _ & _ & Hbare & Hlinked).
  cbn [options hasBareSourceMapFlag isBuild] in Hkind, Hbare, Hlinked.
  unfold lastSourceMapFlagIsBare in Hlast.
  rewrite Hlast in Hbare.
  specialize (Hlinked eq_refl ltac:(discriminate) Hbare).
  unfold bareSourceMapFallback in Hfinal. rewrite Hbare in Hfinal.
  destruct (options st) as [b'|t]; [|discriminate]. cbn in Hlinked, Hfinal.
  destruct (String.eqb (BuildOptions.Outfile b') "" && String.eqb (BuildOptions.Outdir b') "")
    eqn:Hout; injection Hfinal as ->; cbn.
  - cbn in Hout. rewrite Hout. reflexivity.
  - rewrite Hout. exact Hlinked.
Qed.

(** Build options come without transform options and without an error. *)
Lemma parseOptionsForRun_build osArgs b t x err :
  parseOptionsForRun' osArgs = (Some b, t, x, err) -> t = None /\ err = None.
Proof.
  unfold parseOptionsForRun.
  destruct (existsb isArgForBuild osArgs);
    destruct (parseOptionsImpl' osArgs _ kindInternal) as [[o x'] [e|]];
    try (destruct o; discriminate).
  - destruct o; intros [= <- <- <- <-]; auto.
  - destruct o as [b'|t']; [discriminate|].
    destruct (TransformOptions.Sourcemap t'); discriminate.
Qed.

Lemma isArgForBuild_spec arg :
  isArgForBuild arg = true <-> strings.HasPrefix arg "-" = false \/ arg = "--bundle".
Proof.
  unfold isArgForBuild. rewrite orb_true_iff, negb_true_iff, String.eqb_eq. reflexivity.
Qed.

(** C8. [parseOptionsForRun] returns exactly one of build options,
    transform options, or an error with no options, never two of them.
    Some argument is for a build exactly when some argument does not start
    with a dash or is [--bundle]; in that case, and only in that case, the
    arguments are parsed into build options, so that build options are
    returned only then and transform options only otherwise. *)
Theorem mode_selection osArgs :
  let '(buildOptions, transformOptions, x, err) := parseOptionsForRun' osArgs in
  ((exists b, buildOptions = Some b /\ transformOptions = None /\ err = None)
   \/ (exists t, buildOptions = None /\ transformOptions = Some t /\ err = None)
   \/ (exists e, buildOptions = None /\ transformOptions = None /\ err = Some e
                 /\ x = noExtras))
  /\ (existsb isArgForBuild osArgs = true
      <-> exists arg, In arg osArgs
                      /\ (strings.HasPrefix arg "-" = false \/ arg = "--bundle"))
  /\ (is_Some buildOptions -> existsb isArgForBuild osArgs = true)
  /\ (is_Some transformOptions -> existsb isArgForBuild osArgs = false)
  /\ (existsb isArgForBuild osArgs = true ->
      exists b0 o x',
        parseOptionsImpl' osArgs (BuildOpts b0) kindInternal = (o, x', err)
        /\ (err = None -> exists b, o = BuildOpts b /\ buildOptions = Some b /\ x = x'))
  /\ (existsb isArgForBuild osArgs = false ->
      exists t0 o x' e,
        parseOptionsImpl' osArgs (TransformOpts t0) kindInternal = (o, x', e)
        /\ (forall e', e = Some e' -> err = Some e')
        /\ (forall t, transformOptions = Some t -> o = TransformOpts t)).
Proof.
  assert (Hany : existsb isArgForBuild osArgs = true
                 <-> exists arg, In arg osArgs
                       /\ (strings.HasPrefix arg "-" = false \/ arg = "--bundle")).
  { rewrite existsb_exists. split; intros (arg & Hin & Harg); exists arg;
      (split; [assumption | apply isArgForBuild_spec; assumption]). }
  unfold parseOptionsForRun.
  destruct (existsb isArgForBuild osArgs) eqn:Hmode.
  - (* building *)
    destruct (parseOptionsImpl' osArgs _ kindInternal) as [[o x] [e|]] eqn:Hparse.
    + destruct o; cbv beta iota zeta; split_and!;
        try exact Hany; try reflexivity; try discriminate; try (intros [? [=]]; fail);
        try (right; right; eauto; fail);
        intros _; do 3 eexists; (split; [exact Hparse | discriminate]).
    + pose proof (parseOptionsImpl_isBuild _ _ _ _ _ Hparse) as Hkind.
      destruct o as [b|t]; [|discriminate Hkind].
      cbv beta iota zeta. split_and!.
      * left. eauto.
      * exact Hany.
      * reflexivity.
      * intros [? [=]].
      * intros _. do 3 eexists. split; [exact Hparse | eauto].
      * discriminate.
  - (* transforming *)
    destruct (parseOptionsImpl' osArgs _ kindInternal) as [[o x] [e|]] eqn:Hparse.
    + destruct o; cbv beta iota zeta; split_and!;
        try exact Hany; try reflexivity; try discriminate; try (intros [? [=]]; fail);
        try (right; right; eauto; fail);
        intros _; do 4 eexists; (split; [exact Hparse | split; [auto | discriminate]]).
    + pose proof (parseOptionsImpl_isBuild _ _ _ _ _ Hparse) as Hkind.
      destruct o as [b|t]; [discriminate Hkind|].
      cbv beta iota. destruct (TransformOptions.Sourcemap t); cbv beta iota zeta; split_and!;
        try reflexivity; try discriminate; try (intros [? [=]]; fail);
        try exact Hany;
        try (right; right; eauto; fail); try (right; left; eauto; fail);
        intros _; do 4 eexists;
        (split; [exact Hparse | split; [discriminate | congruence]]).
Qed.

(** *** The format, tree shaking and splitting options, read in the result *)

Lemma append_nil_r s : s +:+ "" = s.
Proof. induction s as [|c s IH]; [reflexivity|]. rewrite append_cons, IH. reflexivity. Qed.

Lemma HasPrefix_append p s : strings.HasPrefix (p +:+ s) p = true.
Proof.
  induction p as [|c p IH]; [reflexivity|].
  rewrite append_cons. cbn [strings.HasPrefix]. rewrite Ascii.eqb_refl, IH. reflexivity.
Qed.

Lemma sliceFrom_append p s : sliceFrom (String.length p) (p +:+ s) = s.
Proof. induction p as [|c p IH]; [reflexivity|]. rewrite append_cons. exact IH. Qed.

(** The two forms of a boolean flag: the flag itself, and the flag
    followed by [=] and a value. *)
Lemma isBoolFlag_cases arg flag :
  isBoolFlag arg flag = true -> arg = flag \/ exists v, arg = flag +:+ "=" +:+ v.
Proof.
  unfold isBoolFlag.
  destruct (strings.HasPrefix arg flag) eqn:Hp; [|discriminate].
  apply HasPrefix_app in Hp.
  destruct (sliceFrom (String.length flag) arg) as [|c rest].
  - intros _. left. rewrite Hp. apply append_nil_r.
  - intros ->%Ascii.eqb_eq. right. exists rest. exact Hp.
Qed.

Lemma isBoolFlag_bare flag : isBoolFlag flag flag = true.
Proof.
  unfold isBoolFlag.
  pose proof (HasPrefix_append flag "") as Hp.
  pose proof (sliceFrom_append flag "") as Hs.
  rewrite append_nil_r in Hp, Hs. rewrite Hp, Hs. reflexivity.
Qed.

Lemma isBoolFlag_value flag v : isBoolFlag (flag +:+ "=" +:+ v) flag = true.
Proof.
  unfold isBoolFlag. rewrite HasPrefix_append, sliceFrom_append. reflexivity.
Qed.

(** An argument that is not of these forms gives the flag no value. *)
Lemma boolFlagValue_other flag arg :
  isBoolFlag arg flag = false -> boolFlagValue flag arg = None.
Proof.
  intros Hflag. unfold boolFlagValue.
  destruct (String.eqb_spec arg flag) as [->|_].
  { rewrite isBoolFlag_bare in Hflag. discriminate. }
  destruct (String.eqb_spec arg (flag +:+ "=true")) as [->|_].
  { change (flag +:+ "=true") with (flag +:+ "=" +:+ "true") in Hflag.
    rewrite isBoolFlag_value in Hflag. discriminate. }
  destruct (String.eqb_spec arg (flag +:+ "=false")) as [->|_]; [|reflexivity].
  change (flag +:+ "=false") with (flag +:+ "=" +:+ "false") in Hflag.
  rewrite isBoolFlag_value in Hflag. discriminate.
Qed.

(** Reading a field after the assignment that the statements name. *)
Lemma formatOf_setFormat format st : formatOf (setFormat format st).(options) = format.
Proof. destruct st as [[b|t] x isBare n]; reflexivity. Qed.

Lemma treeShakingOf_setTreeShaking treeShaking st :
  treeShakingOf (setTreeShaking treeShaking st).(options) = treeShaking.
Proof. destruct st as [[b|t] x isBare n]; reflexivity. Qed.

Lemma splittingOf_setSplitting value st :
  isBuild st.(options) = true -> splittingOf (setSplitting value st).(options) = value.
Proof. destruct st as [[b|t] x isBare n]; [reflexivity | discriminate]. Qed.

(** A case other than the one of the flag leaves the option alone. *)
Lemma parseArg_option_frame kind arg st st' :
  parseArg' kind arg st = inl st' ->
  (strings.HasPrefix arg "--format=" = false ->
   formatOf st'.(options) = formatOf st.(options))
  /\ (isBoolFlag arg "--tree-shaking" = false ->
      treeShakingOf st'.(options) = treeShakingOf st.(options))
  /\ (isBoolFlag arg "--splitting" = false ->
      splittingOf st'.(options) = splittingOf st.(options)).
Proof.
  intros Hparse. revert Hparse.
  destruct st as [o x isBare n].
  unfold parseArg. cbv zeta. cbn [options].
  repeat first_case ltac:(
    assigned; destruct o; cbn in *;
    repeat split; try reflexivity; try discriminate; intros; congruence).
  discriminate.
Qed.

(** What one argument does to the format. *)
Lemma parseArg_format_step kind arg st st' :
  parseArg' kind arg st = inl st' ->
  formatOf st'.(options)
  = if strings.HasPrefix arg "--format=" then
      match formatNamed (after "--format=" arg) with
      | Some named => named
      | None => formatOf st.(options)
      end
    else formatOf st.(options).
Proof.
  intros Hparse.
  destruct (strings.HasPrefix arg "--format=") eqn:Hflag.
  - pose proof (HasPrefix_app _ _ Hflag) as Harg.
    fold (after "--format=" arg) in Harg.
    revert Harg. generalize (after "--format=" arg). intros v ->.
    rewrite parseArg_format in Hparse. unfold formatNamed.
    destruct (String.eqb v "iife"); [injection Hparse as <-; apply formatOf_setFormat|].
    destruct (String.eqb v "cjs"); [injection Hparse as <-; apply formatOf_setFormat|].
    destruct (String.eqb v "esm"); [injection Hparse as <-; apply formatOf_setFormat|].
    discriminate.
  - apply parseArg_option_frame in Hparse as (Hformat & _). auto.
Qed.

(** The value that a flag of the second form gives. *)
Lemma boolFlagValue_tree_shaking v :
  boolFlagValue "--tree-shaking" ("--tree-shaking=" +:+ v)
  = if String.eqb v "false" then Some false
    else if String.eqb v "true" then Some true else None.
Proof.
  unfold boolFlagValue. spell. simpl.
  destruct (String.eqb_spec v "true") as [->|_]; [reflexivity|].
  destruct (String.eqb v "false"); reflexivity.
Qed.

Lemma boolFlagValue_splitting v :
  boolFlagValue "--splitting" ("--splitting=" +:+ v)
  = if String.eqb v "false" then Some false
    else if String.eqb v "true" then Some true else None.
Proof.
  unfold boolFlagValue. spell. simpl.
  destruct (String.eqb_spec v "true") as [->|_]; [reflexivity|].
  destruct (String.eqb v "false"); reflexivity.
Qed.

(** What one argument does to the tree shaking option. *)
Lemma parseArg_tree_shaking_step kind arg st st' :
  parseArg' kind arg st = inl st' ->
  treeShakingOf st'.(options)
  = match boolFlagValue "--tree-shaking" arg with
    | Some true => api.TreeShakingTrue
    | Some false => api.TreeShakingFalse
    | None => treeShakingOf st.(options)
    end.
Proof.
  intros Hparse.
  destruct (isBoolFlag arg "--tree-shaking") eqn:Hflag.
  - apply isBoolFlag_cases in Hflag as [-> | [v ->]].
    + injection Hparse as <-.
      change (treeShakingOf (options (setTreeShaking api.TreeShakingTrue st))
              = api.TreeShakingTrue).
      apply treeShakingOf_setTreeShaking.
    + change ("--tree-shaking" +:+ "=" +:+ v) with ("--tree-shaking=" +:+ v) in *.
      rewrite parseArg_tree_shaking_value in Hparse.
      pose proof (parseBoolFlag_value "--tree-shaking" v true eq_refl) as Hvalue.
      change ("--tree-shaking" +:+ "=" +:+ v) with ("--tree-shaking=" +:+ v) in Hvalue.
      rewrite Hvalue in Hparse. rewrite boolFlagValue_tree_shaking.
      destruct (String.eqb v "false");
        [injection Hparse as <-; apply treeShakingOf_setTreeShaking|].
      destruct (String.eqb v "true");
        [injection Hparse as <-; apply treeShakingOf_setTreeShaking|].
      discriminate.
  - rewrite boolFlagValue_other by assumption.
    apply parseArg_option_frame in Hparse as (_ & Hts & _). auto.
Qed.

Lemma parseArg_splitting_bare kind st :
  parseArg' kind "--splitting" st =
    if isBuild st.(options) then inl (setSplitting true st)
    else inr (invalidFlag Quote "--splitting" st.(options)).
Proof.
  unfold parseArg. simpl. destruct (isBuild (options st)); reflexivity.
Qed.

(** What one argument does to the splitting option. *)
Lemma parseArg_splitting_step kind arg st st' :
  parseArg' kind arg st = inl st' ->
  splittingOf st'.(options)
  = match boolFlagValue "--splitting" arg with
    | Some value => value
    | None => splittingOf st.(options)
    end.
Proof.
  intros Hparse.
  destruct (isBoolFlag arg "--splitting") eqn:Hflag.
  - apply isBoolFlag_cases in Hflag as [-> | [v ->]].
    + rewrite parseArg_splitting_bare in Hparse.
      destruct (isBuild (options st)) eqn:Hbuild; [|discriminate].
      injection Hparse as <-. apply splittingOf_setSplitting, Hbuild.
    + change ("--splitting" +:+ "=" +:+ v) with ("--splitting=" +:+ v) in *.
      rewrite parseArg_splitting_value in Hparse.
      destruct (isBuild (options st)) eqn:Hbuild; [|discriminate].
      pose proof (parseBoolFlag_value "--splitting" v true eq_refl) as Hvalue.
      change ("--splitting" +:+ "=" +:+ v) with ("--splitting=" +:+ v) in Hvalue.
      rewrite Hvalue in Hparse. rewrite boolFlagValue_splitting.
      destruct (String.eqb v "false");
        [injection Hparse as <-; apply splittingOf_setSplitting, Hbuild|].
      destruct (String.eqb v "true");
        [injection Hparse as <-; apply splittingOf_setSplitting, Hbuild|].
      discriminate.
  - rewrite boolFlagValue_other by assumption.
    apply parseArg_option_frame in Hparse as (_ & _ & Hsplitting). auto.
Qed.

(** What the loop does to a reading of the state that each argument
    changes by [step]. *)
Lemma parseArgs_fold {A : Type} (obs : ParseState -> A) (step : A -> string -> A) kind :
  (forall arg st st', parseArg' kind arg st = inl st' -> obs st' = step (obs st) arg) ->
  forall osArgs st st',
    parseArgs' kind osArgs st = (st', None) -> obs st' = fold_left step osArgs (obs st).
Proof.
  intros Hstep osArgs. induction osArgs as [|arg rest IH]; intros st st'; cbn [parseArgs].
  - intros [= <-]. reflexivity.
  - destruct (parseArg' kind arg st) as [st1|e] eqn:Harg; [|discriminate].
    intros Hrest. cbn [fold_left]. rewrite <- (Hstep _ _ _ Harg). apply IH, Hrest.
Qed.

Lemma bareSourceMapFallback_options st :
  formatOf (bareSourceMapFallback st) = formatOf st.(options)
  /\ treeShakingOf (bareSourceMapFallback st) = treeShakingOf st.(options)
  /\ splittingOf (bareSourceMapFallback st) = splittingOf st.(options).
Proof.
  unfold bareSourceMapFallback. destruct (options st) as [b|t]; [|auto].
  destruct (_ && _); auto.
Qed.

(** After a parse that succeeds, the three options are those of the last
    flag that names them. *)
Lemma parseOptionsImpl_last kind osArgs o o' x :
  parseOptionsImpl' osArgs o kind = (o', x, None) ->
  formatOf o' = lastFormat osArgs (formatOf o)
  /\ treeShakingOf o' = lastTreeShaking osArgs (treeShakingOf o)
  /\ splittingOf o' = lastSplitting osArgs (splittingOf o).
Proof.
  intros (st & Hargs & -> & _)%parseOptionsImpl_ok.
  destruct (bareSourceMapFallback_options st) as (-> & -> & ->).
  split_and!.
  - apply (parseArgs_fold (fun s => formatOf s.(options)) _ kind
             (fun arg s s' => parseArg_format_step kind arg s s') _ _ _ Hargs).
  - apply (parseArgs_fold (fun s => treeShakingOf s.(options)) _ kind
             (fun arg s s' => parseArg_tree_shaking_step kind arg s s') _ _ _ Hargs).
  - apply (parseArgs_fold (fun s => splittingOf s.(options)) _ kind
             (fun arg s s' => parseArg_splitting_step kind arg s s') _ _ _ Hargs).
Qed.

(** The options that [parseOptionsForRun] returns are those that
    [parseOptionsImpl] leaves of the defaults of the CLI. *)
Lemma parseOptionsForRun_parsed osArgs buildOptions transformOptions x err :
  parseOptionsForRun' osArgs = (buildOptions, transformOptions, x, err) ->
  (forall b, buildOptions = Some b ->
     exists x',
       parseOptionsImpl' osArgs
         (BuildOpts (BuildOptions.set_Write true
                       (BuildOptions.set_LogLevel api.LogLevelInfo
                          (BuildOptions.set_LogLimit 6 newBuildOptions)))) kindInternal
       = (BuildOpts b, x', None))
  /\ (forall t, transformOptions = Some t ->
        exists x',
          parseOptionsImpl' osArgs
            (TransformOpts (TransformOptions.set_LogLevel api.LogLevelInfo
                              (TransformOptions.set_LogLimit 6 newTransformOptions)))
            kindInternal
          = (TransformOpts t, x', None)).
Proof.
  unfold parseOptionsForRun.
  destruct (existsb isArgForBuild osArgs);
    destruct (parseOptionsImpl' osArgs _ kindInternal) as [[[b|t] x'] [e|]];
    try (intros [= <- <- <- <-]; split; intros ? [=]; subst; eauto; fail).
  destruct (TransformOptions.Sourcemap t);
    intros [= <- <- <- <-]; split; intros ? [=]; subst; eauto.
Qed.

(** C2. For every argument [--format=v], the case of the switch succeeds
    exactly when [v] is [iife], [cjs] or [esm]; the format read in the
    options of the new state is then [FormatIIFE], [FormatCommonJS] or
    [FormatESModule], and the new state is the old one with that format
    assigned. After a parse that succeeds, the format read in the options
    is the one that the last [--format=] flag names, and the one the
    options had when there is no such flag; so it is in the options that
    [parseOptionsForRun] returns, whose format starts as [FormatDefault].
    For any other [v], every argument list that contains the argument
    makes [parseOptionsImpl] return an error with empty extras, and
    [parseOptionsForRun] return no options. *)
Theorem format_flag kind v st :
  let arg := "--format=" +:+ v in
  ((exists st', parseArg' kind arg st = inl st')
     <-> (v = "iife" \/ v = "cjs" \/ v = "esm"))
  /\ (v = "iife" -> parseArg' kind arg st = inl (setFormat api.FormatIIFE st))
  /\ (v = "cjs" -> parseArg' kind arg st = inl (setFormat api.FormatCommonJS st))
  /\ (v = "esm" -> parseArg' kind arg st = inl (setFormat api.FormatESModule st))
  /\ (forall st', parseArg' kind arg st = inl st' ->
        (v = "iife" -> formatOf st'.(options) = api.FormatIIFE)
        /\ (v = "cjs" -> formatOf st'.(options) = api.FormatCommonJS)
        /\ (v = "esm" -> formatOf st'.(options) = api.FormatESModule))
  /\ (forall osArgs o o' x,
        parseOptionsImpl' osArgs o kind = (o', x, None) ->
        formatOf o' = lastFormat osArgs (formatOf o))
  /\ (forall osArgs b t x err,
        parseOptionsForRun' osArgs = (Some b, t, x, err) ->
        b.(BuildOptions.Format) = lastFormat osArgs api.FormatDefault)
  /\ (forall osArgs b t x err,
        parseOptionsForRun' osArgs = (b, Some t, x, err) ->
        t.(TransformOptions.Format) = lastFormat osArgs api.FormatDefault)
  /\ (~ (v = "iife" \/ v = "cjs" \/ v = "esm") ->
      (exists err, parseArg' kind arg st = inr err)
      /\ (forall osArgs o, In arg osArgs ->
            exists o' err, parseOptionsImpl' osArgs o kind = (o', noExtras, Some err))
      /\ (forall osArgs, In arg osArgs ->
            exists err, parseOptionsForRun' osArgs = (None, None, noExtras, Some err))).
Proof.
  cbv zeta.
  assert (Hstep := fun kind st => parseArg_format kind v st).
  assert (Hbad : ~ (v = "iife" \/ v = "cjs" \/ v = "esm") ->
                 forall kind st, exists err, parseArg' kind ("--format=" +:+ v) st = inr err).
  { intros Hv k s. rewrite Hstep.
    destruct (String.eqb_spec v "iife"); [tauto|].
    destruct (String.eqb_spec v "cjs"); [tauto|].
    destruct (String.eqb_spec v "esm"); [tauto|]. eauto. }
  split_and!.
  - split.
    + intros [st' Hst']. rewrite Hstep in Hst'.
      destruct (String.eqb_spec v "iife"); [tauto|].
      destruct (String.eqb_spec v "cjs"); [tauto|].
      destruct (String.eqb_spec v "esm"); [tauto|]. discriminate.
    + intros [-> | [-> | ->]]; rewrite Hstep; simpl; eauto.
  - intros ->. apply Hstep.
  - intros ->. apply Hstep.
  - intros ->. apply Hstep.
  - intros st' Hst'. rewrite Hstep in Hst'.
    split_and!; intros ->; injection Hst' as <-; apply formatOf_setFormat.
  - intros osArgs o o' x Hparse. apply parseOptionsImpl_last in Hparse as (H & _). exact H.
  - intros osArgs b t x err (Hb & _)%parseOptionsForRun_parsed.
    destruct (Hb b eq_refl) as [x' (H & _)%parseOptionsImpl_last]. exact H.
  - intros osArgs b t x err (_ & Ht)%parseOptionsForRun_parsed.
    destruct (Ht t eq_refl) as [x' (H & _)%parseOptionsImpl_last]. exact H.
  - intros Hv. split_and!.
    + apply Hbad; assumption.
    + intros osArgs o Hin. eapply parseOptionsImpl_failing; eauto.
    + intros osArgs Hin. eapply parseOptionsForRun_failing; eauto.
Qed.

(** C3. Tree shaking and code splitting are boolean flags of one grammar,
    that of [parseBoolFlag]: the bare flag says true, [=true] and [=false]
    say that value, and any other [=v] is an error that makes the whole
    parse fail. The tree shaking option read in the options of the new
    state is [TreeShakingTrue] for true and [TreeShakingFalse] for false;
    the splitting option, a field of the build options, is the value
    itself. After a parse that succeeds, the two options read in the
    options are those that the last [--tree-shaking] flag and the last
    [--splitting] flag ask for, and the ones the options had when there is
    no such flag; so they are in the options that [parseOptionsForRun]
    returns, which start as [TreeShakingDefault] and false. *)
Theorem tree_shaking_and_splitting_flags kind st b x isBare n v :
  let build := mkState (BuildOpts b) x isBare n in
  (forall flag, strings.IndexByte flag "=" = None ->
     parseBoolFlag Quote flag true = inl true
     /\ parseBoolFlag Quote (flag +:+ "=" +:+ "true") true = inl true
     /\ parseBoolFlag Quote (flag +:+ "=" +:+ "false") true = inl false
     /\ (v <> "true" -> v <> "false" ->
         exists err, parseBoolFlag Quote (flag +:+ "=" +:+ v) true = inr err))
  /\ parseArg' kind "--tree-shaking" st = inl (setTreeShaking api.TreeShakingTrue st)
  /\ parseArg' kind "--tree-shaking=true" st = inl (setTreeShaking api.TreeShakingTrue st)
  /\ parseArg' kind "--tree-shaking=false" st
      = inl (setTreeShaking api.TreeShakingFalse st)
  /\ parseArg' kind "--splitting" build = inl (setSplitting true build)
  /\ parseArg' kind "--splitting=true" build = inl (setSplitting true build)
  /\ parseArg' kind "--splitting=false" build = inl (setSplitting false build)
  /\ (exists st', parseArg' kind "--tree-shaking" st = inl st'
                  /\ treeShakingOf st'.(options) = api.TreeShakingTrue)
  /\ (exists st', parseArg' kind "--tree-shaking=true" st = inl st'
                  /\ treeShakingOf st'.(options) = api.TreeShakingTrue)
  /\ (exists st', parseArg' kind "--tree-shaking=false" st = inl st'
                  /\ treeShakingOf st'.(options) = api.TreeShakingFalse)
  /\ (exists b', parseArg' kind "--splitting" build = inl (mkState (BuildOpts b') x isBare n)
                 /\ b'.(BuildOptions.Splitting) = true)
  /\ (exists b', parseArg' kind "--splitting=true" build
                 = inl (mkState (BuildOpts b') x isBare n)
                 /\ b'.(BuildOptions.Splitting) = true)
  /\ (exists b', parseArg' kind "--splitting=false" build
                 = inl (mkState (BuildOpts b') x isBare n)
                 /\ b'.(BuildOptions.Splitting) = false)
  /\ (forall osArgs o o' x',
        parseOptionsImpl' osArgs o kind = (o', x', None) ->
        treeShakingOf o' = lastTreeShaking osArgs (treeShakingOf o))
  /\ (forall osArgs b0 b' x',
        parseOptionsImpl' osArgs (BuildOpts b0) kind = (BuildOpts b', x', None) ->
        b'.(BuildOptions.Splitting) = lastSplitting osArgs b0.(BuildOptions.Splitting))
  /\ (forall osArgs b' t x' err,
        parseOptionsForRun' osArgs = (Some b', t, x', err) ->
        b'.(BuildOptions.TreeShaking) = lastTreeShaking osArgs api.TreeShakingDefault
        /\ b'.(BuildOptions.Splitting) = lastSplitting osArgs false)
  /\ (forall osArgs b' t x' err,
        parseOptionsForRun' osArgs = (b', Some t, x', err) ->
        t.(TransformOptions.TreeShaking) = lastTreeShaking osArgs api.TreeShakingDefault)
  /\ (v <> "true" -> v <> "false" ->
      (exists err, parseArg' kind ("--tree-shaking=" +:+ v) st = inr err)
      /\ (exists err, parseArg' kind ("--splitting=" +:+ v) build = inr err)
      /\ (forall osArgs o, In ("--tree-shaking=" +:+ v) osArgs ->
            exists o' err, parseOptionsImpl' osArgs o kind = (o', noExtras, Some err))
      /\ (forall osArgs o, In ("--splitting=" +:+ v) osArgs ->
            exists o' err, parseOptionsImpl' osArgs o kind = (o', noExtras, Some err))).
Proof.
  cbv zeta.
  assert (Hts : v <> "true" -> v <> "false" -> forall kind st,
            exists err, parseArg' kind ("--tree-shaking=" +:+ v) st = inr err).
  { intros Ht Hf k s. rewrite parseArg_tree_shaking_value.
    destruct (parseBoolFlag_other "--tree-shaking" v true eq_refl Ht Hf) as [err Herr].
    change ("--tree-shaking" +:+ "=" +:+ v) with ("--tree-shaking=" +:+ v) in Herr.
    rewrite Herr. eauto. }
  assert (Hsp : v <> "true" -> v <> "false" -> forall kind st,
            exists err, parseArg' kind ("--splitting=" +:+ v) st = inr err).
  { intros Ht Hf k s. rewrite parseArg_splitting_value.
    destruct (isBuild (options s)); [|eauto].
    destruct (parseBoolFlag_other "--splitting" v true eq_refl Ht Hf) as [err Herr].
    change ("--splitting" +:+ "=" +:+ v) with ("--splitting=" +:+ v) in Herr.
    rewrite Herr. eauto. }
  split_and!; try reflexivity.
  - intros flag Hflag. repeat split.
    + apply parseBoolFlag_bare, Hflag.
    + rewrite parseBoolFlag_value by assumption. reflexivity.
    + rewrite parseBoolFlag_value by assumption. reflexivity.
    + intros Ht Hf. apply parseBoolFlag_other; assumption.
  - eexists. split; [reflexivity | apply treeShakingOf_setTreeShaking].
  - eexists. split; [reflexivity | apply treeShakingOf_setTreeShaking].
  - eexists. split; [reflexivity | apply treeShakingOf_setTreeShaking].
  - eexists. split; reflexivity.
  - eexists. split; reflexivity.
  - eexists. split; reflexivity.
  - intros osArgs o o' x' Hparse.
    apply parseOptionsImpl_last in Hparse as (_ & H & _). exact H.
  - intros osArgs b0 b' x' Hparse.
    apply parseOptionsImpl_last in Hparse as (_ & _ & H). exact H.
  - intros osArgs b' t x' err (Hb & _)%parseOptionsForRun_parsed.
    destruct (Hb b' eq_refl) as [x'' (_ & H1 & H2)%parseOptionsImpl_last]. auto.
  - intros osArgs b' t x' err (_ & Ht)%parseOptionsForRun_parsed.
    destruct (Ht t eq_refl) as [x'' (_ & H & _)%parseOptionsImpl_last]. exact H.
  - intros Ht Hf. split_and!.
    + apply Hts; assumption.
    + apply Hsp; assumption.
    + intros osArgs o Hin. eapply parseOptionsImpl_failing; eauto.
    + intros osArgs o Hin. eapply parseOptionsImpl_failing; eauto.
Qed.

End Parser.

(** C4, as stated, fails: when building, the argument ['--bundle] does not
    start with a dash, and it is not taken as an entry point but rejected. *)
Lemma quoted_flag_is_not_an_entry_point :
  strings.HasPrefix "'--bundle" "-" = false
  /\ exists err,
       parseOptionsImpl plainQuote asciiToLower twoLoaders (fun _ => esbuildEngines) 64
         ["'--bundle"] (BuildOpts newBuildOptions) kindInternal
       = (BuildOpts newBuildOptions, noExtras, Some err).
Proof. split; [reflexivity|]. eexists. reflexivity. Qed.

(** An instance of C4 as amended: entry points of both kinds around a
    flag. *)
Lemma entry_points_in_order_witness :
  exists b x,
    parseOptionsImpl plainQuote asciiToLower twoLoaders (fun _ => esbuildEngines) 64
      ["a.js"; "out=b.js"; "--bundle"; "c.js"] (BuildOpts newBuildOptions) kindInternal
    = (BuildOpts b, x, None)
    /\ b.(BuildOptions.EntryPoints) = ["a.js"; "c.js"]
    /\ b.(BuildOptions.EntryPointsAdvanced)
        = [{| api.InputPath := "b.js"; api.OutputPath := "out" |}].
Proof.
  assert (Hrun : exists o x,
            parseOptionsImpl plainQuote asciiToLower twoLoaders (fun _ => esbuildEngines) 64
              ["a.js"; "out=b.js"; "--bundle"; "c.js"] (BuildOpts newBuildOptions)
              kindInternal
            = (o, x, None)) by (do 2 eexists; vm_compute; reflexivity).
  destruct Hrun as (o & x & Hrun).
  destruct (proj2 (proj2 (entry_points_in_order plainQuote asciiToLower twoLoaders
                            (fun _ => esbuildEngines) 64 kindInternal))
              ["a.js"; "out=b.js"; "--bundle"; "c.js"] newBuildOptions o x Hrun)
    as (b & -> & Hentry & Hadvanced).
  exists b, x. split; [exact Hrun|]. split; [exact Hentry | exact Hadvanced].
Defined.

(** An instance of C9: [--sourcemap app.js] builds with an inline source
    map. *)
Lemma bare_sourcemap_fallback_witness :
  exists b extras,
    parseOptionsImpl plainQuote asciiToLower twoLoaders (fun _ => esbuildEngines) 64
      ["--sourcemap"; "app.js"] (BuildOpts newBuildOptions) kindInternal
    = (BuildOpts b, extras, None)
    /\ b.(BuildOptions.Sourcemap) = api.SourceMapInline.
Proof.
  eexists. eexists. split; [reflexivity|].
  eapply eq_trans;
    [ apply (bare_sourcemap_fallback plainQuote asciiToLower twoLoaders
               (fun _ => esbuildEngines) 64 kindInternal ["--sourcemap"; "app.js"]
               newBuildOptions _ noExtras); reflexivity
    | reflexivity ].
Defined.

(** ** Properties of the run driver *)

Section Driver.

Variable Quote : string -> string.
Variable ToLower : string -> string.
Variable ParseLoader : string -> api.Loader + ErrorWithNote.
Variable rangeOrder : nat -> list (string * api.EngineName).
Variable intSize : Z.
Variable LookupEnv : option string.
Variable CheckIfWindows : bool.
Variable ReadStdin : string + string.
Variable Getwd : string.
Variable RealFS : string -> FS + string.
Variable fsMkdirAll : FS -> string -> option string.
Variable ioWriteFile : string -> string -> option string.
Variable parseMangleCache : list string -> FS -> string -> option MangleCacheMap * list string.
Variable printMangleCache : MangleCacheMap -> list string -> bool -> string.
Variable ContextFails : BuildOptions.t -> bool.

Local Abbreviation parseOptionsForRun' :=
  (parseOptionsForRun Quote ToLower ParseLoader rangeOrder intSize).
Local Abbreviation writeMetafile' := (writeMetafile fsMkdirAll ioWriteFile).
Local Abbreviation writeMangleCache' :=
  (writeMangleCache fsMkdirAll ioWriteFile printMangleCache).
Local Abbreviation runBuild' :=
  (runBuild RealFS fsMkdirAll ioWriteFile parseMangleCache printMangleCache ContextFails).
Local Abbreviation runImpl' :=
  (runImpl Quote ToLower ParseLoader rangeOrder intSize LookupEnv CheckIfWindows ReadStdin Getwd
     RealFS fsMkdirAll ioWriteFile parseMangleCache printMangleCache ContextFails).

Local Abbreviation metafileClosure' := (metafileClosure fsMkdirAll ioWriteFile).
Local Abbreviation mangleCacheClosure' :=
  (mangleCacheClosure fsMkdirAll ioWriteFile printMangleCache).

Lemma metafileWriter_closure b x err w :
  metafileWriter RealFS fsMkdirAll ioWriteFile b x err = inl w -> metafileClosure' err w.
Proof.
  unfold metafileWriter, metafileClosure.
  repeat case_match; intros [= <-]; eauto 6.
Qed.

Lemma mangleCacheWriter_closure osArgs b x err b' w :
  mangleCacheWriter RealFS fsMkdirAll ioWriteFile parseMangleCache printMangleCache
    osArgs b x err = inl (b', w) ->
  mangleCacheClosure' err w /\ b'.(BuildOptions.Plugins) = b.(BuildOptions.Plugins).
Proof.
  unfold mangleCacheWriter, mangleCacheClosure.
  repeat case_match; intros [= <- <-]; split; eauto 8.
Qed.

(** The options that [runBuild] launches end with the plugin
    [PostBuildActions] over the two closures. *)
Lemma runBuild_launches osArgs b x err b' :
  launches (runBuild' osArgs b x err) b' ->
  exists wm wmc,
    b'.(BuildOptions.Plugins)
      = b.(BuildOptions.Plugins) ++ [postBuildActions wm wmc]
    /\ metafileClosure' err wm /\ mangleCacheClosure' err wmc.
Proof.
  unfold runBuild.
  destruct (metafileWriter _ _ _ b x err) as [wm|exit] eqn:Hwm.
  2:{ unfold metafileWriter in Hwm. repeat case_match; try discriminate;
      injection Hwm as <-; intros [Hl | [d Hl]]; discriminate. }
  destruct (mangleCacheWriter _ _ _ _ _ osArgs b x err) as [[b1 wmc]|exit] eqn:Hwmc.
  2:{ unfold mangleCacheWriter in Hwmc. repeat case_match; try discriminate;
      injection Hwmc as <-; intros [Hl | [d Hl]]; discriminate. }
  apply metafileWriter_closure in Hwm.
  apply mangleCacheWriter_closure in Hwmc as [Hwmc Hplugins].
  intros Hlaunch. exists wm, wmc. split; [|auto].
  rewrite <- Hplugins.
  destruct (watch x); [destruct (ContextFails _)|];
    destruct Hlaunch as [Hl | [d Hl]]; try discriminate; injection Hl as <-; reflexivity.
Qed.

Lemma not_launched_exit code stderr b : ~ launches (Exits code stderr) b.
Proof. intros [H | [d H]]; discriminate. Qed.

(** Whatever [runImpl] launches, it launches on options that end with the
    plugin [PostBuildActions], whose closures captured no error. *)
Lemma runImpl_launches osArgs plugins b :
  launches (runImpl' osArgs plugins) b ->
  exists wm wmc,
    last b.(BuildOptions.Plugins) = Some (postBuildActions wm wmc)
    /\ metafileClosure' None wm /\ mangleCacheClosure' None wmc.
Proof.
  unfold runImpl.
  destruct (existsb isServeFlag osArgs); [intros [H | [d H]]; discriminate|].
  destruct (filterAnalyzeFlags osArgs) as [args analyze].
  destruct (parseOptionsForRun' args) as [[[bo to] x] err] eqn:Hparse.
  destruct bo as [b0|].
  - apply parseOptionsForRun_build in Hparse as [-> ->].
    match goal with
    | |- launches (if ?c then _ else _) _ -> _ => destruct c
    end.
    + destruct ReadStdin as [bytes|e]; [|intros H; destruct (not_launched_exit _ _ _ H)].
      intros (wm & wmc & Hplugins & Hwm & Hwmc)%runBuild_launches.
      exists wm, wmc. rewrite Hplugins, last_snoc. auto.
    + match goal with
      | |- launches (match ?s with _ => _ end) _ -> _ => destruct s as [stdin|]
      end.
      * destruct (negb _); intros H; destruct (not_launched_exit _ _ _ H).
      * intros (wm & wmc & Hplugins & Hwm & Hwmc)%runBuild_launches.
        exists wm, wmc. rewrite Hplugins, last_snoc. auto.
  - destruct to as [t|]; [destruct ReadStdin|destruct err];
      intros [H | [d H]]; discriminate.
Qed.

Lemma andThen_nothing o : andThen (Returns []) o = o.
Proof. destruct o; reflexivity. Qed.

(** C5. The metafile writer does nothing at all for an empty metafile, the
    metafile of a build that failed: [writeMetafile] returns without a
    call, whatever it captured; and in every build that [runImpl] launches,
    the plugin [PostBuildActions] then does what the mangle cache writer
    does and nothing more. *)
Theorem no_metafile_after_failed_build :
  (forall err realFS absPath absDir,
     writeMetafile' err realFS absPath absDir "" = Returns [])
  /\ (forall osArgs plugins b,
        launches (runImpl' osArgs plugins) b ->
        exists wm wmc,
          last b.(BuildOptions.Plugins) = Some (postBuildActions wm wmc)
          /\ forall result,
               result.(BuildResult.Metafile) = "" ->
               callIfSet wm result.(BuildResult.Metafile) = Returns []
               /\ Plugin.OnEnd (postBuildActions wm wmc) result
                   = callIfSet wmc result.(BuildResult.MangleCache)).
Proof.
  assert (Hempty : forall err realFS absPath absDir,
            writeMetafile' err realFS absPath absDir "" = Returns []).
  { intros err [realFS|e] absPath absDir; reflexivity. }
  split; [exact Hempty|].
  intros osArgs plugins b (wm & wmc & Hlast & Hwm & _)%runImpl_launches.
  exists wm, wmc. split; [exact Hlast|].
  intros result Hresult.
  assert (Hnothing : callIfSet wm result.(BuildResult.Metafile) = Returns []).
  { rewrite Hresult. destruct Hwm as [-> | (realFS & absPath & absDir & ->)];
      [reflexivity | apply Hempty]. }
  split; [exact Hnothing|].
  cbn [Plugin.OnEnd postBuildActions]. rewrite Hnothing. apply andThen_nothing.
Qed.

(** C6. Build options are only returned without an error; with no error
    captured, neither writer panics; and so, in every build that [runImpl]
    launches, the plugin [PostBuildActions] returns normally for every
    build result. *)
Theorem post_build_actions_never_panic :
  (forall osArgs b t x err,
     parseOptionsForRun' osArgs = (Some b, t, x, err) -> err = None)
  /\ (forall realFS absPath absDir json,
        returns (writeMetafile' None realFS absPath absDir json))
  /\ (forall realFS absPath absDir order asciiOnly mangleCache,
        returns (writeMangleCache' None realFS absPath absDir order asciiOnly mangleCache))
  /\ (forall osArgs plugins b,
        launches (runImpl' osArgs plugins) b ->
        exists wm wmc,
          last b.(BuildOptions.Plugins) = Some (postBuildActions wm wmc)
          /\ forall result, returns (Plugin.OnEnd (postBuildActions wm wmc) result)).
Proof.
  assert (Hwm : forall realFS absPath absDir json,
            returns (writeMetafile' None realFS absPath absDir json)).
  { intros [realFS|e] absPath absDir json; unfold writeMetafile, returns;
      [destruct (String.eqb json "")|]; eauto. }
  assert (Hwmc : forall realFS absPath absDir order asciiOnly mangleCache,
            returns (writeMangleCache' None realFS absPath absDir order asciiOnly
                       mangleCache)).
  { intros [realFS|e] absPath absDir order asciiOnly [cache|];
      unfold writeMangleCache, returns; eauto. }
  split_and!; [|exact Hwm|exact Hwmc|].
  - intros osArgs b t x err H. apply parseOptionsForRun_build in H as [_ ->]. reflexivity.
  - intros osArgs plugins b (wm & wmc & Hlast & Hcm & Hcc)%runImpl_launches.
    exists wm, wmc. split; [exact Hlast|].
    intros result. cbn [Plugin.OnEnd postBuildActions].
    assert (H1 : returns (callIfSet wm result.(BuildResult.Metafile))).
    { destruct Hcm as [-> | (realFS & absPath & absDir & ->)];
        [exists []; reflexivity | apply Hwm]. }
    assert (H2 : returns (callIfSet wmc result.(BuildResult.MangleCache))).
    { destruct Hcc as [-> | (realFS & absPath & absDir & order & asciiOnly & ->)];
        [exists []; reflexivity | apply Hwmc]. }
    destruct H1 as [c1 ->], H2 as [c2 ->]. exists (c1 ++ c2). reflexivity.
Qed.

End Driver.

(** The build of the examples is launched. *)
Lemma exampleRun_builds :
  exists b, exampleRun ["app.js"; "--outfile=out.js"; "--metafile=meta.json"] [] = Builds b.
Proof. eexists. vm_compute. reflexivity. Defined.

(** An instance of C5: a build with a metafile, whose writer does nothing
    when the build result has no metafile. *)
Lemma no_metafile_after_failed_build_witness :
  exists b wm wmc,
    exampleRun ["app.js"; "--outfile=out.js"; "--metafile=meta.json"] [] = Builds b
    /\ last b.(BuildOptions.Plugins) = Some (postBuildActions wm wmc)
    /\ forall result,
         result.(BuildResult.Metafile) = "" ->
         callIfSet wm result.(BuildResult.Metafile) = Returns []
         /\ Plugin.OnEnd (postBuildActions wm wmc) result
             = callIfSet wmc result.(BuildResult.MangleCache).
Proof.
  destruct exampleRun_builds as [b Hrun]. exists b.
  destruct (proj2 (no_metafile_after_failed_build plainQuote asciiToLower twoLoaders
                     (fun _ => esbuildEngines) 64 None false (inl "") "/work"
                     (fun _ => inl exampleFS) (fun _ _ => None) (fun _ _ => None)
                     (fun _ _ _ => (None, [])) (fun _ _ _ => "") (fun _ => false))
              ["app.js"; "--outfile=out.js"; "--metafile=meta.json"] [] b
              (or_introl Hrun)) as (wm & wmc & Hlast & Hempty).
  exists wm, wmc. split; [exact Hrun|]. split; [exact Hlast | exact Hempty].
Defined.

(** An instance of C6: the same build; its post-build plugin returns
    normally on every result. *)
Lemma post_build_actions_never_panic_witness :
  exists b wm wmc,
    exampleRun ["app.js"; "--outfile=out.js"; "--metafile=meta.json"] [] = Builds b
    /\ last b.(BuildOptions.Plugins) = Some (postBuildActions wm wmc)
    /\ forall result, returns (Plugin.OnEnd (postBuildActions wm wmc) result).
Proof.
  destruct exampleRun_builds as [b Hrun]. exists b.
  destruct (proj2 (proj2 (proj2
              (post_build_actions_never_panic plainQuote asciiToLower twoLoaders
                 (fun _ => esbuildEngines) 64 None false (inl "") "/work"
                 (fun _ => inl exampleFS) (fun _ _ => None) (fun _ _ => None)
                 (fun _ _ _ => (None, [])) (fun _ _ _ => "") (fun _ => false))))
              ["app.js"; "--outfile=out.js"; "--metafile=meta.json"] [] b
              (or_introl Hrun)) as (wm & wmc & Hlast & Hreturns).
  exists wm, wmc. split; [exact Hrun|]. split; [exact Hlast | exact Hreturns].
Defined.

(** ** Properties of the serve options *)

Lemma digit_range c d : strconv.digit c = Some d -> (0 <= d <= 9)%Z.
Proof.
  unfold strconv.digit. cbv zeta.
  destruct (_ && _) eqn:H; [|discriminate]. intros [= <-].
  apply andb_true_iff in H as [H1 H2]. lia.
Qed.

Lemma digitsValue_ge s : forall n m, (0 <= n)%Z -> digitsValue s n = Some m -> (n <= m)%Z.
Proof.
  induction s as [|c s IH]; intros n m Hn; cbn [digitsValue].
  - intros [= <-]. lia.
  - destruct (strconv.digit c) as [d|] eqn:Hd; [|discriminate].
    apply digit_range in Hd. intros H%IH; lia.
Qed.

(** The loop of [ParseUint] reads the decimal value of the digits as long
    as it fits. *)
Lemma ParseUintLoop_spec s : forall n,
  (0 <= n <= 2 ^ 32 - 1)%Z ->
  match digitsValue s n with
  | Some m =>
      if (m <=? 2 ^ 32 - 1)%Z then strconv.ParseUintLoop (2 ^ 32 - 1) s n = inl m
      else strconv.ParseUintLoop (2 ^ 32 - 1) s n = inr strconv.ErrRange
  | None => exists e, strconv.ParseUintLoop (2 ^ 32 - 1) s n = inr e
  end.
Proof.
  induction s as [|c s IH]; intros n Hn; cbn [digitsValue strconv.ParseUintLoop].
  - destruct (Z.leb_spec n (2 ^ 32 - 1)); [reflexivity | lia].
  - destruct (strconv.digit c) as [d|] eqn:Hd; [|eauto].
    apply digit_range in Hd. cbv zeta.
    assert (Hcut : (n >=? strconv.maxUint64 / 10 + 1)%Z = false).
    { unfold strconv.maxUint64. rewrite Z.geb_leb. apply Z.leb_gt.
      change ((2 ^ 64 - 1) / 10 + 1)%Z with 1844674407370955162%Z.
      change (2 ^ 32 - 1)%Z with 4294967295%Z in Hn. lia. }
    rewrite Hcut.
    assert (Hmod : ((n * 10 + d) mod 2 ^ 64 = n * 10 + d)%Z).
    { apply Z.mod_small. change (2 ^ 32 - 1)%Z with 4294967295%Z in Hn.
      change (2 ^ 64)%Z with 18446744073709551616%Z. lia. }
    rewrite Hmod.
    assert (Hlt : (n * 10 + d <? n * 10)%Z = false) by (apply Z.ltb_ge; lia).
    rewrite Hlt. cbn [orb].
    destruct (Z.gtb_spec (n * 10 + d) (2 ^ 32 - 1)) as [Hbig|Hsmall].
    + destruct (digitsValue s (n * 10 + d)) as [m|] eqn:Hm; [|eauto].
      apply digitsValue_ge in Hm; [|lia].
      destruct (Z.leb_spec m (2 ^ 32 - 1)); [lia | reflexivity].
    + apply IH. lia.
Qed.

(** [ParseInt] with 32 bits reads the decimal integers of that range. *)
Lemma ParseInt32_spec s :
  match decimalInteger s with
  | Some n =>
      if (- 2 ^ 31 <=? n)%Z && (n <? 2 ^ 31)%Z then strconv.ParseInt s 32 = inl n
      else exists e, strconv.ParseInt s 32 = inr e
  | None => exists e, strconv.ParseInt s 32 = inr e
  end.
Proof.
  assert (Hunsigned : forall digits,
    match (match digits with EmptyString => None | _ => digitsValue digits 0 end) with
    | Some m =>
        (0 <= m)%Z
        /\ (if (m <=? 2 ^ 32 - 1)%Z then strconv.ParseUint digits 32 = inl m
            else strconv.ParseUint digits 32 = inr strconv.ErrRange)
    | None => strconv.ParseUint digits 32 = inr strconv.ErrSyntax
              \/ strconv.ParseUint digits 32 = inr strconv.ErrRange
    end).
  { intros [|c digits]; [left; reflexivity|].
    unfold strconv.ParseUint.
    pose proof (ParseUintLoop_spec (String c digits) 0 ltac:(lia)) as H.
    destruct (digitsValue (String c digits) 0) as [m|] eqn:Hm.
    - split; [eapply digitsValue_ge; [|exact Hm]; lia | exact H].
    - destruct H as [[] H]; auto. }
  assert (Hsigned : forall (neg : bool) digits,
    match (match digits with EmptyString => None | _ => digitsValue digits 0 end) with
    | Some m =>
        let n := if neg then (- m)%Z else m in
        if (- 2 ^ 31 <=? n)%Z && (n <? 2 ^ 31)%Z then
          strconv.signedValue neg (strconv.ParseUint digits 32) 32 = inl n
        else exists e, strconv.signedValue neg (strconv.ParseUint digits 32) 32 = inr e
    | None => exists e, strconv.signedValue neg (strconv.ParseUint digits 32) 32 = inr e
    end).
  { intros neg digits. specialize (Hunsigned digits).
    destruct (match digits with EmptyString => None | _ => digitsValue digits 0 end)
      as [m|].
    - destruct Hunsigned as [Hpos Hparse]. unfold strconv.signedValue. cbv zeta.
      change (2 ^ (32 - 1))%Z with 2147483648%Z.
      change (2 ^ 31)%Z with 2147483648%Z.
      change (2 ^ 32 - 1)%Z with 4294967295%Z in Hparse.
      destruct (Z.leb_spec m 4294967295); rewrite Hparse.
      + destruct neg; cbn [negb andb];
          repeat match goal with
                 | |- context [(?a <=? ?b)%Z] => destruct (Z.leb_spec a b)
                 | |- context [(?a <? ?b)%Z] => destruct (Z.ltb_spec a b)
                 | |- context [(?a >=? ?b)%Z] => destruct (Z.geb_spec a b)
                 | |- context [(?a >? ?b)%Z] => destruct (Z.gtb_spec a b)
                 end; cbn [andb]; try lia; eauto.
      + destruct neg; cbn [negb andb];
          repeat match goal with
                 | |- context [(?a <=? ?b)%Z] => destruct (Z.leb_spec a b)
                 | |- context [(?a <? ?b)%Z] => destruct (Z.ltb_spec a b)
                 end; cbn [andb]; try lia; eauto.
    - unfold strconv.signedValue. destruct Hunsigned as [-> | ->]; eauto. }
  destruct s as [|c s]; [eexists; reflexivity|].
  unfold decimalInteger, strconv.ParseInt.
  destruct (Ascii.eqb c "+") eqn:Hplus.
  - exact (Hsigned false s).
  - destruct (Ascii.eqb c "-") eqn:Hminus.
    + specialize (Hsigned true s). cbv zeta in Hsigned.
      destruct (match s with EmptyString => None | _ => digitsValue s 0 end) as [m|];
        exact Hsigned.
    + exact (Hsigned false (String c s)).
Qed.

Section Serve.

Variable SplitHostPort : string -> string * string + string.

Local Abbreviation parseServeOptionsImpl' := (parseServeOptionsImpl SplitHostPort).

(** The port of the options is the one [parsePort] reads in a non-empty
    port text. *)
Lemma parsePort_spec port :
  port <> "" ->
  match decimalInteger port with
  | Some n =>
      if (0 <=? n)%Z && (n <=? 65535)%Z then
        parsePort port = inl (if (n =? 0)%Z then (-1)%Z else n)
      else exists err, parsePort port = inr err
  | None => exists err, parsePort port = inr err
  end.
Proof.
  intros Hport. unfold parsePort.
  destruct (String.eqb_spec port "") as [Hempty|_]; [contradiction|]. cbn [negb].
  pose proof (ParseInt32_spec port) as Hparse.
  destruct (decimalInteger port) as [n|]; [|destruct Hparse as [e ->]; eauto].
  destruct (Z.leb_spec 0 n), (Z.leb_spec n 65535); cbn [andb].
  - assert (Hrange : ((- 2 ^ 31 <=? n)%Z && (n <? 2 ^ 31)%Z) = true).
    { apply andb_true_iff. split; [apply Z.leb_le | apply Z.ltb_lt]; lia. }
    rewrite Hrange in Hparse. rewrite Hparse.
    destruct (Z.ltb_spec n 0), (Z.gtb_spec n 65535); try lia. cbn [orb].
    destruct (n =? 0)%Z; reflexivity.
  - destruct (_ && _) in Hparse; [rewrite Hparse | destruct Hparse as [e ->]; eauto].
    destruct (Z.ltb_spec n 0), (Z.gtb_spec n 65535); try lia; cbn [orb]; eauto.
  - destruct (_ && _) in Hparse; [rewrite Hparse | destruct Hparse as [e ->]; eauto].
    destruct (Z.ltb_spec n 0), (Z.gtb_spec n 65535); try lia; cbn [orb]; eauto.
  - lia.
Qed.

Lemma serveFlag_other arg f :
  strings.HasPrefix arg "--serve=" = false ->
  portText (serveFlag arg f) = portText f.
Proof.
  intros H. unfold serveFlag. rewrite H. repeat case_match; reflexivity.
Qed.

Lemma serveFlag_serve v f : portText (serveFlag ("--serve=" +:+ v) f) = v.
Proof. spell. unfold serveFlag, after. simpl. reflexivity. Qed.

(** The port text is the value of the last [--serve=] flag. *)
Lemma serveFlags_portText pre v post :
  Forall (fun arg => strings.HasPrefix arg "--serve=" = false) post ->
  portText (serveFlags (pre ++ ("--serve=" +:+ v) :: post)) = v.
Proof.
  intros Hpost. unfold serveFlags. rewrite fold_left_app. cbn [fold_left].
  generalize (fold_left (fun f arg => serveFlag arg f) pre (mkServeFlags "" "" "" "" "" [] [])).
  intros f0. pose proof (serveFlag_serve v f0) as Hv. revert Hv.
  generalize (serveFlag ("--serve=" +:+ v) f0). clear f0.
  induction Hpost as [|arg post Harg _ IH]; intros f Hf; cbn [fold_left]; [exact Hf|].
  apply IH. rewrite serveFlag_other by assumption. exact Hf.
Qed.

(** C10. Take the value [v] of the last [--serve=] flag and its port text:
    [v] itself, or what [net.SplitHostPort] gives as port when [v] has a
    colon. If the port text is not empty, [parseServeOptionsImpl] succeeds
    exactly when the text denotes a decimal integer between 0 and 65535; a
    text that is no integer, or an integer out of that range, is an error;
    and the port of the options is the integer, with -1 for 0. *)
Theorem serve_port_validation pre v post host port :
  Forall (fun arg => strings.HasPrefix arg "--serve=" = false) post ->
  (if strings.ContainsRune v ":" then SplitHostPort v = inl (host, port)
   else host = "" /\ port = v) ->
  port <> "" ->
  let osArgs := pre ++ ("--serve=" +:+ v) :: post in
  match decimalInteger port with
  | Some n =>
      if (0 <=? n)%Z && (n <=? 65535)%Z then
        exists options rest,
          parseServeOptionsImpl' osArgs = inl (options, rest)
          /\ options.(Port) = (if (n =? 0)%Z then (-1)%Z else n)
          /\ options.(Host) = host
      else exists err, parseServeOptionsImpl' osArgs = inr err
  | None => exists err, parseServeOptionsImpl' osArgs = inr err
  end.
Proof.
  intros Hpost Hsplit Hport osArgs.
  pose proof (serveFlags_portText pre v post Hpost) as Htext. fold osArgs in Htext.
  pose proof (parsePort_spec port Hport) as Hparse.
  unfold parseServeOptionsImpl. rewrite Htext.
  assert (Hhost : (if strings.ContainsRune v ":"
                   then match SplitHostPort v with
                        | inl (host, portText) => inl (host, portText)
                        | inr e => inr (AddrError e)
                        end
                   else inl ("", v)) = inl (host, port) :> (string * string + ServeError)).
  { destruct (strings.ContainsRune v ":").
    - rewrite Hsplit. reflexivity.
    - destruct Hsplit as [-> ->]. reflexivity. }
  rewrite Hhost.
  destruct (decimalInteger port) as [n|].
  - destruct (_ && _).
    + rewrite Hparse. eauto.
    + destruct Hparse as [err ->]. eauto.
  - destruct Hparse as [err ->]. eauto.
Qed.

End Serve.

(** An instance of C10: [--serve=127.0.0.1:0] asks for the host 127.0.0.1
    and port 0, which is stored as -1. *)
Lemma serve_port_validation_witness :
  exists options rest,
    parseServeOptionsImpl (fun _ => inl ("127.0.0.1", "0"))
      (["app.js"] ++ ("--serve=" +:+ "127.0.0.1:0") :: ["--bundle"])
    = inl (options, rest)
    /\ options.(Port) = (-1)%Z
    /\ options.(Host) = "127.0.0.1".
Proof.
  apply (serve_port_validation (fun _ => inl ("127.0.0.1", "0"))
           ["app.js"] "127.0.0.1:0" ["--bundle"] "127.0.0.1" "0").
  - repeat constructor.
  - reflexivity.
  - discriminate.
Defined.

(** ** Determinism of the option parser *)

(** The byte-wise order of strings is a total order. *)
Lemma ascii_compare_trans a b c r :
  Ascii.compare a b = r -> Ascii.compare b c = r -> Ascii.compare a c = r.
Proof.
  unfold Ascii.compare. intros Hab Hbc. destruct r.
  - apply N.compare_eq_iff in Hab. apply N.compare_eq_iff in Hbc.
    apply N.compare_eq_iff. congruence.
  - apply N.compare_lt_iff in Hab. apply N.compare_lt_iff in Hbc.
    apply N.compare_lt_iff. eapply N.lt_trans; eassumption.
  - apply N.compare_gt_iff in Hab. apply N.compare_gt_iff in Hbc.
    apply N.compare_gt_iff. eapply N.lt_trans; eassumption.
Qed.

Lemma string_compare_trans s1 : forall s2 s3 r,
  String.compare s1 s2 = r -> String.compare s2 s3 = r -> String.compare s1 s3 = r.
Proof.
  induction s1 as [|a s1 IH]; intros [|b s2] [|c s3] r; cbn [String.compare];
    try congruence.
  destruct (Ascii.compare a b) eqn:Hab, (Ascii.compare b c) eqn:Hbc;
    try (intros <- ?; congruence); try (intros ? <-; congruence).
  - rewrite (ascii_compare_trans _ _ _ _ Hab Hbc). apply IH.
  - apply Ascii.compare_eq_iff in Hab as ->. rewrite Hbc. intros _ H. exact H.
  - apply Ascii.compare_eq_iff in Hab as ->. rewrite Hbc. intros _ H. exact H.
  - apply Ascii.compare_eq_iff in Hbc as <-. rewrite Hab. intros H _. exact H.
  - rewrite (ascii_compare_trans _ _ _ _ Hab Hbc). intros H _. exact H.
  - apply Ascii.compare_eq_iff in Hbc as <-. rewrite Hab. intros H _. exact H.
  - rewrite (ascii_compare_trans _ _ _ _ Hab Hbc). intros H _. exact H.
Qed.

#[local] Instance string_le_trans : Transitive string_le.
Proof.
  intros s1 s2 s3. unfold string_le, String.leb. intros H12 H23.
  destruct (String.compare s1 s2) eqn:E12; [| |discriminate].
  - apply String.compare_eq_iff in E12 as ->. exact H23.
  - destruct (String.compare s2 s3) eqn:E23; [| |discriminate].
    + apply String.compare_eq_iff in E23 as <-. rewrite E12. reflexivity.
    + rewrite (string_compare_trans _ _ _ _ E12 E23). reflexivity.
Qed.

#[local] Instance string_le_antisym : AntiSymm eq string_le.
Proof. intros s1 s2. apply String.leb_antisym. Qed.

#[local] Instance string_le_total : Total string_le.
Proof. intros s1 s2. apply String.leb_total. Qed.

(** Sorting forgets the order of its input. *)
Lemma sortStrings_perm l1 l2 : l1 ≡ₚ l2 -> sortStrings l1 = sortStrings l2.
Proof.
  intros Hperm. unfold sortStrings.
  apply (Sorted_unique string_le); try apply Sorted_merge_sort; try apply _.
  rewrite !merge_sort_Permutation. exact Hperm.
Qed.

Lemma two_prefixes v : forall a b,
  strings.HasPrefix v a = true -> strings.HasPrefix v b = true ->
  strings.HasPrefix a b = true \/ strings.HasPrefix b a = true.
Proof.
  induction v as [|c v IH]; intros [|x a] [|y b]; cbn [strings.HasPrefix]; auto;
    try discriminate.
  intros [Hx Ha]%andb_true_iff [Hy Hb]%andb_true_iff.
  apply Ascii.eqb_eq in Hx as <-. apply Ascii.eqb_eq in Hy as <-.
  rewrite Ascii.eqb_refl. cbn [andb]. auto.
Qed.

Lemma findEngine_Some entries value e :
  findEngine entries value = Some e ->
  e ∈ entries /\ strings.HasPrefix value (fst e) = true.
Proof.
  induction entries as [|[engine name] rest IH]; cbn [findEngine]; [discriminate|].
  destruct (strings.HasPrefix value engine) eqn:H.
  - intros [= <-]. split; [left | exact H].
  - intros [Hin Hp]%IH. split; [right; exact Hin | exact Hp].
Qed.

Lemma findEngine_None entries value e :
  findEngine entries value = None -> e ∈ entries ->
  strings.HasPrefix value (fst e) = false.
Proof.
  induction entries as [|[engine name] rest IH]; cbn [findEngine]; intros Hfind Hin.
  - inversion Hin.
  - destruct (strings.HasPrefix value engine) eqn:H; [discriminate|].
    apply elem_of_cons in Hin as [-> | Hin]; [exact H | auto].
Qed.

Lemma prefixFree_spec table e1 e2 :
  prefixFree table = true -> e1 ∈ table -> e2 ∈ table ->
  strings.HasPrefix (fst e2) (fst e1) = true -> e1 = e2.
Proof.
  unfold prefixFree. rewrite forallb_forall. intros Hfree H1 H2 Hp.
  apply list_elem_of_In in H1, H2.
  specialize (Hfree e1 H1). rewrite forallb_forall in Hfree.
  specialize (Hfree e2 H2). rewrite Hp in Hfree. cbn [implb] in Hfree.
  apply bool_decide_eq_true in Hfree. exact Hfree.
Qed.

Section Determinism.

Variable Quote : string -> string.
Variable ToLower : string -> string.
Variable ParseLoader : string -> api.Loader + ErrorWithNote.
Variable intSize : Z.

(** The table of engines, and two runs that differ in the order in which
    each of their [range] loops visits it. *)
Variable validEngines : list (string * api.EngineName).
Variable order1 order2 : nat -> list (string * api.EngineName).

Hypothesis order1_visits_all : forall n, order1 n ≡ₚ validEngines.
Hypothesis order2_visits_all : forall n, order2 n ≡ₚ validEngines.
Hypothesis validEngines_prefixFree : prefixFree validEngines = true.

(** The first engine that matches a target is the only one. *)
Lemma findEngine_order n m value :
  findEngine (order1 n) value = findEngine (order2 m) value.
Proof.
  assert (Hunique : forall l1 l2 e1,
            l1 ≡ₚ validEngines -> l2 ≡ₚ validEngines ->
            findEngine l1 value = Some e1 -> findEngine l2 value = Some e1).
  { intros l1 l2 e1 Hl1 Hl2 [Hin1 Hp1]%findEngine_Some.
    destruct (findEngine l2 value) as [e2|] eqn:H2.
    - apply findEngine_Some in H2 as [Hin2 Hp2].
      rewrite Hl1 in Hin1. rewrite Hl2 in Hin2.
      destruct (two_prefixes value _ _ Hp1 Hp2) as [H | H].
      + f_equal. apply (prefixFree_spec validEngines); assumption.
      + f_equal. symmetry. apply (prefixFree_spec validEngines); assumption.
    - rewrite (findEngine_None l2 value e1 H2) in Hp1; [discriminate|].
      rewrite Hl2, <- Hl1. exact Hin1. }
  destruct (findEngine (order1 n) value) as [e1|] eqn:H1.
  - symmetry. eapply Hunique; [apply order1_visits_all | apply order2_visits_all | exact H1].
  - destruct (findEngine (order2 m) value) as [e2|] eqn:H2; [|reflexivity].
    rewrite (Hunique _ (order1 n) e2 (order2_visits_all m) (order1_visits_all n) H2) in H1.
    discriminate.
Qed.

Lemma invalidTargetNote_order n m :
  invalidTargetNote Quote (order1 n) = invalidTargetNote Quote (order2 m).
Proof.
  unfold invalidTargetNote. cbv zeta.
  rewrite (sortStrings_perm
             ([quoted "esN"] ++ map (fun e => Quote (fst e +:+ "N")) (order1 n))
             ([quoted "esN"] ++ map (fun e => Quote (fst e +:+ "N")) (order2 m)));
    [reflexivity|].
  apply Permutation_app_head, Permutation_map.
  rewrite order1_visits_all, order2_visits_all. reflexivity.
Qed.

Lemma parseTargetsLoop_order targets arg : forall target engines n,
  parseTargetsLoop Quote ToLower order1 targets arg target engines n
  = parseTargetsLoop Quote ToLower order2 targets arg target engines n.
Proof.
  induction targets as [|value rest IH]; intros target engines n;
    cbn [parseTargetsLoop]; [reflexivity|].
  rewrite (findEngine_order n n value), (invalidTargetNote_order (S n) (S n)).
  destruct (assoc validTargets (ToLower value)); [apply IH|].
  destruct (findEngine (order2 n) value) as [[engine name]|]; [|reflexivity].
  destruct (String.eqb _ ""); [reflexivity | apply IH].
Qed.

Lemma parseArg_order kind arg st :
  parseArg Quote ToLower ParseLoader order1 intSize kind arg st
  = parseArg Quote ToLower ParseLoader order2 intSize kind arg st.
Proof.
  unfold parseArg, parseTargets. cbv zeta.
  rewrite (parseTargetsLoop_order
             (splitWithEmptyCheck (after "--target=" arg) ",") arg api.DefaultTarget []
             (ranges st)).
  reflexivity.
Qed.

Lemma parseArgs_order kind osArgs : forall st,
  parseArgs Quote ToLower ParseLoader order1 intSize kind osArgs st
  = parseArgs Quote ToLower ParseLoader order2 intSize kind osArgs st.
Proof.
  induction osArgs as [|arg rest IH]; intros st; cbn [parseArgs]; [reflexivity|].
  rewrite parseArg_order.
  destruct (parseArg Quote ToLower ParseLoader order2 intSize kind arg st);
    [apply IH | reflexivity].
Qed.

(** C1. Two runs of [parseOptionsImpl] on the same arguments, the same
    options and the same kind return the same options, the same extras and
    the same error, in whatever order each [range] loop of each run visits
    the engine table: nothing but the arguments decides the result. The
    table must not hold an engine name that starts another entry's name. *)
Theorem parseOptionsImpl_deterministic osArgs o kind :
  parseOptionsImpl Quote ToLower ParseLoader order1 intSize osArgs o kind
  = parseOptionsImpl Quote ToLower ParseLoader order2 intSize osArgs o kind.
Proof. unfold parseOptionsImpl. rewrite parseArgs_order. reflexivity. Qed.

End Determinism.

(** An instance of C1: the released engine table, visited forwards by one
    run and backwards by the other. *)
Lemma parseOptionsImpl_deterministic_witness :
  parseOptionsImpl plainQuote asciiToLower twoLoaders (fun _ => esbuildEngines) 64
    ["--target=es2020,chrome58,node12.19"; "--bundle"; "app.js"]
    (BuildOpts newBuildOptions) kindInternal
  = parseOptionsImpl plainQuote asciiToLower twoLoaders (fun _ => reverse esbuildEngines) 64
      ["--target=es2020,chrome58,node12.19"; "--bundle"; "app.js"]
      (BuildOpts newBuildOptions) kindInternal.
Proof.
  apply (parseOptionsImpl_deterministic plainQuote asciiToLower twoLoaders 64
           esbuildEngines (fun _ => esbuildEngines) (fun _ => reverse esbuildEngines)).
  - intros n. reflexivity.
  - intros n. apply reverse_Permutation.
  - reflexivity.
Defined.

(** ** Reachability soundness of the mark phase *)

Section Marking.

Import TreeShaking.

Variable g : Graph.

Lemma marksAlso_bound i j : j ∈ marksAlso g i -> j < length g.(parts).
Proof.
  unfold marksAlso, referencedParts, sideEffectParts, partIds.
  rewrite elem_of_app, !list_elem_of_In, filter_In, in_seq.
  intros [Href | [Hin _]]; [|lia].
  destruct (g.(parts) !! i) as [p|]; [|destruct Href].
  apply in_app_iff in Href. rewrite !filter_In, in_seq in Href.
  destruct Href as [[Hin _] | [_ Hlt]]; [lia|].
  apply Nat.ltb_lt in Hlt. exact Hlt.
Qed.

Lemma seeds_bound i : i ∈ seeds g -> i < length g.(parts).
Proof.
  unfold seeds. rewrite elem_of_list_to_set, list_elem_of_In, filter_In.
  intros [Hin _]. unfold partIds in Hin. apply in_seq in Hin. lia.
Qed.

Lemma elem_of_propagate marked j :
  j ∈ propagate g marked <-> j ∈ marked \/ exists i, i ∈ marked /\ j ∈ marksAlso g i.
Proof.
  unfold propagate. rewrite elem_of_union, elem_of_list_to_set, list_elem_of_In, in_concat.
  split; intros [H | H]; auto; right.
  - destruct H as (l & Hl & Hj). apply in_map_iff in Hl as (i & <- & Hi).
    exists i. rewrite <- elem_of_elements, !list_elem_of_In. auto.
  - destruct H as (i & Hi & Hj). exists (marksAlso g i).
    rewrite in_map_iff, <- list_elem_of_In. split; [|exact Hj].
    exists i. rewrite <- list_elem_of_In, elem_of_elements. auto.
Qed.

Lemma elem_of_allParts i : i ∈ allParts g <-> i < length g.(parts).
Proof.
  unfold allParts, partIds. rewrite elem_of_list_to_set, list_elem_of_In, in_seq. lia.
Qed.

Lemma size_allParts : size (allParts g) = length g.(parts).
Proof.
  unfold allParts, partIds. rewrite size_list_to_set, length_seq; [reflexivity|].
  apply NoDup_ListNoDup, seq_NoDup.
Qed.

Lemma propagate_bound marked : marked ⊆ allParts g -> propagate g marked ⊆ allParts g.
Proof.
  intros Hsub j [Hj | (i & _ & Hj)]%elem_of_propagate.
  - apply Hsub, Hj.
  - apply elem_of_allParts, (marksAlso_bound i j), Hj.
Qed.

(** The loop only adds marks, stays among the parts, and stops on a set
    that propagation leaves unchanged when it has rounds enough. *)
Lemma markLoop_extends rounds : forall marked, marked ⊆ markLoop g rounds marked.
Proof.
  induction rounds as [|rounds IH]; intros marked; cbn [markLoop]; [reflexivity|].
  destruct (decide (propagate g marked = marked)); [reflexivity|].
  etrans; [|apply IH]. intros i Hi. apply elem_of_propagate. auto.
Qed.

Lemma markLoop_bound rounds : forall marked,
  marked ⊆ allParts g -> markLoop g rounds marked ⊆ allParts g.
Proof.
  induction rounds as [|rounds IH]; intros marked Hsub; cbn [markLoop]; [exact Hsub|].
  destruct (decide (propagate g marked = marked)); [exact Hsub|].
  apply IH, propagate_bound, Hsub.
Qed.

Lemma markLoop_fixed rounds : forall marked,
  marked ⊆ allParts g ->
  size (allParts g) < size marked + rounds ->
  propagate g (markLoop g rounds marked) = markLoop g rounds marked.
Proof.
  induction rounds as [|rounds IH]; intros marked Hsub Hsize; cbn [markLoop].
  - apply subseteq_size in Hsub. lia.
  - destruct (decide (propagate g marked = marked)) as [Hfix|Hgrow]; [exact Hfix|].
    apply IH; [apply propagate_bound, Hsub|].
    assert (Hstrict : marked ⊂ propagate g marked).
    { split.
      - intros i Hi. apply elem_of_propagate. auto.
      - intros Hback. apply Hgrow. apply set_eq. intros i. split; [apply Hback|].
        intros Hi. apply elem_of_propagate. auto. }
    apply subset_size in Hstrict. lia.
Qed.

Lemma retained_fixed : propagate g (retained g) = retained g.
Proof.
  unfold retained. apply markLoop_fixed.
  - intros i Hi. apply elem_of_allParts, seeds_bound, Hi.
  - rewrite size_allParts. lia.
Qed.

Lemma retained_step i j : i ∈ retained g -> refersTo g i j -> j ∈ retained g.
Proof.
  intros Hi Hj. rewrite <- retained_fixed. apply elem_of_propagate.
  right. exists i. split; [exact Hi|]. unfold marksAlso. apply elem_of_app. left. exact Hj.
Qed.

(** C7. Reachability soundness: a part that a retained part refers to,
    directly or through other parts, is retained, so no part marked for
    removal is referenced from the output. The retained parts are parts of
    the graph and include the seeds. *)
Theorem reachability_soundness i j :
  i ∈ retained g ->
  rtc (refersTo g) i j ->
  j ∈ retained g /\ (j ∉ removed g)
  /\ seeds g ⊆ retained g /\ retained g ⊆ allParts g.
Proof.
  intros Hi Hreach.
  assert (Hj : j ∈ retained g).
  { induction Hreach as [i | i k j Hstep _ IH]; [exact Hi|].
    apply IH. eapply retained_step; eassumption. }
  split_and!.
  - exact Hj.
  - unfold removed. rewrite elem_of_difference. tauto.
  - apply markLoop_extends.
  - apply markLoop_bound. intros k Hk. apply elem_of_allParts, seeds_bound, Hk.
Qed.

End Marking.

(** An instance of C7: in the example graph the entry statement is
    retained and refers to the declaration it imports, which is therefore
    retained, while the declaration nobody imports is removed. *)
Lemma reachability_soundness_witness :
  (1 ∈ TreeShaking.retained exampleGraph /\ (1 ∉ TreeShaking.removed exampleGraph)
   /\ TreeShaking.seeds exampleGraph ⊆ TreeShaking.retained exampleGraph
   /\ TreeShaking.retained exampleGraph ⊆ TreeShaking.allParts exampleGraph)
  /\ 2 ∈ TreeShaking.removed exampleGraph.
Proof.
  split.
  - apply (reachability_soundness exampleGraph 0 1).
    + apply (bool_decide_unpack _). vm_compute. exact I.
    + apply rtc_once. unfold TreeShaking.refersTo.
      apply (bool_decide_unpack _). vm_compute. exact I.
  - apply (bool_decide_unpack _). vm_compute. exact I.
Defined.

(** ** Properties of the helpers of the parser *)

(** X1. [isBoolFlag(arg, flag)] holds exactly when the argument is the
    flag itself or the flag followed by [=] and any text. *)
Theorem isBoolFlag_spec arg flag :
  isBoolFlag arg flag = true
  <-> arg = flag \/ exists v, arg = flag +:+ "=" +:+ v.
Proof.
  split; [apply isBoolFlag_cases|].
  intros [-> | [v ->]]; [apply isBoolFlag_bare | apply isBoolFlag_value].
Qed.

(** [cut] splits a text around the first separator. *)
Lemma cut_Some s sep h t :
  strings.cut s sep = (h, Some t) ->
  s = h +:+ String sep t /\ strings.IndexByte h sep = None
  /\ (String.length t < String.length s)%nat.
Proof.
  revert h. induction s as [|d s IH]; intros h; cbn [strings.cut]; [discriminate|].
  destruct (Ascii.eqb d sep) eqn:Hd.
  - intros [= <- <-]. apply Ascii.eqb_eq in Hd as ->. cbn. split_and!; auto.
  - destruct (strings.cut s sep) as [h' t'] eqn:Hcut. intros [= <- ->].
    destruct (IH h' eq_refl) as (-> & Hnone & Hlen).
    rewrite append_cons. cbn [strings.IndexByte String.length]. rewrite Hd, Hnone.
    split_and!; auto; cbn [String.length] in *; lia.
Qed.

Lemma cut_None s sep h :
  strings.cut s sep = (h, None) -> s = h /\ strings.IndexByte s sep = None.
Proof.
  revert h. induction s as [|d s IH]; intros h; cbn [strings.cut strings.IndexByte].
  - intros [= <-]. auto.
  - destruct (Ascii.eqb d sep); [discriminate|].
    destruct (strings.cut s sep) as [h' t'] eqn:Hcut. intros [= <- ->].
    destruct (IH h' eq_refl) as (<- & ->). auto.
Qed.

Lemma SplitByte_cons fuel s sep : exists piece pieces, strings.SplitByte fuel s sep = piece :: pieces.
Proof.
  destruct fuel as [|fuel]; cbn [strings.SplitByte]; [eauto|].
  destruct (strings.cut s sep) as [h [t|]]; eauto.
Qed.

Lemma Join_cons piece pieces sep :
  pieces <> [] ->
  strings.Join (piece :: pieces) sep = piece +:+ sep +:+ strings.Join pieces sep.
Proof. destruct pieces; [congruence | reflexivity]. Qed.

(** The pieces of [strings.Split], joined by the separator, are the text;
    no piece holds the separator. *)
Lemma SplitByte_spec sep fuel : forall s,
  (String.length s <= fuel)%nat ->
  strings.Join (strings.SplitByte fuel s sep) (String sep "") = s
  /\ Forall (fun piece => strings.IndexByte piece sep = None) (strings.SplitByte fuel s sep).
Proof.
  induction fuel as [|fuel IH]; intros s Hlen.
  - destruct s; [|cbn in Hlen; lia]. cbn. auto.
  - cbn [strings.SplitByte].
    destruct (strings.cut s sep) as [h [t|]] eqn:Hcut.
    + apply cut_Some in Hcut as (-> & Hnone & Hlt).
      destruct (IH t ltac:(lia)) as [Hjoin Hall].
      destruct (SplitByte_cons fuel t sep) as (piece & pieces & Hpieces).
      rewrite Join_cons by (rewrite Hpieces; discriminate).
      rewrite Hjoin. split; [reflexivity | constructor; assumption].
    + apply cut_None in Hcut as (<- & Hnone). split; [reflexivity | repeat constructor; assumption].
Qed.

(** X2. [splitWithEmptyCheck] loses nothing: its pieces joined by the
    separator give the text back, no piece holds the separator, and the
    result is empty exactly for the empty text. *)
Theorem splitWithEmptyCheck_join s sep :
  strings.Join (splitWithEmptyCheck s sep) (String sep "") = s
  /\ Forall (fun piece => strings.IndexByte piece sep = None) (splitWithEmptyCheck s sep)
  /\ (splitWithEmptyCheck s sep = [] <-> s = "").
Proof.
  unfold splitWithEmptyCheck, strings.Split.
  destruct (String.eqb_spec s "") as [->|Hs].
  - split_and!; [reflexivity | constructor | tauto].
  - destruct (SplitByte_spec sep (String.length s) s (le_n _)) as [Hjoin Hall].
    split_and!; [exact Hjoin | exact Hall |].
    destruct (SplitByte_cons (String.length s) s sep) as (piece & pieces & ->).
    split; [discriminate | contradiction].
Qed.

(** ** Properties of [parseTargets] *)

Section Targets.

Variable Quote : string -> string.
Variable ToLower : string -> string.
Variable rangeOrder : nat -> list (string * api.EngineName).

Local Abbreviation parseTargets' := (parseTargets Quote ToLower rangeOrder).
Local Abbreviation parseTargetsLoop' := (parseTargetsLoop Quote ToLower rangeOrder).

Local Abbreviation engineOf' := (engineOf rangeOrder).

Lemma engineOf_cons value targets e : engineOf' targets e -> engineOf' (value :: targets) e.
Proof.
  intros (Hv & engine & k & Hin & Ht). split; [exact Hv|].
  exists engine, k. split; [exact Hin | right; exact Ht].
Qed.

Lemma last_cons {A : Type} (l : list A) : forall x d, List.last (x :: l) d = List.last l x.
Proof.
  induction l as [|y l IH]; intros x d; [reflexivity|].
  change (List.last (x :: y :: l) d) with (List.last (y :: l) d). rewrite !IH. reflexivity.
Qed.

Lemma parseTargetsLoop_spec targets arg : forall target0 engines0 n target engines n',
  parseTargetsLoop' targets arg target0 engines0 n = inl (target, engines, n') ->
  exists new,
    engines = engines0 ++ new
    /\ Forall (engineOf' targets) new
    /\ (length new + length (languageTargets ToLower targets) = length targets)%nat
    /\ target = List.last (languageTargets ToLower targets) target0.
Proof.
  induction targets as [|value rest IH]; intros target0 engines0 n target engines n';
    cbn [parseTargetsLoop].
  - intros [= <- <- <-]. exists []. rewrite app_nil_r. split_and!; auto.
  - unfold languageTargets. cbn [omap list_omap].
    fold (languageTargets ToLower rest).
    destruct (assoc validTargets (ToLower value)) as [valid|] eqn:Hvalid.
    + intros (new & -> & Hall & Hlen & ->)%IH. exists new. split_and!; auto.
      * eapply Forall_impl; [exact Hall | apply engineOf_cons].
      * cbn [length]. lia.
      * symmetry. apply last_cons.
    + destruct (findEngine (rangeOrder n) value) as [[engine name]|] eqn:Hfind;
        [|discriminate].
      destruct (String.eqb_spec (sliceFrom (String.length engine) value) "") as [|Hversion];
        [discriminate|].
      intros (new & -> & Hall & Hlen & ->)%IH.
      eexists (_ :: new). rewrite <- app_assoc. split_and!; [reflexivity| | |reflexivity].
      * constructor; [|eapply Forall_impl; [exact Hall | apply engineOf_cons]].
        split; [exact Hversion|]. exists engine, n. cbn [api.Name api.Version].
        apply findEngine_Some in Hfind as [Hin Hp]. cbn [fst] in Hp.
        split; [apply list_elem_of_In; exact Hin|].
        left. apply HasPrefix_app, Hp.
      * cbn [length]. lia.
Qed.

(** X3. Every engine that [parseTargets] returns has a version that is
    not empty and comes from one of the targets, which is the name of an
    entry of the engine table followed by that version; there are at most
    as many engines as targets. *)
Theorem parseTargets_engines targets arg n target engines n' :
  parseTargets Quote ToLower rangeOrder targets arg n = inl (target, engines, n') ->
  Forall (engineOf rangeOrder targets) engines /\ (length engines <= length targets)%nat.
Proof.
  intros (new & -> & Hall & Hlen & _)%parseTargetsLoop_spec.
  split; [exact Hall | cbn [app]; lia].
Qed.

(** X4. The language version that [parseTargets] returns is the one of the
    last target that names a language version, [DefaultTarget] when no
    target does; every other target gave one engine. *)
Theorem parseTargets_language_version targets arg n target engines n' :
  parseTargets Quote ToLower rangeOrder targets arg n = inl (target, engines, n') ->
  target = List.last (languageTargets ToLower targets) api.DefaultTarget
  /\ (length engines + length (languageTargets ToLower targets) = length targets)%nat.
Proof.
  intros (new & -> & _ & Hlen & ->)%parseTargetsLoop_spec. auto.
Qed.

End Targets.

Lemma parseTargets_engines_witness :
  Forall (engineOf (fun _ => esbuildEngines) ["es2020"; "chrome58"; "ES6"; "node12.19"])
    [ {| api.Name := api.EngineChrome; api.Version := "58" |};
      {| api.Name := api.EngineNode; api.Version := "12.19" |} ]
  /\ (2 <= 4)%nat.
Proof.
  exact (parseTargets_engines plainQuote asciiToLower (fun _ => esbuildEngines)
           ["es2020"; "chrome58"; "ES6"; "node12.19"] "--target=es2020,chrome58,ES6,node12.19"
           0 api.ES2015
           [ {| api.Name := api.EngineChrome; api.Version := "58" |};
             {| api.Name := api.EngineNode; api.Version := "12.19" |} ] 2 eq_refl).
Defined.

Lemma parseTargets_language_version_witness :
  api.ES2015 = List.last (languageTargets asciiToLower ["es2020"; "chrome58"; "ES6"; "node12.19"])
                 api.DefaultTarget
  /\ (2 + 2 = 4)%nat.
Proof.
  exact (parseTargets_language_version plainQuote asciiToLower (fun _ => esbuildEngines)
           ["es2020"; "chrome58"; "ES6"; "node12.19"] "--target=es2020,chrome58,ES6,node12.19"
           0 api.ES2015
           [ {| api.Name := api.EngineChrome; api.Version := "58" |};
             {| api.Name := api.EngineNode; api.Version := "12.19" |} ] 2 eq_refl).
Defined.

(** ** What the cases of the switch leave alone *)

(** The comparisons of a case, as inequalities. *)
Ltac limits :=
  repeat match goal with
         | H : (_ <? _)%Z = false |- _ => apply Z.ltb_ge in H
         end.

Section Frames.

Variable Quote : string -> string.
Variable ToLower : string -> string.
Variable ParseLoader : string -> api.Loader + ErrorWithNote.
Variable rangeOrder : nat -> list (string * api.EngineName).
Variable intSize : Z.

Local Abbreviation parseArg' := (parseArg Quote ToLower ParseLoader rangeOrder intSize).
Local Abbreviation parseArgs' := (parseArgs Quote ToLower ParseLoader rangeOrder intSize).
Local Abbreviation parseOptionsImpl' := (parseOptionsImpl Quote ToLower ParseLoader rangeOrder intSize).
Local Abbreviation parseOptionsForRun' :=
  (parseOptionsForRun Quote ToLower ParseLoader rangeOrder intSize).

(** What no case changes: the fields of the driver; the extras when
    transforming; the two paths of the extras when parsing for the public
    API; that the two limits are not negative; that a metafile path comes
    with the metafile option. *)
Lemma parseArg_invariants kind arg st st' :
  parseArg' kind arg st = inl st' ->
  driverFields st'.(options) = driverFields st.(options)
  /\ (isBuild st.(options) = false -> st'.(extras) = st.(extras))
  /\ (kind = kindExternal ->
      st'.(extras).(metafile) = st.(extras).(metafile)
      /\ st'.(extras).(mangleCache) = st.(extras).(mangleCache))
  /\ ((0 <= logLimitOf st.(options))%Z -> (0 <= logLimitOf st'.(options))%Z)
  /\ ((0 <= lineLimitOf st.(options))%Z -> (0 <= lineLimitOf st'.(options))%Z)
  /\ ((st.(extras).(metafile) <> None -> metafileOf st.(options) = true) ->
      st'.(extras).(metafile) <> None -> metafileOf st'.(options) = true).
Proof.
  intros Hparse. revert Hparse.
  destruct st as [o x isBare n].
  unfold parseArg. cbv zeta. cbn [options].
  repeat first_case ltac:(
    assigned; destruct o, kind; cbn in *;
    repeat split; try reflexivity; try discriminate; limits; intros;
    try congruence; try lia; auto).
  discriminate.
Qed.

(** A flag changes only what it names. *)
Lemma parseArg_frames kind arg st st' :
  parseArg' kind arg st = inl st' ->
  (strings.HasPrefix arg "--external:" = false ->
   externalOf st'.(options) = externalOf st.(options))
  /\ (strings.HasPrefix arg "--inject:" = false ->
      injectOf st'.(options) = injectOf st.(options))
  /\ (strings.HasPrefix arg "--pure:" = false ->
      pureOf st'.(options) = pureOf st.(options))
  /\ (strings.HasPrefix arg "--outfile=" = false ->
      outfileOf st'.(options) = outfileOf st.(options))
  /\ (strings.HasPrefix arg "--outdir=" = false ->
      outdirOf st'.(options) = outdirOf st.(options))
  /\ (strings.HasPrefix arg "--metafile=" = false ->
      st'.(extras).(metafile) = st.(extras).(metafile))
  /\ (strings.HasPrefix arg "--define:" = false ->
      defineOf st'.(options) = defineOf st.(options)).
Proof.
  intros Hparse. revert Hparse.
  destruct st as [o x isBare n].
  unfold parseArg. cbv zeta. cbn [options].
  repeat first_case ltac:(
    assigned; destruct o; cbn in *;
    repeat split; try reflexivity; try discriminate; intros; congruence).
  discriminate.
Qed.

(** An invariant of the cases is an invariant of the loop, whether the
    loop ends or stops at an error. *)
Lemma parseArgs_invariant (I : ParseState -> Prop) kind :
  (forall arg st st', parseArg' kind arg st = inl st' -> I st -> I st') ->
  forall osArgs st st' err, parseArgs' kind osArgs st = (st', err) -> I st -> I st'.
Proof.
  intros Hstep osArgs. induction osArgs as [|arg rest IH]; intros st st' err; cbn [parseArgs].
  - intros [= <- <-]. auto.
  - destruct (parseArg' kind arg st) as [st1|e] eqn:Harg.
    + intros Hrest Hst. eapply IH; [exact Hrest|]. eapply Hstep; eassumption.
    + intros [= <- <-]. auto.
Qed.

Lemma bareSourceMapFallback_fields st :
  driverFields (bareSourceMapFallback st) = driverFields st.(options)
  /\ logLimitOf (bareSourceMapFallback st) = logLimitOf st.(options)
  /\ lineLimitOf (bareSourceMapFallback st) = lineLimitOf st.(options)
  /\ externalOf (bareSourceMapFallback st) = externalOf st.(options)
  /\ injectOf (bareSourceMapFallback st) = injectOf st.(options)
  /\ pureOf (bareSourceMapFallback st) = pureOf st.(options)
  /\ outfileOf (bareSourceMapFallback st) = outfileOf st.(options)
  /\ outdirOf (bareSourceMapFallback st) = outdirOf st.(options)
  /\ metafileOf (bareSourceMapFallback st) = metafileOf st.(options)
  /\ defineOf (bareSourceMapFallback st) = defineOf st.(options).
Proof.
  unfold bareSourceMapFallback. destruct (options st) as [b|t]; [|split_and!; reflexivity].
  destruct (_ && _); split_and!; reflexivity.
Qed.

(** The options and the extras that [parseOptionsImpl] returns are those
    of a state of the loop. *)
Lemma parseOptionsImpl_state kind osArgs o :
  exists st err,
    parseArgs' kind osArgs (mkState o noExtras false 0) = (st, err)
    /\ ((parseOptionsImpl' osArgs o kind).1.1 = st.(options)
        \/ (parseOptionsImpl' osArgs o kind).1.1 = bareSourceMapFallback st)
    /\ ((parseOptionsImpl' osArgs o kind).1.2 = st.(extras)
        \/ (parseOptionsImpl' osArgs o kind).1.2 = noExtras)
    /\ (parseOptionsImpl' osArgs o kind).2 = err.
Proof.
  unfold parseOptionsImpl.
  destruct (parseArgs' kind osArgs _) as [st [err|]]; exists st; eexists;
    (split; [reflexivity|]); cbn; auto.
Qed.

End Frames.

(** ** Invariants of the option parser *)

Section Invariants.

Variable Quote : string -> string.
Variable ToLower : string -> string.
Variable ParseLoader : string -> api.Loader + ErrorWithNote.
Variable rangeOrder : nat -> list (string * api.EngineName).
Variable intSize : Z.

Local Abbreviation parseArg' := (parseArg Quote ToLower ParseLoader rangeOrder intSize).
Local Abbreviation parseArgs' := (parseArgs Quote ToLower ParseLoader rangeOrder intSize).
Local Abbreviation parseOptionsImpl' := (parseOptionsImpl Quote ToLower ParseLoader rangeOrder intSize).
Local Abbreviation parseOptionsForRun' :=
  (parseOptionsForRun Quote ToLower ParseLoader rangeOrder intSize).
Local Abbreviation parseOptionsImpl_state' :=
  (parseOptionsImpl_state Quote ToLower ParseLoader rangeOrder intSize).
Local Abbreviation parseArgs_invariant' :=
  (parseArgs_invariant Quote ToLower ParseLoader rangeOrder intSize).

(** X5. No flag assigns the fields that the driver owns: whatever the
    arguments and whether or not the parse fails, the options that
    [parseOptionsImpl] leaves have the plugins, the node paths, the write
    option, the working directory and the mangle cache that they had. *)
Theorem parser_leaves_driver_fields kind osArgs o :
  driverFields
    (parseOptionsImpl Quote ToLower ParseLoader rangeOrder intSize osArgs o kind).1.1
  = driverFields o.
Proof.
  destruct (parseOptionsImpl_state' kind osArgs o) as (st & err & Hargs & Ho & _).
  assert (Hst : driverFields st.(options) = driverFields o).
  { apply (parseArgs_invariant' (fun s => driverFields s.(options) = driverFields o) kind)
      with (2 := Hargs); [|reflexivity].
    intros arg s s' (Hd & _)%parseArg_invariants Hs. congruence. }
  destruct Ho as [-> | ->]; [exact Hst|].
  destruct (bareSourceMapFallback_fields st) as (-> & _). exact Hst.
Qed.

(** X6. When transforming, the parser returns no extras: the flags that
    set them are flags of a build. *)
Theorem transform_has_no_extras kind osArgs t :
  (parseOptionsImpl Quote ToLower ParseLoader rangeOrder intSize
     osArgs (TransformOpts t) kind).1.2 = noExtras.
Proof.
  destruct (parseOptionsImpl_state' kind osArgs (TransformOpts t))
    as (st & err & Hargs & _ & Hx & _).
  destruct Hx as [-> | ->]; [|reflexivity].
  apply (parseArgs_invariant'
           (fun s => isBuild s.(options) = false /\ s.(extras) = noExtras) kind)
    with (2 := Hargs); [|split; reflexivity].
  intros arg s s' Hstep [Hkind Hs].
  pose proof (parseArg_step _ _ _ _ _ _ _ _ _ Hstep) as (Hkind' & _).
  apply parseArg_invariants in Hstep as (_ & Hextras & _).
  split; [congruence | rewrite Hextras by assumption; exact Hs].
Qed.

(** X7. Parsing for the public API returns no path in the extras: a
    metafile path and a mangle cache path are only read for the CLI. *)
Theorem external_parse_returns_no_path osArgs o :
  let x :=
    (parseOptionsImpl Quote ToLower ParseLoader rangeOrder intSize osArgs o kindExternal).1.2 in
  x.(metafile) = None /\ x.(mangleCache) = None.
Proof.
  cbv zeta.
  destruct (parseOptionsImpl_state' kindExternal osArgs o)
    as (st & err & Hargs & _ & Hx & _).
  destruct Hx as [-> | ->]; [|split; reflexivity].
  apply (parseArgs_invariant'
           (fun s => s.(extras).(metafile) = None /\ s.(extras).(mangleCache) = None)
           kindExternal)
    with (2 := Hargs); [|split; reflexivity].
  intros arg s s' (_ & _ & Hpaths & _)%parseArg_invariants [Hm Hc].
  destruct (Hpaths eq_refl) as [-> ->]. auto.
Qed.

(** X8. The options that [parseOptionsForRun] returns have limits that
    are not negative: a negative log limit or line limit is an error. *)
Theorem limits_are_not_negative osArgs :
  let '(buildOptions, transformOptions, _, _) :=
    parseOptionsForRun Quote ToLower ParseLoader rangeOrder intSize osArgs in
  (forall b, buildOptions = Some b ->
     (0 <= b.(BuildOptions.LogLimit))%Z /\ (0 <= b.(BuildOptions.LineLimit))%Z)
  /\ (forall t, transformOptions = Some t ->
        (0 <= t.(TransformOptions.LogLimit))%Z /\ (0 <= t.(TransformOptions.LineLimit))%Z).
Proof.
  assert (Hlimits : forall o,
            (0 <= logLimitOf o)%Z -> (0 <= lineLimitOf o)%Z ->
            (0 <= logLimitOf (parseOptionsImpl' osArgs o kindInternal).1.1)%Z
            /\ (0 <= lineLimitOf (parseOptionsImpl' osArgs o kindInternal).1.1)%Z).
  { intros o Hlog Hline.
    destruct (parseOptionsImpl_state' kindInternal osArgs o) as (st & err & Hargs & Ho & _).
    assert (Hst : (0 <= logLimitOf st.(options))%Z /\ (0 <= lineLimitOf st.(options))%Z).
    { apply (parseArgs_invariant'
               (fun s => (0 <= logLimitOf s.(options))%Z /\ (0 <= lineLimitOf s.(options))%Z)
               kindInternal)
        with (2 := Hargs); [|split; assumption].
      intros arg s s' (_ & _ & _ & H1 & H2 & _)%parseArg_invariants [? ?]. auto. }
    destruct Ho as [-> | ->]; [exact Hst|].
    destruct (bareSourceMapFallback_fields st) as (_ & -> & -> & _). exact Hst. }
  unfold parseOptionsForRun.
  destruct (existsb isArgForBuild osArgs);
    match goal with
    | |- context [parseOptionsImpl _ _ _ _ _ _ ?o _] =>
        destruct (Hlimits o) as [Hlog Hline]; [cbn; lia | cbn; lia |]
    end;
    destruct (parseOptionsImpl' osArgs _ kindInternal) as [[[b|t] x] [e|]];
    cbv beta iota zeta; try (split; intros ? [=]; fail).
  - split; intros ? [=]; subst. cbn in Hlog, Hline. auto.
  - destruct (TransformOptions.Sourcemap t); split; intros ? [=]; subst;
      cbn in Hlog, Hline; auto.
Qed.

End Invariants.

(** ** Arguments that the parser rejects *)

Lemma HasPrefix_trans s p q :
  strings.HasPrefix s p = true -> strings.HasPrefix p q = true ->
  strings.HasPrefix s q = true.
Proof.
  revert s p. induction q as [|c q IH]; intros s p Hsp Hpq; [reflexivity|].
  destruct p as [|d p]; [discriminate|]. destruct s as [|e s]; [discriminate|].
  cbn [strings.HasPrefix] in *.
  apply andb_true_iff in Hsp as [Hed Hsp]. apply andb_true_iff in Hpq as [Hdc Hpq].
  apply Ascii.eqb_eq in Hed as ->. rewrite Hdc. cbn [andb]. eapply IH; eassumption.
Qed.

Lemma isBoolFlag_prefix arg flag : isBoolFlag arg flag = true -> strings.HasPrefix arg flag = true.
Proof. unfold isBoolFlag. destruct (strings.HasPrefix arg flag); [reflexivity | discriminate]. Qed.

(** The guard of a case of the switch, which only an argument that starts
    with two dashes or with no dash can satisfy, does not hold. *)
Ltac two_dashes :=
  repeat match goal with
         | H : _ && _ = true |- _ => apply andb_true_iff in H as [? ?]
         end;
  match goal with
  | H : isBoolFlag _ _ = true |- _ =>
      apply isBoolFlag_prefix in H;
      pose proof (HasPrefix_trans _ _ "--" H eq_refl); congruence
  | H : strings.HasPrefix _ _ = true |- _ =>
      pose proof (HasPrefix_trans _ _ "--" H eq_refl); congruence
  | H : String.eqb _ _ = true |- _ => apply String.eqb_eq in H; subst; discriminate
  | H : strings.HasPrefix _ "'--" = true, H1 : strings.HasPrefix _ "-" = true |- _ =>
      pose proof (HasPrefix_trans _ _ "'" H eq_refl) as Hquote;
      destruct (two_prefixes _ _ _ Hquote H1); discriminate
  | H : negb _ = true |- _ => apply negb_true_iff in H; congruence
  end.

Ltac no_case :=
  lazymatch goal with
  | |- (if ?c then _ else _) = _ =>
      let E := fresh "Hcase" in destruct c eqn:E; [ exfalso; solve [two_dashes] | clear E ]
  end.

Section Rejected.

Variable Quote : string -> string.
Variable ToLower : string -> string.
Variable ParseLoader : string -> api.Loader + ErrorWithNote.
Variable rangeOrder : nat -> list (string * api.EngineName).
Variable intSize : Z.

Local Abbreviation parseArg' := (parseArg Quote ToLower ParseLoader rangeOrder intSize).
Local Abbreviation parseOptionsForRun' :=
  (parseOptionsForRun Quote ToLower ParseLoader rangeOrder intSize).

(** An argument with one dash matches no case of the switch. *)
Lemma parseArg_single_dash kind arg st :
  strings.HasPrefix arg "-" = true -> strings.HasPrefix arg "--" = false ->
  parseArg' kind arg st = inr (invalidFlag Quote arg st.(options)).
Proof.
  intros H1 H2. unfold parseArg. cbv zeta.
  repeat no_case.
  reflexivity.
Qed.

Lemma invalidFlag_text arg o :
  (invalidFlag Quote arg o).(Text)
  = (if isBuild o then "Invalid build flag: " else "Invalid transform flag: ") +:+ Quote arg.
Proof. unfold invalidFlag. destruct (isBuild o); reflexivity. Qed.

(** X9. Every flag takes two dashes: an argument that starts with exactly
    one dash matches no case of the switch, so that it is an invalid build
    flag or an invalid transform flag in every state of the parser, and any
    argument list that holds one makes [parseOptionsForRun] return an
    error and no options. *)
Theorem single_dash_is_rejected kind arg st :
  strings.HasPrefix arg "-" = true -> strings.HasPrefix arg "--" = false ->
  (exists note,
     parseArg Quote ToLower ParseLoader rangeOrder intSize kind arg st
     = inr (MakeErrorWithNote
              ((if isBuild st.(options) then "Invalid build flag: "
                else "Invalid transform flag: ") +:+ Quote arg) note))
  /\ (forall osArgs, In arg osArgs ->
        exists err, parseOptionsForRun' osArgs = (None, None, noExtras, Some err)).
Proof.
  intros H1 H2. split.
  - exists (invalidFlagNote Quote arg). rewrite parseArg_single_dash by assumption.
    unfold invalidFlag. destruct (isBuild (options st)); reflexivity.
  - intros osArgs Hin.
    apply (parseOptionsForRun_failing Quote ToLower ParseLoader rangeOrder intSize arg);
      [exact Hin|].
    intros s. rewrite parseArg_single_dash by assumption. eauto.
Qed.

End Rejected.

Lemma single_dash_is_rejected_witness :
  (exists note,
     parseArg plainQuote asciiToLower twoLoaders (fun _ => esbuildEngines) 64 kindInternal
       "-bundle" (mkState (BuildOpts newBuildOptions) noExtras false 0)
     = inr (MakeErrorWithNote ("Invalid build flag: " +:+ plainQuote "-bundle") note))
  /\ (forall osArgs, In "-bundle" osArgs ->
        exists err,
          parseOptionsForRun plainQuote asciiToLower twoLoaders (fun _ => esbuildEngines) 64
            osArgs
          = (None, None, noExtras, Some err)).
Proof.
  exact (single_dash_is_rejected plainQuote asciiToLower twoLoaders
           (fun _ => esbuildEngines) 64 kindInternal "-bundle"
           (mkState (BuildOpts newBuildOptions) noExtras false 0) eq_refl eq_refl).
Defined.

(** ** Flags of a build, when transforming *)

Section BuildFlags.

Variable Quote : string -> string.
Variable ToLower : string -> string.
Variable ParseLoader : string -> api.Loader + ErrorWithNote.
Variable rangeOrder : nat -> list (string * api.EngineName).
Variable intSize : Z.

Local Abbreviation parseArg' := (parseArg Quote ToLower ParseLoader rangeOrder intSize).
Local Abbreviation parseArgs' := (parseArgs Quote ToLower ParseLoader rangeOrder intSize).
Local Abbreviation parseOptionsImpl' :=
  (parseOptionsImpl Quote ToLower ParseLoader rangeOrder intSize).
Local Abbreviation parseOptionsForRun' :=
  (parseOptionsForRun Quote ToLower ParseLoader rangeOrder intSize).

(** When transforming, no case of the switch matches a flag of a build. *)
Lemma parseArg_build_prefix kind p v t x isBare n :
  In p buildOnlyPrefixes ->
  parseArg' kind (p +:+ v) (mkState (TransformOpts t) x isBare n)
  = inr (invalidFlag Quote (p +:+ v) (TransformOpts t)).
Proof.
  intros Hin. unfold buildOnlyPrefixes in Hin. cbn [In] in Hin.
  repeat (destruct Hin as [<- | Hin]; [spell; unfold parseArg, after; simpl; reflexivity|]).
  destruct Hin.
Qed.

Lemma parseArg_build_flag kind flag arg t x isBare n :
  In flag buildOnlyBoolFlags -> isBoolFlag arg flag = true ->
  parseArg' kind arg (mkState (TransformOpts t) x isBare n)
  = inr (invalidFlag Quote arg (TransformOpts t)).
Proof.
  intros Hin [-> | [v ->]]%isBoolFlag_cases; unfold buildOnlyBoolFlags in Hin;
    cbn [In] in Hin;
    repeat (destruct Hin as [<- | Hin]; [spell; unfold parseArg, after; simpl; reflexivity|]);
    destruct Hin.
Qed.

(** When transforming, an argument that every transform state rejects
    makes the loop stop at an error, wherever it stands in the list. *)
Lemma parseArgs_failing_transform kind arg osArgs :
  In arg osArgs ->
  (forall t x isBare n,
     exists err, parseArg' kind arg (mkState (TransformOpts t) x isBare n) = inr err) ->
  forall st, isBuild st.(options) = false ->
    exists st' err, parseArgs' kind osArgs st = (st', Some err).
Proof.
  intros Hin Hfail. induction osArgs as [|a rest IH]; [destruct Hin|].
  intros st Hst. cbn [parseArgs].
  destruct (parseArg' kind a st) as [st1|err] eqn:Ha; [|eauto].
  destruct Hin as [->|Hin].
  - destruct st as [[b|t] x isBare n]; [discriminate|].
    destruct (Hfail t x isBare n) as [err Herr]. congruence.
  - apply IH; [exact Hin|].
    apply parseArg_step in Ha as (Hkind & _). congruence.
Qed.

(** X10. The flags of a build are rejected when transforming: an argument
    that starts with one of them is an invalid transform flag in every
    state of a transform parse, and when no argument is an entry point or
    [--bundle], an argument list that holds one makes [parseOptionsForRun]
    return an error and no options. *)
Theorem build_flags_need_a_build kind arg t x isBare n :
  (exists p, In p buildOnlyPrefixes /\ strings.HasPrefix arg p = true)
  \/ (exists flag, In flag buildOnlyBoolFlags /\ isBoolFlag arg flag = true) ->
  parseArg Quote ToLower ParseLoader rangeOrder intSize kind arg
    (mkState (TransformOpts t) x isBare n)
  = inr (MakeErrorWithNote ("Invalid transform flag: " +:+ Quote arg)
           (invalidFlagNote Quote arg))
  /\ (forall osArgs,
        In arg osArgs -> existsb isArgForBuild osArgs = false ->
        exists err, parseOptionsForRun' osArgs = (None, None, noExtras, Some err)).
Proof.
  intros Harg.
  assert (Hstep : forall kind t x isBare n,
            parseArg' kind arg (mkState (TransformOpts t) x isBare n)
            = inr (invalidFlag Quote arg (TransformOpts t))).
  { intros k t' x' isBare' n'. destruct Harg as [(p & Hin & Hp) | (flag & Hin & Hflag)].
    - rewrite (HasPrefix_app _ _ Hp). apply parseArg_build_prefix, Hin.
    - eapply parseArg_build_flag; eassumption. }
  split; [apply Hstep|].
  intros osArgs Hin Hmode. unfold parseOptionsForRun. rewrite Hmode.
  unfold parseOptionsImpl.
  match goal with
  | |- context [parseArgs _ _ _ _ _ _ osArgs ?s] =>
      destruct (parseArgs_failing_transform kindInternal arg osArgs Hin
                  (fun t x isBare n => ex_intro _ _ (Hstep kindInternal t x isBare n))
                  s eq_refl) as (st' & err & ->)
  end.
  destruct (options st'); eauto.
Qed.

End BuildFlags.

Lemma build_flags_need_a_build_witness :
  parseArg plainQuote asciiToLower twoLoaders (fun _ => esbuildEngines) 64 kindInternal
    "--outfile=out.js" (mkState (TransformOpts newTransformOptions) noExtras false 0)
  = inr (MakeErrorWithNote ("Invalid transform flag: " +:+ plainQuote "--outfile=out.js")
           (invalidFlagNote plainQuote "--outfile=out.js"))
  /\ (forall osArgs,
        In "--outfile=out.js" osArgs -> existsb isArgForBuild osArgs = false ->
        exists err,
          parseOptionsForRun plainQuote asciiToLower twoLoaders (fun _ => esbuildEngines) 64
            osArgs
          = (None, None, noExtras, Some err)).
Proof.
  apply (build_flags_need_a_build plainQuote asciiToLower twoLoaders
           (fun _ => esbuildEngines) 64 kindInternal "--outfile=out.js"
           newTransformOptions noExtras false 0).
  left. exists "--outfile=". split; [|reflexivity].
  unfold buildOnlyPrefixes. cbn [In]. tauto.
Defined.

(** ** Flags that add to a list, and flags whose last value counts *)

Lemma fold_left_values (prefix : string) (osArgs : list string) : forall l,
  fold_left (fun l arg =>
               if strings.HasPrefix arg prefix then l ++ [after prefix arg] else l) osArgs l
  = l ++ flagValues prefix osArgs.
Proof.
  unfold flagValues.
  induction osArgs as [|arg rest IH]; intros l; cbn [fold_left List.filter map].
  - rewrite app_nil_r. reflexivity.
  - rewrite IH. destruct (strings.HasPrefix arg prefix); [|reflexivity].
    cbn [map]. rewrite <- app_assoc. reflexivity.
Qed.

Lemma fold_left_last (prefix : string) (osArgs : list string) : forall s,
  fold_left (fun s arg => if strings.HasPrefix arg prefix then after prefix arg else s) osArgs s
  = List.last (flagValues prefix osArgs) s.
Proof.
  unfold flagValues.
  induction osArgs as [|arg rest IH]; intros s; cbn [fold_left List.filter map];
    [reflexivity|].
  rewrite IH. destruct (strings.HasPrefix arg prefix); [|reflexivity].
  cbn [map]. symmetry. apply last_cons.
Qed.

Section Lists.

Variable Quote : string -> string.
Variable ToLower : string -> string.
Variable ParseLoader : string -> api.Loader + ErrorWithNote.
Variable rangeOrder : nat -> list (string * api.EngineName).
Variable intSize : Z.

Local Abbreviation parseArg' := (parseArg Quote ToLower ParseLoader rangeOrder intSize).
Local Abbreviation parseArgs' := (parseArgs Quote ToLower ParseLoader rangeOrder intSize).
Local Abbreviation parseOptionsImpl' :=
  (parseOptionsImpl Quote ToLower ParseLoader rangeOrder intSize).
Local Abbreviation parseOptionsForRun' :=
  (parseOptionsForRun Quote ToLower ParseLoader rangeOrder intSize).
Local Abbreviation parseArgs_fold' :=
  (parseArgs_fold Quote ToLower ParseLoader rangeOrder intSize).

(** The cases of the five flags, for every value. *)
Lemma parseArg_external kind v st st' :
  parseArg' kind ("--external:" +:+ v) st = inl st' ->
  externalOf st'.(options) = externalOf st.(options) ++ [v].
Proof.
  destruct st as [[b|t] x isBare n]; spell; unfold parseArg, after; simpl;
    [intros [= <-]; reflexivity | discriminate].
Qed.

Lemma parseArg_inject kind v st st' :
  parseArg' kind ("--inject:" +:+ v) st = inl st' ->
  injectOf st'.(options) = injectOf st.(options) ++ [v].
Proof.
  destruct st as [[b|t] x isBare n]; spell; unfold parseArg, after; simpl;
    [intros [= <-]; reflexivity | discriminate].
Qed.

Lemma parseArg_pure kind v st st' :
  parseArg' kind ("--pure:" +:+ v) st = inl st' ->
  pureOf st'.(options) = pureOf st.(options) ++ [v].
Proof.
  destruct st as [[b|t] x isBare n]; spell; unfold parseArg, after; simpl;
    intros [= <-]; reflexivity.
Qed.

Lemma parseArg_outfile kind v st st' :
  parseArg' kind ("--outfile=" +:+ v) st = inl st' -> outfileOf st'.(options) = v.
Proof.
  destruct st as [[b|t] x isBare n]; spell; unfold parseArg, after; simpl;
    [intros [= <-]; reflexivity | discriminate].
Qed.

Lemma parseArg_outdir kind v st st' :
  parseArg' kind ("--outdir=" +:+ v) st = inl st' -> outdirOf st'.(options) = v.
Proof.
  destruct st as [[b|t] x isBare n]; spell; unfold parseArg, after; simpl;
    [intros [= <-]; reflexivity | discriminate].
Qed.

(** What one argument does to a reading that the flags with [prefix]
    change and the other arguments leave alone. *)
Lemma flag_step {A : Type} (obs : ParseState -> A) (prefix : string)
    (change : A -> string -> A) kind :
  (forall v st st', parseArg' kind (prefix +:+ v) st = inl st' ->
     obs st' = change (obs st) v) ->
  (forall arg st st', parseArg' kind arg st = inl st' ->
     strings.HasPrefix arg prefix = false -> obs st' = obs st) ->
  forall arg st st', parseArg' kind arg st = inl st' ->
    obs st' = (fun a arg => if strings.HasPrefix arg prefix
                            then change a (after prefix arg) else a) (obs st) arg.
Proof.
  intros Hflag Hother arg st st' Hparse. cbv beta.
  destruct (strings.HasPrefix arg prefix) eqn:Hp; [|eauto].
  apply Hflag. unfold after. rewrite <- (HasPrefix_app _ _ Hp). exact Hparse.
Qed.

Lemma parseOptionsImpl_lists kind osArgs o o' x :
  parseOptionsImpl' osArgs o kind = (o', x, None) ->
  externalOf o' = externalOf o ++ flagValues "--external:" osArgs
  /\ injectOf o' = injectOf o ++ flagValues "--inject:" osArgs
  /\ pureOf o' = pureOf o ++ flagValues "--pure:" osArgs
  /\ outfileOf o' = List.last (flagValues "--outfile=" osArgs) (outfileOf o)
  /\ outdirOf o' = List.last (flagValues "--outdir=" osArgs) (outdirOf o).
Proof.
  intros (st & Hargs & -> & _)%parseOptionsImpl_ok.
  destruct (bareSourceMapFallback_fields st) as (_ & _ & _ & -> & -> & -> & -> & -> & _).
  rewrite <- !fold_left_values, <- !fold_left_last.
  split_and!.
  - apply (parseArgs_fold' (fun s => externalOf s.(options)) _ kind
             (flag_step (fun s => externalOf s.(options)) "--external:"
                (fun l v => l ++ [v]) kind (parseArg_external kind)
                (fun arg s s' H => proj1 (parseArg_frames _ _ _ _ _ _ _ _ _ H)))
             _ _ _ Hargs).
  - apply (parseArgs_fold' (fun s => injectOf s.(options)) _ kind
             (flag_step (fun s => injectOf s.(options)) "--inject:"
                (fun l v => l ++ [v]) kind (parseArg_inject kind)
                (fun arg s s' H => proj1 (proj2 (parseArg_frames _ _ _ _ _ _ _ _ _ H))))
             _ _ _ Hargs).
  - apply (parseArgs_fold' (fun s => pureOf s.(options)) _ kind
             (flag_step (fun s => pureOf s.(options)) "--pure:"
                (fun l v => l ++ [v]) kind (parseArg_pure kind)
                (fun arg s s' H =>
                   proj1 (proj2 (proj2 (parseArg_frames _ _ _ _ _ _ _ _ _ H)))))
             _ _ _ Hargs).
  - apply (parseArgs_fold' (fun s => outfileOf s.(options)) _ kind
             (flag_step (fun s => outfileOf s.(options)) "--outfile="
                (fun _ v => v) kind (parseArg_outfile kind)
                (fun arg s s' H =>
                   proj1 (proj2 (proj2 (proj2 (parseArg_frames _ _ _ _ _ _ _ _ _ H))))))
             _ _ _ Hargs).
  - apply (parseArgs_fold' (fun s => outdirOf s.(options)) _ kind
             (flag_step (fun s => outdirOf s.(options)) "--outdir="
                (fun _ v => v) kind (parseArg_outdir kind)
                (fun arg s s' H =>
                   proj1 (proj2 (proj2 (proj2 (proj2
                     (parseArg_frames _ _ _ _ _ _ _ _ _ H)))))))
             _ _ _ Hargs).
Qed.

(** X11. The flags [--external:], [--inject:] and [--pure:] add to their
    lists in command-line order: after a parse that succeeds, each list is
    the one the options had followed by the values of its flags; so the
    build options that [parseOptionsForRun] returns hold exactly these
    values. *)
Theorem list_flags_accumulate kind osArgs :
  (forall o o' x,
     parseOptionsImpl Quote ToLower ParseLoader rangeOrder intSize osArgs o kind
     = (o', x, None) ->
     externalOf o' = externalOf o ++ flagValues "--external:" osArgs
     /\ injectOf o' = injectOf o ++ flagValues "--inject:" osArgs
     /\ pureOf o' = pureOf o ++ flagValues "--pure:" osArgs)
  /\ (forall b t x err,
        parseOptionsForRun' osArgs = (Some b, t, x, err) ->
        b.(BuildOptions.External) = flagValues "--external:" osArgs
        /\ b.(BuildOptions.Inject) = flagValues "--inject:" osArgs
        /\ b.(BuildOptions.Pure) = flagValues "--pure:" osArgs).
Proof.
  split.
  - intros o o' x (H1 & H2 & H3 & _)%parseOptionsImpl_lists. auto.
  - intros b t x err (Hb & _)%parseOptionsForRun_parsed.
    destruct (Hb b eq_refl) as [x' (H1 & H2 & H3 & _)%parseOptionsImpl_lists]. auto.
Qed.

(** X12. The output file and the output directory are those of the last
    [--outfile=] flag and of the last [--outdir=] flag: after a parse that
    succeeds, each is the value of the last such flag, and the one the
    options had when there is no such flag; in the build options that
    [parseOptionsForRun] returns it is empty when there is none. *)
Theorem output_paths_of_last_flag kind osArgs :
  (forall o o' x,
     parseOptionsImpl Quote ToLower ParseLoader rangeOrder intSize osArgs o kind
     = (o', x, None) ->
     outfileOf o' = List.last (flagValues "--outfile=" osArgs) (outfileOf o)
     /\ outdirOf o' = List.last (flagValues "--outdir=" osArgs) (outdirOf o))
  /\ (forall b t x err,
        parseOptionsForRun' osArgs = (Some b, t, x, err) ->
        b.(BuildOptions.Outfile) = List.last (flagValues "--outfile=" osArgs) ""
        /\ b.(BuildOptions.Outdir) = List.last (flagValues "--outdir=" osArgs) "").
Proof.
  split.
  - intros o o' x (_ & _ & _ & H1 & H2)%parseOptionsImpl_lists. auto.
  - intros b t x err (Hb & _)%parseOptionsForRun_parsed.
    destruct (Hb b eq_refl) as [x' (_ & _ & _ & H1 & H2)%parseOptionsImpl_lists]. auto.
Qed.

End Lists.
